(** * walm: the project orchestration core ([pkg/project/project.go])

    A shallow embedding of the project manager (single-flight validation and
    the five mutating operations), of the project-info projection and of the
    two dependency resolvers, together with the properties the specification
    states about them.

    Conventions.
    - Go [string] is [string]; [int64] is [Z], with the wrap-around written
      out where the code computes with it (the timeout in seconds is compared
      with zero and stored, and multiplied into a [time.Duration] for the
      wait); a Go [map[string]string] that may be [nil] is
      [option (gmap string string)], [None] being the nil map.
    - A Go [error] value is an [error]; a function returning [(T, error)]
      returns a [result T]; a run-time panic is the third constructor.
    - The helm cache, the task broker and the chart runtime live outside the
      package: their answers are the fields of a [Collab] record, and what the
      manager does to them is recorded in a [World]. *)

From stdpp Require Import gmap strings list fin_maps.
From Stdlib Require Import ZArith Lia.

Local Open Scope Z_scope.

(** ** Errors and results *)

(** [ErrNotFound] is the sentinel recognised by [walmerr.IsNotFoundError];
    [ErrExternal] is an error produced by a collaborator (store, broker,
    chart runtime); [ErrNew] is an error built in this package with
    [errors.New] or [fmt.Errorf]; [ErrNoRootOrCyclic] is what the graph
    package reports. *)
Inductive error : Type :=
| ErrNotFound
| ErrExternal (msg : string)
| ErrNew (msg : string)
| ErrNoRootOrCyclic.

Definition IsNotFoundError (e : error) : bool :=
  match e with ErrNotFound => true | _ => false end.

Inductive result (A : Type) : Type :=
| Ok (a : A)
| Err (e : error)
| Panic.
Arguments Ok {A} a.
Arguments Err {A} e.
Arguments Panic {A}.

(** ** Data model *)

Record TaskSignature := {
  sigName : string;
  sigUUID : string
}.

Inductive TaskStateKind := Pending | Running | Success | Failure.

Record WalmTaskState := {
  TaskUUID : string;
  TaskName : string;
  TaskError : string;
  CreatedAt : Z;
  State : TaskStateKind
}.

(** Modelled from the spec: the task package is not part of the sources at
    hand; the state predicates are the ones of the data model, over the four
    states it lists. *)
Definition IsSuccess (t : WalmTaskState) : bool :=
  match State t with Success => true | _ => false end.

(** Modelled from the spec: see [IsSuccess]. *)
Definition IsFailure (t : WalmTaskState) : bool :=
  match State t with Failure => true | _ => false end.

Record ProjectCache := {
  pcNamespace : string;
  pcName : string;
  LatestTaskSignature : TaskSignature;
  LatestTaskTimeoutSec : Z
}.

Record ReleaseRequestV2 := {
  rqName : string;
  rqRepoName : string;
  rqChartName : string;
  rqChartVersion : string;
  rqDependencies : option (gmap string string)
}.

Record ReleaseInfoV2 := {
  riName : string;
  riRepoName : string;
  riChartName : string;
  riChartVersion : string;
  riDependencies : option (gmap string string);
  riReady : bool;
  riMessage : string
}.

Record ProjectParams := {
  Releases : list ReleaseRequestV2
}.

Record ProjectInfo := {
  piProjectCache : ProjectCache;
  piReleases : list ReleaseInfoV2;
  piLatestTaskState : option WalmTaskState;
  piReady : bool;
  piMessage : string
}.

(** The argument records handed to the task broker. *)
Inductive TaskArgs :=
| CreateProjectTaskArgs (name namespace : string) (projectParams : ProjectParams)
| DeleteProjectTaskArgs (name namespace : string) (deletePvcs : bool)
| AddReleaseTaskArgs (namespace name : string) (projectParams : ProjectParams)
| UpgradeReleaseTaskArgs (namespace projectName : string) (releaseParams : ReleaseRequestV2)
| RemoveReleaseTaskArgs (namespace name releaseName : string) (deletePvcs : bool).

(** Reading a Go map, nil or not: [_, ok := m[k]]. *)
Definition hasKey (m : option (gmap string string)) (k : string) : bool :=
  match m with
  | Some d => bool_decide (is_Some (d !! k))
  | None => false
  end.

Definition getKey (m : option (gmap string string)) (k : string) : option string :=
  match m with
  | Some d => d !! k
  | None => None
  end.

(** ** Collaborators and the observable world *)

(** What the collaborators answer.  [getFault], [putFault] are transport
    failures of the store; [send] is the broker's answer to a submission;
    [await] is what [AsyncResult.GetWithTimeout] returns for a signature and
    a [time.Duration] (a number of nanoseconds).  [upOrder] and [downOrder]
    are the orders in which the graph package lists the parents and the
    children of a vertex: [Set.List()] ranges over a Go map, in no fixed
    order, so each is a proposal that is followed when it is a listing of the
    set (see [listed]). *)
Record Collab := {
  getFault : string -> string -> option string;
  putFault : ProjectCache -> option string;
  finishedOrTimeout : ProjectCache -> bool;
  latestTaskState : ProjectCache -> option WalmTaskState;
  listReleases : string -> string -> result (list ReleaseInfoV2);
  autoDeps : string -> string -> string -> result (list string);
  send : TaskArgs -> result TaskSignature;
  purgeFault : TaskSignature -> option string;
  await : TaskSignature -> Z -> option error;
  upOrder : list string -> list string;
  downOrder : list string -> list string
}.

(** The store contents and the trace of what the manager did. *)
Record World := {
  caches : gmap (string * string) ProjectCache;
  cacheWrites : list ProjectCache;
  submitted : list TaskArgs;
  purged : list TaskSignature
}.

(** A computation that threads the world and may fail. *)
Definition M (A : Type) : Type := World -> World * result A.

Definition ret {A} (a : A) : M A := fun w => (w, Ok a).
Definition fail {A} (e : error) : M A := fun w => (w, Err e).
Definition bind {A B} (c : M A) (k : A -> M B) : M B :=
  fun w =>
    match c w with
    | (w', Ok a) => k a w'
    | (w', Err e) => (w', Err e)
    | (w', Panic) => (w', Panic)
    end.

Notation "x <- c ;; k" := (bind c (fun x => k))
  (at level 100, c at next level, right associativity).
Notation "c ;;; k" := (bind c (fun _ => k))
  (at level 100, right associativity).

(** The Go [error] an operation returns: [None] is [nil]. *)
Definition returned {A} (r : World * result A) : option error :=
  match snd r with
  | Err e => Some e
  | _ => None
  end.

Definition panicked {A} (r : World * result A) : bool :=
  match snd r with
  | Panic => true
  | _ => false
  end.

(** [int64] arithmetic: the value a 64-bit signed result wraps to. *)
Definition wrap64 (z : Z) : Z := (z + 2 ^ 63) mod 2 ^ 64 - 2 ^ 63.

(** [time.Second], in nanoseconds. *)
Definition Second : Z := 1000000000.

(** [time.Duration(timeoutSec) * time.Second]: an [int64] product. *)
Definition secondsToDuration (timeoutSec : Z) : Z := wrap64 (timeoutSec * Second).
Arguments secondsToDuration : simpl never.

Section Manager.

Variable C : Collab.

(** *** The helm cache and the task broker, as the manager uses them *)

Definition GetProjectCache (namespace name : string) (w : World) : result ProjectCache :=
  match getFault C namespace name with
  | Some msg => Err (ErrExternal msg)
  | None =>
      match caches w !! (namespace, name) with
      | Some c => Ok c
      | None => Err ErrNotFound
      end
  end.

Definition CreateOrUpdateProjectCache (c : ProjectCache) : M unit :=
  fun w =>
    match putFault C c with
    | Some msg => (w, Err (ErrExternal msg))
    | None =>
        ({| caches := <[(pcNamespace c, pcName c) := c]> (caches w);
            cacheWrites := cacheWrites w ++ [c];
            submitted := submitted w;
            purged := purged w |}, Ok tt)
    end.

Definition SendTask (args : TaskArgs) : M TaskSignature :=
  fun w =>
    match send C args with
    | Ok sig =>
        ({| caches := caches w;
            cacheWrites := cacheWrites w;
            submitted := submitted w ++ [args];
            purged := purged w |}, Ok sig)
    | Err e => (w, Err e)
    | Panic => (w, Panic)
    end.

(** [PurgeTaskState]: a failure is logged and swallowed by every caller. *)
Definition PurgeTaskState (sig : TaskSignature) : M unit :=
  fun w =>
    match purgeFault C sig with
    | Some _ => (w, Ok tt)
    | None =>
        ({| caches := caches w;
            cacheWrites := cacheWrites w;
            submitted := submitted w;
            purged := purged w ++ [sig] |}, Ok tt)
    end.

Definition GetWithTimeout (sig : TaskSignature) (timeout : Z) : M unit :=
  fun w =>
    match await C sig timeout with
    | Some e => (w, Err e)
    | None => (w, Ok tt)
    end.

Definition defaultTimeoutSec : Z := 60.

(** *** buildProjectInfo *)

Fixpoint firstNotReady (releases : list ReleaseInfoV2) : option ReleaseInfoV2 :=
  match releases with
  | [] => None
  | r :: rest => if riReady r then firstNotReady rest else Some r
  end.

Definition isProjectReadyByReleases (releases : list ReleaseInfoV2) : bool * string :=
  match releases with
  | [] => (false, "no release can be found")
  | _ :: _ =>
      match firstNotReady releases with
      | Some r => (false, riMessage r)
      | None => (true, "")
      end
  end.

Definition failedMessage (sig : TaskSignature) (err : string) : string :=
  "the project latest task " +:+ sigName sig +:+ "-" +:+ sigUUID sig
    +:+ " failed : " +:+ err.

Definition waitMessage (sig : TaskSignature) : string :=
  "please wait for the project latest task " +:+ sigName sig +:+ "-"
    +:+ sigUUID sig +:+ " finished".

Definition buildProjectInfo (projectCache : ProjectCache) : result ProjectInfo :=
  let taskState := latestTaskState C projectCache in
  match listReleases C (pcNamespace projectCache) (pcName projectCache) with
  | Err e => Err e
  | Panic => Panic
  | Ok releases =>
      let '(ready, message) :=
        match taskState with
        | None => isProjectReadyByReleases releases
        | Some ts =>
            if String.eqb (TaskName ts) "" then isProjectReadyByReleases releases
            else if IsSuccess ts then isProjectReadyByReleases releases
            else if IsFailure ts then
              (false, failedMessage (LatestTaskSignature projectCache) (TaskError ts))
            else (false, waitMessage (LatestTaskSignature projectCache))
        end in
      Ok {| piProjectCache := projectCache;
            piReleases := releases;
            piLatestTaskState := taskState;
            piReady := ready;
            piMessage := message |}
  end.

(** *** validateProjectTask *)

Definition busyMessage (sig : TaskSignature) : string :=
  "please wait for the project latest task " +:+ sigName sig +:+ "-"
    +:+ sigUUID sig +:+ " finished or timeout".

Definition validateProjectTask (namespace name : string) (allowProjectNotExist : bool)
    (w : World) : result (option ProjectCache) :=
  match GetProjectCache namespace name w with
  | Err err =>
      if negb (IsNotFoundError err) then Err err
      else if negb allowProjectNotExist then Err err
      else Ok None
  | Panic => Panic
  | Ok projectCache =>
      if negb (finishedOrTimeout C projectCache)
      then Err (ErrNew (busyMessage (LatestTaskSignature projectCache)))
      else Ok (Some projectCache)
  end.

Definition validate (namespace name : string) (allowProjectNotExist : bool)
    : M (option ProjectCache) :=
  fun w => (w, validateProjectTask namespace name allowProjectNotExist w).

(** *** The five mutating operations *)

Definition releaseExistsInProject (releases : list ReleaseInfoV2) (name : string) : bool :=
  existsb (fun releaseInfo => String.eqb (riName releaseInfo) name) releases.

Definition CreateProject (namespace project : string) (projectParams : ProjectParams)
    (async : bool) (timeoutSec : Z) : M unit :=
  if Nat.eqb (length (Releases projectParams)) 0
  then fail (ErrNew "project releases can not be empty")
  else
    let timeoutSec := if Z.eqb timeoutSec 0 then defaultTimeoutSec else timeoutSec in
    oldProjectCache <- validate namespace project true ;;
    createProjectTaskSig <- SendTask (CreateProjectTaskArgs project namespace projectParams) ;;
    let projectCache := {| pcNamespace := namespace; pcName := project;
                           LatestTaskSignature := createProjectTaskSig;
                           LatestTaskTimeoutSec := timeoutSec |} in
    CreateOrUpdateProjectCache projectCache ;;;
    match oldProjectCache with
    | Some old => PurgeTaskState (LatestTaskSignature old)
    | None => ret tt
    end ;;;
    if negb async
    then GetWithTimeout (LatestTaskSignature projectCache) (secondsToDuration timeoutSec)
    else ret tt.

Definition DeleteProject (namespace project : string) (async : bool) (timeoutSec : Z)
    (deletePvcs : bool) : M unit :=
  fun w =>
    match validateProjectTask namespace project false w with
    | Err err => if IsNotFoundError err then (w, Ok tt) else (w, Err err)
    | Panic => (w, Panic)
    | Ok oldProjectCache =>
        (let timeoutSec := if Z.eqb timeoutSec 0 then defaultTimeoutSec else timeoutSec in
         deleteProjectTaskSig <- SendTask (DeleteProjectTaskArgs project namespace deletePvcs) ;;
         let projectCache := {| pcNamespace := namespace; pcName := project;
                                LatestTaskSignature := deleteProjectTaskSig;
                                LatestTaskTimeoutSec := timeoutSec |} in
         CreateOrUpdateProjectCache projectCache ;;;
         match oldProjectCache with
         | Some old => PurgeTaskState (LatestTaskSignature old)
         | None => ret tt
         end ;;;
         if negb async
         then GetWithTimeout (LatestTaskSignature projectCache) (secondsToDuration timeoutSec)
         else ret tt) w
    end.

(** [buildProjectInfo] dereferences the cache it is given: a nil cache is a
    nil-pointer panic. *)
Definition buildProjectInfoOf (oldProjectCache : option ProjectCache) : result ProjectInfo :=
  match oldProjectCache with
  | Some c => buildProjectInfo c
  | None => Panic
  end.

Definition UpgradeReleaseInProject (namespace projectName : string)
    (releaseParams : ReleaseRequestV2) (async : bool) (timeoutSec : Z) : M unit :=
  fun w =>
    match validateProjectTask namespace projectName false w with
    | Err err => if IsNotFoundError err then (w, Ok tt) else (w, Err err)
    | Panic => (w, Panic)
    | Ok oldProjectCache =>
        match buildProjectInfoOf oldProjectCache with
        | Err err => (w, Err err)
        | Panic => (w, Panic)
        | Ok projectInfo =>
            if negb (releaseExistsInProject (piReleases projectInfo) (rqName releaseParams))
            then (w, Err (ErrNew ("release " +:+ rqName releaseParams
                                    +:+ " is not found in project " +:+ projectName)))
            else
              (let timeoutSec := if Z.eqb timeoutSec 0 then defaultTimeoutSec else timeoutSec in
               upgradeReleaseTaskSig <-
                 SendTask (UpgradeReleaseTaskArgs namespace projectName releaseParams) ;;
               let projectCache := {| pcNamespace := namespace; pcName := projectName;
                                      LatestTaskSignature := upgradeReleaseTaskSig;
                                      LatestTaskTimeoutSec := timeoutSec |} in
               CreateOrUpdateProjectCache projectCache ;;;
               match oldProjectCache with
               | Some old => PurgeTaskState (LatestTaskSignature old)
               | None => ret tt
               end ;;;
               if negb async
               then GetWithTimeout (LatestTaskSignature projectCache) (secondsToDuration timeoutSec)
               else ret tt) w
        end
    end.

Definition RemoveReleaseInProject (namespace projectName releaseName : string)
    (async : bool) (timeoutSec : Z) (deletePvcs : bool) : M unit :=
  fun w =>
    match validateProjectTask namespace projectName false w with
    | Err err => if IsNotFoundError err then (w, Ok tt) else (w, Err err)
    | Panic => (w, Panic)
    | Ok oldProjectCache =>
        match buildProjectInfoOf oldProjectCache with
        | Err err => (w, Err err)
        | Panic => (w, Panic)
        | Ok projectInfo =>
            if negb (releaseExistsInProject (piReleases projectInfo) releaseName)
            then (w, Ok tt)
            else
              (let timeoutSec := if Z.eqb timeoutSec 0 then defaultTimeoutSec else timeoutSec in
               removeReleaseTaskSig <-
                 SendTask (RemoveReleaseTaskArgs namespace projectName releaseName deletePvcs) ;;
               let projectCache := {| pcNamespace := namespace; pcName := projectName;
                                      LatestTaskSignature := removeReleaseTaskSig;
                                      LatestTaskTimeoutSec := timeoutSec |} in
               CreateOrUpdateProjectCache projectCache ;;;
               match oldProjectCache with
               | Some old => PurgeTaskState (LatestTaskSignature old)
               | None => ret tt
               end ;;;
               if negb async
               then GetWithTimeout (LatestTaskSignature projectCache) (secondsToDuration timeoutSec)
               else ret tt) w
        end
    end.

Definition AddReleasesInProject (namespace projectName : string)
    (projectParams : ProjectParams) (async : bool) (timeoutSec : Z) : M unit :=
  if Nat.eqb (length (Releases projectParams)) 0
  then fail (ErrNew "project releases can not be empty")
  else
    oldProjectCache <- validate namespace projectName true ;;
    let timeoutSec := if Z.eqb timeoutSec 0 then defaultTimeoutSec else timeoutSec in
    addReleaseTaskSig <- SendTask (AddReleaseTaskArgs namespace projectName projectParams) ;;
    let projectCache := {| pcNamespace := namespace; pcName := projectName;
                           LatestTaskSignature := addReleaseTaskSig;
                           LatestTaskTimeoutSec := timeoutSec |} in
    CreateOrUpdateProjectCache projectCache ;;;
    match oldProjectCache with
    | Some old => PurgeTaskState (LatestTaskSignature old)
    | None => ret tt
    end ;;;
    if negb async
    then GetWithTimeout (LatestTaskSignature projectCache) (secondsToDuration timeoutSec)
    else ret tt.

Definition AddReleaseInProject (namespace projectName : string)
    (releaseParams : ReleaseRequestV2) (async : bool) (timeoutSec : Z) : M unit :=
  AddReleasesInProject namespace projectName {| Releases := [releaseParams] |} async timeoutSec.

(** The mutating operations as one type, so that a statement can range over
    all of them. *)
Inductive Operation :=
| OpCreate (namespace project : string) (projectParams : ProjectParams)
    (async : bool) (timeoutSec : Z)
| OpDelete (namespace project : string) (async : bool) (timeoutSec : Z) (deletePvcs : bool)
| OpAddReleases (namespace projectName : string) (projectParams : ProjectParams)
    (async : bool) (timeoutSec : Z)
| OpUpgrade (namespace projectName : string) (releaseParams : ReleaseRequestV2)
    (async : bool) (timeoutSec : Z)
| OpRemove (namespace projectName releaseName : string) (async : bool) (timeoutSec : Z)
    (deletePvcs : bool).

Definition runOp (op : Operation) : M unit :=
  match op with
  | OpCreate ns p pp a t => CreateProject ns p pp a t
  | OpDelete ns p a t d => DeleteProject ns p a t d
  | OpAddReleases ns p pp a t => AddReleasesInProject ns p pp a t
  | OpUpgrade ns p r a t => UpgradeReleaseInProject ns p r a t
  | OpRemove ns p r a t d => RemoveReleaseInProject ns p r a t d
  end.

Definition opNamespace (op : Operation) : string :=
  match op with
  | OpCreate ns _ _ _ _ | OpDelete ns _ _ _ _ | OpAddReleases ns _ _ _ _
  | OpUpgrade ns _ _ _ _ | OpRemove ns _ _ _ _ _ => ns
  end.

Definition opProject (op : Operation) : string :=
  match op with
  | OpCreate _ p _ _ _ | OpDelete _ p _ _ _ | OpAddReleases _ p _ _ _
  | OpUpgrade _ p _ _ _ | OpRemove _ p _ _ _ _ => p
  end.

Definition opTimeout (op : Operation) : Z :=
  match op with
  | OpCreate _ _ _ _ t | OpDelete _ _ _ t _ | OpAddReleases _ _ _ _ t
  | OpUpgrade _ _ _ _ t | OpRemove _ _ _ _ t _ => t
  end.

(** Create and add-releases reject an empty bundle before they validate. *)
Definition opEmptyBundle (op : Operation) : bool :=
  match op with
  | OpCreate _ _ pp _ _ | OpAddReleases _ _ pp _ _ => Nat.eqb (length (Releases pp)) 0
  | _ => false
  end.

End Manager.

(** ** The graph package ([pkg/util/dag]) *)

Module Dag.
Section Graph.

Context {V : Type} `{EqDecision V}.

(** Modelled from the spec: the graph package is not part of the sources at
    hand.  A mutable directed graph with vertices of any comparable identity;
    an edge [(a, b)] reads "[a] depends on [b]".  Vertices and edges are sets:
    adding one that is present changes nothing. *)
Record AcyclicGraph := {
  vertices : list V;
  edges : list (V * V)
}.

Definition empty : AcyclicGraph := {| vertices := []; edges := [] |}.

(** Modelled from the spec: [Add(v)]. *)
Definition Add (v : V) (g : AcyclicGraph) : AcyclicGraph :=
  if bool_decide (v ∈ vertices g) then g
  else {| vertices := vertices g ++ [v]; edges := edges g |}.

(** Modelled from the spec: [Connect(edge)]. *)
Definition Connect (e : V * V) (g : AcyclicGraph) : AcyclicGraph :=
  if bool_decide (e ∈ edges g) then g
  else {| vertices := vertices g; edges := edges g ++ [e] |}.

(** Modelled from the spec: [DownEdges(v)], the children of [v]. *)
Definition DownEdges (g : AcyclicGraph) (v : V) : list V :=
  (filter (fun e => e.1 = v) (edges g)).*2.

(** Modelled from the spec: [UpEdges(v)], the parents of [v]. *)
Definition UpEdges (g : AcyclicGraph) (v : V) : list V :=
  (filter (fun e => e.2 = v) (edges g)).*1.

Definition isRoot (g : AcyclicGraph) (v : V) : bool :=
  bool_decide (UpEdges g v = []).

(** Modelled from the spec: [Root()], the unique vertex with no incoming
    edge, or an error if there is none or more than one. *)
Definition Root (g : AcyclicGraph) : result V :=
  match filter (fun v => isRoot g v = true) (vertices g) with
  | [r] => Ok r
  | _ => Err ErrNoRootOrCyclic
  end.

(** A vertex may be visited once all the vertices it depends on have been. *)
Definition ready (g : AcyclicGraph) (done : list V) (v : V) : bool :=
  forallb (fun c => bool_decide (c ∈ done)) (DownEdges g v).

(** Modelled from the spec: [Walk(fn)], a topological traversal visiting
    each vertex exactly once, a vertex after the vertices it depends on
    ("an edge A -> B means A depends on B, so B must be realized before A");
    a cycle makes the walk fail.  The walker is concurrent: which of the
    vertices that may be visited comes next is not determined, so the choice
    is the parameter [sched], a number read as a position in the list of
    the vertices that may be visited. *)
Fixpoint walkLoop {S : Type} (sched : list V -> nat) (g : AcyclicGraph)
    (cb : V -> S -> result S) (fuel : nat) (pending done : list V) (s : S)
    : result S :=
  match pending with
  | [] => Ok s
  | _ :: _ =>
      match fuel with
      | O => Err ErrNoRootOrCyclic
      | Datatypes.S fuel' =>
          match filter (fun v => ready g done v = true) pending with
          | [] => Err ErrNoRootOrCyclic
          | r0 :: rs =>
              let v := nth (sched (r0 :: rs)) (r0 :: rs) r0 in
              match cb v s with
              | Ok s' =>
                  walkLoop sched g cb fuel' (filter (fun x => x ≠ v) pending)
                    (v :: done) s'
              | Err e => Err e
              | Panic => Panic
              end
          end
      end
  end.

Definition Walk {S : Type} (sched : list V -> nat) (g : AcyclicGraph)
    (cb : V -> S -> result S) (s : S) : result S :=
  walkLoop sched g cb (length (vertices g)) (vertices g) [] s.

(** A graph is acyclic when its vertices can be numbered so that every edge
    goes from a larger number to a smaller one. *)
Definition is_dag (g : AcyclicGraph) : Prop :=
  exists rank : V -> nat, forall a b, (a, b) ∈ edges g -> (rank b < rank a)%nat.

(** Edges connect vertices of the graph. *)
Definition closed (g : AcyclicGraph) : Prop :=
  forall a b, (a, b) ∈ edges g -> a ∈ vertices g /\ b ∈ vertices g.

(** [b] occurs in [l] strictly before [a]. *)
Definition before (l : list V) (b a : V) : Prop :=
  exists l1 l2 l3, l = l1 ++ b :: l2 ++ a :: l3.

End Graph.
Arguments AcyclicGraph V : clear implicits.
End Dag.

(** ** The dependency resolvers *)

(** Writing a Go map: [m[k] = v] panics on the nil map. *)
Definition setKey (m : option (gmap string string)) (k v : string)
    : result (option (gmap string string)) :=
  match m with
  | Some d => Ok (Some (<[k := v]> d))
  | None => Panic
  end.

Definition withRqDependencies (r : ReleaseRequestV2) (d : option (gmap string string))
    : ReleaseRequestV2 :=
  {| rqName := rqName r; rqRepoName := rqRepoName r; rqChartName := rqChartName r;
     rqChartVersion := rqChartVersion r; rqDependencies := d |}.

(** Modelled from the spec: [buildReleaseRequest] is not part of the sources
    at hand.  It projects the live release of that name back into a request,
    and returns nil when the project has no release of that name. *)
Definition buildReleaseRequest (projectInfo : ProjectInfo) (releaseName : string)
    : option ReleaseRequestV2 :=
  match find (fun r => String.eqb (riName r) releaseName) (piReleases projectInfo) with
  | Some r =>
      Some {| rqName := riName r; rqRepoName := riRepoName r;
              rqChartName := riChartName r; rqChartVersion := riChartVersion r;
              rqDependencies := riDependencies r |}
  | None => None
  end.

(** Modelled from the spec: [helm.DeleteReleaseDependency] is not part of the
    sources at hand.  It removes any entry whose key equals the chart name. *)
Definition DeleteReleaseDependency (dependencies : option (gmap string string))
    (chartName : string) : option (gmap string string) :=
  match dependencies with
  | Some d => Some (delete chartName d)
  | None => None
  end.

(** The values of a dependencies map; the nil map has none. *)
Definition depValues (m : option (gmap string string)) : list string :=
  match m with
  | Some d => (map_to_list d).*2
  | None => []
  end.

(** The releases of a bundle are objects reached through pointers; the
    pointer to a release is its position in [projectParams.Releases], and the
    list itself is the store of these objects. *)
Abbreviation ptr := nat (only parsing).

Section Resolvers.

Variable C : Collab.

(** *** brainFuckChartDepParse *)


Definition chartIndex (releases : list ReleaseRequestV2) : gmap string ptr :=
  fold_left (fun m ir => <[rqChartName ir.2 := ir.1]> m)
    (zip (seq 0 (length releases)) releases) ∅.

Definition chartNodes (releases : list ReleaseRequestV2) : Dag.AcyclicGraph ptr :=
  fold_left (fun g i => Dag.Add i g) (seq 0 (length releases)) Dag.empty.

Definition connectSubCharts (projectParamsMap : gmap string ptr) (p : ptr)
    (helmRelease : ReleaseRequestV2) (subCharts : list string)
    (g : Dag.AcyclicGraph ptr) : Dag.AcyclicGraph ptr :=
  fold_left
    (fun g subChartName =>
       match projectParamsMap !! subChartName with
       | Some q =>
           if negb (hasKey (rqDependencies helmRelease) subChartName)
           then Dag.Connect (p, q) g
           else g
       | None => g
       end)
    subCharts g.

Fixpoint chartEdges (projectParamsMap : gmap string ptr)
    (todo : list (ptr * ReleaseRequestV2)) (g : Dag.AcyclicGraph ptr)
    : result (Dag.AcyclicGraph ptr) :=
  match todo with
  | [] => Ok g
  | (p, helmRelease) :: rest =>
      match autoDeps C (rqRepoName helmRelease) (rqChartName helmRelease)
              (rqChartVersion helmRelease) with
      | Ok subCharts =>
          chartEdges projectParamsMap rest
            (connectSubCharts projectParamsMap p helmRelease subCharts g)
      | Err e => Err e
      | Panic => Panic
      end
  end.

Definition chartGraph (releases : list ReleaseRequestV2) : result (Dag.AcyclicGraph ptr) :=
  chartEdges (chartIndex releases) (zip (seq 0 (length releases)) releases)
    (chartNodes releases).

(** The inner loop of the walk callback: one map write per child. *)
Fixpoint absorbChildren (heap : list ReleaseRequestV2) (children : list ptr)
    (deps : option (gmap string string)) : result (option (gmap string string)) :=
  match children with
  | [] => Ok deps
  | c :: rest =>
      match heap !! c with
      | Some releaseInfo =>
          match setKey deps (rqChartName releaseInfo) (rqName releaseInfo) with
          | Ok deps' => absorbChildren heap rest deps'
          | Err e => Err e
          | Panic => Panic
          end
      | None => Panic
      end
  end.

(** The walk callback; the state is the store of releases and
    [releaseParsed]. *)
Definition visit (g : Dag.AcyclicGraph ptr) (v : ptr)
    (s : list ReleaseRequestV2 * list ptr) : result (list ReleaseRequestV2 * list ptr) :=
  let '(heap, releaseParsed) := s in
  match heap !! v with
  | Some releaseRequest =>
      match absorbChildren heap (Dag.DownEdges g v) (rqDependencies releaseRequest) with
      | Ok deps =>
          Ok (<[v := withRqDependencies releaseRequest deps]> heap, releaseParsed ++ [v])
      | Err e => Err e
      | Panic => Panic
      end
  | None => Panic
  end.

(** The result is the store after the call and the returned list of
    pointers into it. *)
Definition brainFuckChartDepParse (sched : list ptr -> nat) (projectParams : ProjectParams)
    : result (list ReleaseRequestV2 * list ptr) :=
  match chartGraph (Releases projectParams) with
  | Ok g =>
      match Dag.Root g with
      | Ok _ => Dag.Walk sched g (visit g) (Releases projectParams, [])
      | Err e => Err e
      | Panic => Panic
      end
  | Err e => Err e
  | Panic => Panic
  end.

(** The releases a returned list of pointers denotes. *)
Definition deref (heap : list ReleaseRequestV2) (l : list ptr) : list ReleaseRequestV2 :=
  omap (fun p => heap !! p) l.

End Resolvers.

(** [Set.List()]: the elements of a set in no fixed order.  The order is a
    proposal; a proposal that is not a listing of the set is ignored. *)
Definition listed (order : list string -> list string) (l : list string) : list string :=
  if decide (order l ≡ₚ l) then order l else l.

Section RuntimeResolver.

Variable C : Collab.

(** *** brainFuckRuntimeDepParse *)

(** The vertices of the runtime graph are release names. *)
Definition runtimeNodes (releases : list ReleaseInfoV2) : Dag.AcyclicGraph string :=
  fold_left (fun g helmRelease => Dag.Add (riName helmRelease) g) releases Dag.empty.

Definition runtimeEdges (releases : list ReleaseInfoV2) (g : Dag.AcyclicGraph string)
    : Dag.AcyclicGraph string :=
  fold_left
    (fun g helmRelease =>
       fold_left (fun g v => Dag.Connect (riName helmRelease, v) g)
         (depValues (riDependencies helmRelease)) g)
    releases g.

Definition runtimeGraph (releases : list ReleaseInfoV2) : Dag.AcyclicGraph string :=
  runtimeEdges releases (runtimeNodes releases).

(** Existing releases whose chart declares the incoming chart. *)
Fixpoint connectUpper (releaseParams : ReleaseRequestV2) (todo : list ReleaseInfoV2)
    (g : Dag.AcyclicGraph string) : result (Dag.AcyclicGraph string) :=
  match todo with
  | [] => Ok g
  | helmRelease :: rest =>
      match autoDeps C (riRepoName helmRelease) (riChartName helmRelease)
              (riChartVersion helmRelease) with
      | Ok subCharts =>
          connectUpper releaseParams rest
            (fold_left
               (fun g subChartName =>
                  if String.eqb subChartName (rqChartName releaseParams)
                     && negb (hasKey (riDependencies helmRelease) subChartName)
                  then Dag.Connect (riName helmRelease, rqName releaseParams) g
                  else g)
               subCharts g)
      | Err e => Err e
      | Panic => Panic
      end
  end.

(** Existing releases whose chart the incoming chart declares. *)
Definition connectDown (releaseParams : ReleaseRequestV2) (releases : list ReleaseInfoV2)
    (releaseSubCharts : list string) (g : Dag.AcyclicGraph string)
    : Dag.AcyclicGraph string :=
  fold_left
    (fun g releaseSubChart =>
       if hasKey (rqDependencies releaseParams) releaseSubChart then g
       else
         fold_left
           (fun g helmRelease =>
              if String.eqb releaseSubChart (riChartName helmRelease)
              then Dag.Connect (rqName releaseParams, riName helmRelease) g
              else g)
           releases g)
    releaseSubCharts g.

(** Writing into a map that is created first when it is nil. *)
Definition setKeyInit (m : option (gmap string string)) (k v : string)
    : option (gmap string string) :=
  Some (<[k := v]> (default ∅ m)).

Definition rewireUpper (projectInfo : ProjectInfo) (releaseParams : ReleaseRequestV2)
    (uppers : list string) : list ReleaseRequestV2 :=
  fold_left
    (fun affectReleases upperReleaseName =>
       match buildReleaseRequest projectInfo upperReleaseName with
       | None => affectReleases
       | Some upperRelease =>
           let upperRelease :=
             if negb (hasKey (rqDependencies upperRelease) (rqChartName releaseParams))
             then withRqDependencies upperRelease
                    (setKeyInit (rqDependencies upperRelease)
                       (rqChartName releaseParams) (rqName releaseParams))
             else upperRelease in
           affectReleases ++ [upperRelease]
       end)
    uppers [].

(** The down-stream loop, over the children as they are listed: of two
    live releases of one chart the one listed first is absorbed. *)
Definition absorbDown (projectInfo : ProjectInfo) (downs : list string)
    (releaseParams : ReleaseRequestV2) : ReleaseRequestV2 :=
  fold_left
    (fun releaseParams downReleaseName =>
       match buildReleaseRequest projectInfo downReleaseName with
       | None => releaseParams
       | Some downRelease =>
           if negb (hasKey (rqDependencies releaseParams) (rqChartName downRelease))
           then withRqDependencies releaseParams
                  (setKeyInit (rqDependencies releaseParams)
                     (rqChartName downRelease) (rqName downRelease))
           else releaseParams
       end)
    downs releaseParams.

Definition unwireUpper (projectInfo : ProjectInfo) (releaseParams : ReleaseRequestV2)
    (uppers : list string) : list ReleaseRequestV2 :=
  fold_left
    (fun affectReleases upperReleaseName =>
       match buildReleaseRequest projectInfo upperReleaseName with
       | None => affectReleases
       | Some upperRelease =>
           affectReleases ++
             [withRqDependencies upperRelease
                (DeleteReleaseDependency (rqDependencies upperRelease)
                   (rqChartName releaseParams))]
       end)
    uppers [].

(** The result is the affected list and the incoming release as the call
    leaves it (the add path writes into its dependencies map). *)
Definition brainFuckRuntimeDepParse (projectInfo : ProjectInfo)
    (releaseParams : ReleaseRequestV2) (isRemove : bool)
    : result (list ReleaseRequestV2 * ReleaseRequestV2) :=
  let g := runtimeGraph (piReleases projectInfo) in
  if negb isRemove then
    let g := Dag.Add (rqName releaseParams) g in
    match connectUpper releaseParams (piReleases projectInfo) g with
    | Ok g =>
        match autoDeps C (rqRepoName releaseParams) (rqChartName releaseParams)
                (rqChartVersion releaseParams) with
        | Ok releaseSubCharts =>
            let g := connectDown releaseParams (piReleases projectInfo) releaseSubCharts g in
            let affectReleases :=
              rewireUpper projectInfo releaseParams
                (listed (upOrder C) (Dag.UpEdges g (rqName releaseParams))) in
            Ok (affectReleases,
                absorbDown projectInfo
                  (listed (downOrder C) (Dag.DownEdges g (rqName releaseParams)))
                  releaseParams)
        | Err e => Err e
        | Panic => Panic
        end
    | Err e => Err e
    | Panic => Panic
    end
  else
    Ok (unwireUpper projectInfo releaseParams
          (listed (upOrder C) (Dag.UpEdges g (rqName releaseParams))),
        releaseParams).

End RuntimeResolver.

(** ** What the specification says, as predicates *)

(** "Derived from releases alone": an empty release set is not ready, with a
    fixed message; otherwise the project is ready iff every release is, and
    the message is the one of the first release that is not. *)
Definition derivedFromReleases (releases : list ReleaseInfoV2) (ready : bool)
    (message : string) : Prop :=
  (releases = [] -> ready = false /\ message = "no release can be found") /\
  (releases <> [] ->
     (ready = true <-> forall r, r ∈ releases -> riReady r = true) /\
     (forall pre r post,
        releases = pre ++ r :: post ->
        (forall r', r' ∈ pre -> riReady r' = true) ->
        riReady r = false ->
        message = riMessage r)).

(** The failure message as the specification spells it. *)
Definition specFailedMessage (sig : TaskSignature) (err : string) : string :=
  "the project latest task " +:+ sigName sig +:+ "-" +:+ sigUUID sig
    +:+ " failed: " +:+ err.

(** The project-info decision table, with the failure message a parameter. *)
Definition projectInfoTable (failedMsg : TaskSignature -> string -> string)
    (C : Collab) (projectCache : ProjectCache) (releases : list ReleaseInfoV2)
    (ready : bool) (message : string) : Prop :=
  match latestTaskState C projectCache with
  | None => derivedFromReleases releases ready message
  | Some ts =>
      (TaskName ts = "" -> derivedFromReleases releases ready message) /\
      (TaskName ts <> "" ->
         match State ts with
         | Success => derivedFromReleases releases ready message
         | Failure =>
             ready = false /\
             message = failedMsg (LatestTaskSignature projectCache) (TaskError ts)
         | Pending | Running =>
             ready = false /\
             message = waitMessage (LatestTaskSignature projectCache)
         end)
  end.

(** The upgrade row of the missing-cache table as the specification has it:
    a lookup that reports NotFound is not turned into a success. *)
Definition upgradeRejectsMissingProject (C : Collab) (namespace projectName : string)
    (releaseParams : ReleaseRequestV2) (async : bool) (timeoutSec : Z) (w : World) : Prop :=
  GetProjectCache C namespace projectName w = Err ErrNotFound ->
  returned (UpgradeReleaseInProject C namespace projectName releaseParams async timeoutSec w)
    <> None.

(** The chart-declared subchart relation of a bundle: release [p] declares
    release [q] when the chart of [p] lists the chart of [q] among its
    subcharts. *)
Definition declares (C : Collab) (releases : list ReleaseRequestV2) (p q : ptr) : Prop :=
  exists rp rq subCharts,
    releases !! p = Some rp /\ releases !! q = Some rq /\
    autoDeps C (rqRepoName rp) (rqChartName rp) (rqChartVersion rp) = Ok subCharts /\
    rqChartName rq ∈ subCharts.

(** The chart-declared relation is a DAG with a unique root. *)
Definition declaredDagWithRoot (C : Collab) (releases : list ReleaseRequestV2) : Prop :=
  (exists rank : ptr -> nat, forall p q, declares C releases p q -> (rank q < rank p)%nat) /\
  (exists root, (root < length releases)%nat /\
     forall p, (p < length releases)%nat ->
       (p = root <-> forall q, ~ declares C releases q p)).

(** The ordering property as the specification states it, for one returned
    store and pointer list: every release named among the values of a
    release's dependencies map comes earlier in the list. *)
Definition dependenciesFirst (heap : list ReleaseRequestV2) (out : list ptr) : Prop :=
  forall a b ra rb,
    a ∈ out -> b ∈ out ->
    heap !! a = Some ra -> heap !! b = Some rb ->
    rqName rb ∈ depValues (rqDependencies ra) ->
    Dag.before out b a.

(** The resolver property P3 as stated. *)
Definition chartParseOrdered (C : Collab) (sched : list ptr -> nat)
    (projectParams : ProjectParams) : Prop :=
  declaredDagWithRoot C (Releases projectParams) ->
  exists heap out,
    brainFuckChartDepParse C sched projectParams = Ok (heap, out) /\
    out ≡ₚ seq 0 (length (Releases projectParams)) /\
    dependenciesFirst heap out.

(** The add-path property P5 as stated, for one affected release. *)
Definition addAffectedAsStated (C : Collab) (projectInfo : ProjectInfo)
    (releaseParams : ReleaseRequestV2) (U : ReleaseRequestV2) : Prop :=
  exists info,
    info ∈ piReleases projectInfo /\ riName info = rqName U /\
    (exists subCharts,
       autoDeps C (riRepoName info) (riChartName info) (riChartVersion info) = Ok subCharts /\
       rqChartName releaseParams ∈ subCharts) /\
    hasKey (riDependencies info) (rqChartName releaseParams) = false /\
    getKey (rqDependencies U) (rqChartName releaseParams) = Some (rqName releaseParams).

(** The edges the chart-time resolver infers: release [a] gets child [b]
    when the chart of [a] lists a subchart [s], the bundle's release for
    chart [s] is [b], and [s] is not yet a key of the dependencies of [a]. *)
Definition inferred (C : Collab) (releases : list ReleaseRequestV2) (a b : ptr) : Prop :=
  exists ra subCharts s,
    releases !! a = Some ra /\
    autoDeps C (rqRepoName ra) (rqChartName ra) (rqChartVersion ra) = Ok subCharts /\
    s ∈ subCharts /\
    chartIndex releases !! s = Some b /\
    hasKey (rqDependencies ra) s = false.

(** The chart runtime answers for every release of the bundle. *)
Definition chartsKnown (C : Collab) (releases : list ReleaseRequestV2) : Prop :=
  forall r, r ∈ releases ->
    exists subCharts,
      autoDeps C (rqRepoName r) (rqChartName r) (rqChartVersion r) = Ok subCharts.

(** A release that acquires an inferred child while its dependencies map is
    nil: the walk callback writes into that map. *)
Definition nilParent (releases : list ReleaseRequestV2) (g : Dag.AcyclicGraph ptr)
    (v : ptr) : bool :=
  match releases !! v with
  | Some r =>
      bool_decide (Dag.DownEdges g v <> []) && bool_decide (rqDependencies r = None)
  | None => false
  end.

(** What holds of the store and of [releaseParsed] while the walk runs, the
    vertices in [done] having been visited (latest first): the list is the
    visits in order; every release keeps its name and chart; a release not
    yet visited is as it was given; a visited one maps the chart of each of
    its children to that child's name; and children come before parents. *)
Definition walkInv (releases : list ReleaseRequestV2) (g : Dag.AcyclicGraph ptr)
    (done : list ptr) (s : list ReleaseRequestV2 * list ptr) : Prop :=
  s.2 = rev done /\
  length s.1 = length releases /\
  (forall p r0,
     releases !! p = Some r0 ->
     exists r,
       s.1 !! p = Some r /\ rqName r = rqName r0 /\ rqChartName r = rqChartName r0 /\
       (p ∉ done -> r = r0) /\
       (p ∈ done ->
        forall c, (p, c) ∈ Dag.edges g ->
          exists rc, releases !! c = Some rc /\
                     getKey (rqDependencies r) (rqChartName rc) = Some (rqName rc))) /\
  (forall a b, (a, b) ∈ Dag.edges g -> a ∈ done -> Dag.before (rev done) b a).

(** The chart runtime answers for every live release and for the incoming
    one. *)
Definition runtimeKnown (C : Collab) (projectInfo : ProjectInfo) (releaseParams : ReleaseRequestV2) : Prop :=
  (forall info, info ∈ piReleases projectInfo ->
     exists subCharts,
       autoDeps C (riRepoName info) (riChartName info) (riChartVersion info) = Ok subCharts) /\
  (exists subCharts,
     autoDeps C (rqRepoName releaseParams) (rqChartName releaseParams)
       (rqChartVersion releaseParams) = Ok subCharts).

(** ** Scenarios *)

Module Scenario.

Definition sig0 : TaskSignature := {| sigName := "create-project"; sigUUID := "u-1" |}.
Definition sig1 : TaskSignature := {| sigName := "create-project"; sigUUID := "u-2" |}.

(** A collaborator set without faults: the latest task is finished or not as
    [fin] says, the project has the releases [rels], the chart runtime
    answers [subs] and the latest task state is [ts]. *)
Definition quiet (fin : bool) (rels : list ReleaseInfoV2) (subs : string -> list string)
    (ts : option WalmTaskState) : Collab :=
  {| getFault := fun _ _ => None;
     putFault := fun _ => None;
     finishedOrTimeout := fun _ => fin;
     latestTaskState := fun _ => ts;
     listReleases := fun _ _ => Ok rels;
     autoDeps := fun _ chart _ => Ok (subs chart);
     send := fun _ => Ok sig1;
     purgeFault := fun _ => None;
     await := fun _ _ => None;
     upOrder := fun l => l;
     downOrder := fun l => l |}.

Definition noSubs : string -> list string := fun _ => [].

Definition request (name chart : string) (deps : option (gmap string string))
    : ReleaseRequestV2 :=
  {| rqName := name; rqRepoName := "stable"; rqChartName := chart;
     rqChartVersion := "1.0"; rqDependencies := deps |}.

Definition live (name chart : string) (deps : option (gmap string string))
    : ReleaseInfoV2 :=
  {| riName := name; riRepoName := "stable"; riChartName := chart;
     riChartVersion := "1.0"; riDependencies := deps; riReady := true; riMessage := "" |}.

Definition emptyWorld : World :=
  {| caches := ∅; cacheWrites := []; submitted := []; purged := [] |}.

Definition cacheP1 : ProjectCache :=
  {| pcNamespace := "t1"; pcName := "p1"; LatestTaskSignature := sig0;
     LatestTaskTimeoutSec := 60 |}.

(** A world where project t1/p1 exists. *)
Definition worldP1 : World :=
  {| caches := {[ ("t1", "p1") := cacheP1 ]}; cacheWrites := []; submitted := [];
     purged := [] |}.

(** The bundle of scenario S1. *)
Definition paramsS1 : ProjectParams :=
  {| Releases := [request "a" "zk" None;
                  request "b" "kafka" (Some {[ "zk" := "a" ]})] |}.

Definition failedTask : WalmTaskState :=
  {| TaskUUID := "u-1"; TaskName := "create-project"; TaskError := "kubelet EOF";
     CreatedAt := 0; State := Failure |}.

Definition infoOf (rels : list ReleaseInfoV2) : ProjectInfo :=
  {| piProjectCache := cacheP1; piReleases := rels; piLatestTaskState := None;
     piReady := true; piMessage := "" |}.

(** Chart x declares subchart y (scenario S5). *)
Definition subsS5 (chart : string) : list string :=
  if String.eqb chart "x" then ["y"] else [].

Definition firstReady : list ptr -> nat := fun _ => 0%nat.

Definition paramsS5 : ProjectParams :=
  {| Releases := [request "x" "x" (Some ∅); request "y" "y" (Some ∅)] |}.

(** The same bundle with the dependencies maps left nil. *)
Definition paramsS5nil : ProjectParams :=
  {| Releases := [request "x" "x" None; request "y" "y" None] |}.

(** Chart r declares subchart a; release a was wired to release r by hand. *)
Definition subsRA (chart : string) : list string :=
  if String.eqb chart "r" then ["a"] else [].

Definition paramsRA : ProjectParams :=
  {| Releases := [request "r" "r" (Some ∅);
                  request "a" "a" (Some {[ "r" := "r" ]})] |}.

(** A live project: release a of chart zk, release b of chart kafka wired to
    a (scenario S4). *)
Definition projectS4 : ProjectInfo :=
  infoOf [live "a" "zk" None; live "b" "kafka" (Some {[ "zk" := "a" ]})].

(** A live project: release hive whose chart declares subchart hdfs
    (scenario S3). *)
Definition subsS3 (chart : string) : list string :=
  if String.eqb chart "hive" then ["hdfs"] else [].

Definition projectS3 : ProjectInfo := infoOf [live "hive" "hive" None].

(** Chart kafka declares subchart zk. *)
Definition subsKafka (chart : string) : list string :=
  if String.eqb chart "kafka" then ["zk"] else [].

End Scenario.

(** ** Further operations and vocabulary *)


(** The argument record an operation hands to the broker. *)
Definition taskOf (op : Operation) : TaskArgs :=
  match op with
  | OpCreate ns p pp _ _ => CreateProjectTaskArgs p ns pp
  | OpDelete ns p _ _ d => DeleteProjectTaskArgs p ns d
  | OpAddReleases ns p pp _ _ => AddReleaseTaskArgs ns p pp
  | OpUpgrade ns p r _ _ => UpgradeReleaseTaskArgs ns p r
  | OpRemove ns p r _ _ d => RemoveReleaseTaskArgs ns p r d
  end.

Definition opAsync (op : Operation) : bool :=
  match op with
  | OpCreate _ _ _ a _ | OpDelete _ _ a _ _ | OpAddReleases _ _ _ a _
  | OpUpgrade _ _ _ a _ | OpRemove _ _ _ a _ _ => a
  end.

(** The timeout an operation works with: the caller's, or the default when
    the caller passes zero. *)
Definition effectiveTimeout (op : Operation) : Z :=
  if Z.eqb (opTimeout op) 0 then defaultTimeoutSec else opTimeout op.

(** The cache entry an operation writes once the broker has issued [sig]. *)
Definition entryOf (op : Operation) (sig : TaskSignature) : ProjectCache :=
  {| pcNamespace := opNamespace op; pcName := opProject op;
     LatestTaskSignature := sig; LatestTaskTimeoutSec := effectiveTimeout op |}.

(** Create and add-releases accept a project that has no cache yet. *)
Definition opAllowsMissing (op : Operation) : bool :=
  match op with
  | OpCreate _ _ _ _ _ | OpAddReleases _ _ _ _ _ => true
  | _ => false
  end.

(** The release that upgrade and remove look for in the project. *)
Definition opTarget (op : Operation) : option string :=
  match op with
  | OpUpgrade _ _ r _ _ => Some (rqName r)
  | OpRemove _ _ r _ _ _ => Some r
  | _ => None
  end.

(** The world after a submission that was not followed by a cache write. *)
Definition orphaned (w : World) (task : TaskArgs) : World :=
  {| caches := caches w; cacheWrites := cacheWrites w;
     submitted := submitted w ++ [task]; purged := purged w |}.

(** The same collaborators, except for the answers to [PurgeTaskState]. *)
Definition withPurgeFault (C : Collab) (f : TaskSignature -> option string) : Collab :=
  {| getFault := getFault C; putFault := putFault C;
     finishedOrTimeout := finishedOrTimeout C; latestTaskState := latestTaskState C;
     listReleases := listReleases C; autoDeps := autoDeps C; send := send C;
     purgeFault := f; await := await C;
     upOrder := upOrder C; downOrder := downOrder C |}.

(** What the chart-time walk keeps true of the store, whatever has been
    visited: every release keeps its identity, every entry it was given, and
    every other entry maps the chart of one of its children to that child. *)
Definition augmented (releases : list ReleaseRequestV2) (g : Dag.AcyclicGraph ptr)
    (s : list ReleaseRequestV2 * list ptr) : Prop :=
  length s.1 = length releases /\
  forall p r0,
    releases !! p = Some r0 ->
    exists r,
      s.1 !! p = Some r /\
      rqName r = rqName r0 /\ rqChartName r = rqChartName r0 /\
      rqRepoName r = rqRepoName r0 /\ rqChartVersion r = rqChartVersion r0 /\
      (rqDependencies r0 <> None -> rqDependencies r <> None) /\
      (forall k v, getKey (rqDependencies r0) k = Some v ->
                   getKey (rqDependencies r) k = Some v) /\
      (forall k v, getKey (rqDependencies r) k = Some v ->
                   getKey (rqDependencies r0) k = Some v \/
                   exists b rb, (p, b) ∈ Dag.edges g /\ releases !! b = Some rb /\
                                k = rqChartName rb /\ v = rqName rb).

(** The position of the first occurrence of [v] in [l]. *)
Fixpoint position (v : nat) (l : list nat) : nat :=
  match l with
  | [] => O
  | x :: rest => if decide (x = v) then O else Datatypes.S (position v rest)
  end.

Module Scenario2.

(** A store that accepts nothing. *)
Definition storeDown (C : Collab) (msg : string) : Collab :=
  {| getFault := getFault C; putFault := fun _ => Some msg;
     finishedOrTimeout := finishedOrTimeout C; latestTaskState := latestTaskState C;
     listReleases := listReleases C; autoDeps := autoDeps C; send := send C;
     purgeFault := purgeFault C; await := await C;
     upOrder := upOrder C; downOrder := downOrder C |}.

(** A store that cannot be read. *)
Definition storeUnreadable (C : Collab) (msg : string) : Collab :=
  {| getFault := fun _ _ => Some msg; putFault := putFault C;
     finishedOrTimeout := finishedOrTimeout C; latestTaskState := latestTaskState C;
     listReleases := listReleases C; autoDeps := autoDeps C; send := send C;
     purgeFault := purgeFault C; await := await C;
     upOrder := upOrder C; downOrder := downOrder C |}.

(** A chart runtime that does not know chart y. *)
Definition chartsBroken : Collab :=
  {| getFault := fun _ _ => None; putFault := fun _ => None;
     finishedOrTimeout := fun _ => true; latestTaskState := fun _ => None;
     listReleases := fun _ _ => Ok [];
     autoDeps := fun _ chart _ =>
                   if String.eqb chart "y" then Err (ErrExternal "chart y not found")
                   else Ok [];
     send := fun _ => Ok Scenario.sig1;
     purgeFault := fun _ => None; await := fun _ _ => None;
     upOrder := fun l => l; downOrder := fun l => l |}.

Definition createS1 : Operation := OpCreate "t1" "p1" Scenario.paramsS1 true 0.

(** The same collaborators, the graph package listing sets in other orders. *)
Definition ordered (C : Collab) (up down : list string -> list string) : Collab :=
  {| getFault := getFault C; putFault := putFault C;
     finishedOrTimeout := finishedOrTimeout C; latestTaskState := latestTaskState C;
     listReleases := listReleases C; autoDeps := autoDeps C; send := send C;
     purgeFault := purgeFault C; await := await C;
     upOrder := up; downOrder := down |}.



(** A live project with two releases of chart zk. *)
Definition projectTwoZk : ProjectInfo :=
  Scenario.infoOf [Scenario.live "z1" "zk" None; Scenario.live "z2" "zk" None].

(** A live project where b and c are both wired to a. *)
Definition projectTwoParents : ProjectInfo :=
  Scenario.infoOf [Scenario.live "a" "zk" None;
                   Scenario.live "b" "kafka" (Some {[ "zk" := "a" ]});
                   Scenario.live "c" "hive" (Some {[ "zk" := "a" ]})].

End Scenario2.

Ltac split_run := repeat (case_match; simplify_eq/=).

(** ** Properties of the project manager *)

Section ManagerFacts.

Variable C : Collab.

Lemma validate_not_found (namespace name : string) (w : World) :
  GetProjectCache C namespace name w = Err ErrNotFound ->
  validateProjectTask C namespace name false w = Err ErrNotFound /\
  validateProjectTask C namespace name true w = Ok None.
Proof.
  intros H. unfold validateProjectTask. rewrite H. simpl. split; reflexivity.
Qed.

Lemma validate_busy (namespace name : string) (allow : bool) (w : World) (c : ProjectCache) :
  GetProjectCache C namespace name w = Ok c ->
  finishedOrTimeout C c = false ->
  validateProjectTask C namespace name allow w
    = Err (ErrNew (busyMessage (LatestTaskSignature c))).
Proof.
  intros H Hf. unfold validateProjectTask. rewrite H, Hf. reflexivity.
Qed.

Lemma validate_free (namespace name : string) (allow : bool) (w : World) (c : ProjectCache) :
  GetProjectCache C namespace name w = Ok c ->
  finishedOrTimeout C c = true ->
  validateProjectTask C namespace name allow w = Ok (Some c).
Proof.
  intros H Hf. unfold validateProjectTask. rewrite H, Hf. reflexivity.
Qed.

Lemma GetProjectCache_not_ErrNew (namespace name : string) (w : World) (msg : string) :
  GetProjectCache C namespace name w <> Err (ErrNew msg).
Proof.
  unfold GetProjectCache.
  destruct (getFault C namespace name); [discriminate |].
  destruct (caches w !! (namespace, name)); discriminate.
Qed.

Lemma validate_busy_iff (namespace name : string) (allow : bool) (w : World) (msg : string) :
  validateProjectTask C namespace name allow w = Err (ErrNew msg) <->
  exists c, GetProjectCache C namespace name w = Ok c /\
            finishedOrTimeout C c = false /\
            msg = busyMessage (LatestTaskSignature c).
Proof.
  split.
  - unfold validateProjectTask.
    destruct (GetProjectCache C namespace name w) as [c | e |] eqn:Hg.
    + destruct (finishedOrTimeout C c) eqn:Hf; simpl; [discriminate |].
      intros [= <-]. exists c. auto.
    + destruct e; simpl; try discriminate.
      * destruct allow; discriminate.
      * intros [= ->]. exfalso. eapply GetProjectCache_not_ErrNew; eauto.
    + discriminate.
  - intros (c & Hg & Hf & ->). apply validate_busy; assumption.
Qed.

End ManagerFacts.

(** C1: for each of the five mutating operations, single-flight validation
    fails with the ProjectBusy error, whose message is "please wait for the
    project latest task <name>-<uuid> finished or timeout" built from the
    cached signature, iff the lookup yields a project cache whose latest task
    is neither finished nor timed out; in that case the operation leaves the
    world as it was: no task is submitted and no cache entry is written. *)
Theorem single_flight_busy (C : Collab) (op : Operation) (w : World) :
  (forall allow msg,
     validateProjectTask C (opNamespace op) (opProject op) allow w = Err (ErrNew msg) <->
     exists c, GetProjectCache C (opNamespace op) (opProject op) w = Ok c /\
               finishedOrTimeout C c = false /\
               msg = "please wait for the project latest task "
                       +:+ sigName (LatestTaskSignature c) +:+ "-"
                       +:+ sigUUID (LatestTaskSignature c) +:+ " finished or timeout") /\
  (forall c,
     GetProjectCache C (opNamespace op) (opProject op) w = Ok c ->
     finishedOrTimeout C c = false ->
     fst (runOp C op w) = w /\
     submitted (fst (runOp C op w)) = submitted w /\
     cacheWrites (fst (runOp C op w)) = cacheWrites w /\
     returned (runOp C op w) =
       Some (if opEmptyBundle op
             then ErrNew "project releases can not be empty"
             else ErrNew (busyMessage (LatestTaskSignature c)))).
Proof.
  split.
  - intros allow msg. apply validate_busy_iff.
  - intros c Hg Hf.
    assert (Hv : forall allow,
               validateProjectTask C (opNamespace op) (opProject op) allow w
               = Err (ErrNew (busyMessage (LatestTaskSignature c))))
      by (intros; apply validate_busy; assumption).
    assert (Hw : fst (runOp C op w) = w /\
                 returned (runOp C op w) =
                   Some (if opEmptyBundle op
                         then ErrNew "project releases can not be empty"
                         else ErrNew (busyMessage (LatestTaskSignature c)))).
    { destruct op; simpl in *.
      - unfold CreateProject.
        destruct (Nat.eqb (length (Releases projectParams)) 0); [split; reflexivity |].
        unfold bind, validate. rewrite Hv. split; reflexivity.
      - unfold DeleteProject. rewrite Hv. split; reflexivity.
      - unfold AddReleasesInProject.
        destruct (Nat.eqb (length (Releases projectParams)) 0); [split; reflexivity |].
        unfold bind, validate. rewrite Hv. split; reflexivity.
      - unfold UpgradeReleaseInProject. rewrite Hv. split; reflexivity.
      - unfold RemoveReleaseInProject. rewrite Hv. split; reflexivity. }
    destruct Hw as [Hw Hr]. rewrite Hw. auto.
Qed.

Lemma single_flight_busy_witness :
  fst (runOp (Scenario.quiet false [] Scenario.noSubs None)
         (OpCreate "t1" "p1" Scenario.paramsS1 true 0) Scenario.worldP1)
    = Scenario.worldP1 /\
  returned (runOp (Scenario.quiet false [] Scenario.noSubs None)
              (OpCreate "t1" "p1" Scenario.paramsS1 true 0) Scenario.worldP1)
    = Some (ErrNew "please wait for the project latest task create-project-u-1 finished or timeout").
Proof.
  pose proof (proj2 (single_flight_busy (Scenario.quiet false [] Scenario.noSubs None)
                       (OpCreate "t1" "p1" Scenario.paramsS1 true 0) Scenario.worldP1)
                Scenario.cacheP1) as H.
  destruct H as (H1 & _ & _ & H4); [vm_compute; reflexivity | reflexivity |].
  split; [exact H1 | exact H4].
Defined.

(** C6, as stated, fails: with no cache for the project the lookup reports
    NotFound and UpgradeReleaseInProject returns nil. *)
Lemma upgrade_missing_project_counterexample :
  ~ upgradeRejectsMissingProject (Scenario.quiet true [] Scenario.noSubs None)
      "t1" "p1" (Scenario.request "a" "zk" None) true 0 Scenario.emptyWorld.
Proof.
  unfold upgradeRejectsMissingProject. intros H. apply H; reflexivity.
Qed.

(** C6, amended: when the cache lookup reports NotFound, all three of
    DeleteProject, RemoveReleaseInProject and UpgradeReleaseInProject swallow
    the error: each returns nil and leaves the world as it was (no task, no
    cache write). *)
Theorem not_found_swallowed (C : Collab) (namespace projectName releaseName : string)
    (releaseParams : ReleaseRequestV2) (async deletePvcs : bool) (timeoutSec : Z) (w : World) :
  GetProjectCache C namespace projectName w = Err ErrNotFound ->
  UpgradeReleaseInProject C namespace projectName releaseParams async timeoutSec w
    = (w, Ok tt) /\
  DeleteProject C namespace projectName async timeoutSec deletePvcs w = (w, Ok tt) /\
  RemoveReleaseInProject C namespace projectName releaseName async timeoutSec deletePvcs w
    = (w, Ok tt).
Proof.
  intros H. destruct (validate_not_found C _ _ _ H) as [Hv _].
  unfold UpgradeReleaseInProject, DeleteProject, RemoveReleaseInProject.
  rewrite Hv. simpl. auto.
Qed.

Lemma not_found_swallowed_witness :
  UpgradeReleaseInProject (Scenario.quiet true [] Scenario.noSubs None)
    "t1" "p1" (Scenario.request "a" "zk" None) true 0 Scenario.emptyWorld
    = (Scenario.emptyWorld, Ok tt).
Proof.
  apply (not_found_swallowed (Scenario.quiet true [] Scenario.noSubs None)
           "t1" "p1" "a" (Scenario.request "a" "zk" None) true false 0 Scenario.emptyWorld).
  reflexivity.
Defined.

(** C7: DeleteProject on a project for which the store reports no cache
    returns nil, submits no delete task and writes no cache entry. *)
Theorem delete_missing_project (C : Collab) (namespace project : string)
    (async deletePvcs : bool) (timeoutSec : Z) (w : World) :
  GetProjectCache C namespace project w = Err ErrNotFound ->
  let r := DeleteProject C namespace project async timeoutSec deletePvcs w in
  returned r = None /\ panicked r = false /\
  submitted (fst r) = submitted w /\
  cacheWrites (fst r) = cacheWrites w /\
  caches (fst r) = caches w.
Proof.
  intros H. destruct (validate_not_found C _ _ _ H) as [Hv _].
  unfold DeleteProject. rewrite Hv. simpl. auto.
Qed.

Lemma delete_missing_project_witness :
  returned (DeleteProject (Scenario.quiet true [] Scenario.noSubs None)
              "t1" "ghost" false 0 true Scenario.worldP1) = None.
Proof.
  apply (delete_missing_project (Scenario.quiet true [] Scenario.noSubs None)
           "t1" "ghost" false true 0 Scenario.worldP1).
  vm_compute. reflexivity.
Defined.

Lemma releaseExists_false (releases : list ReleaseInfoV2) (name : string) :
  (forall r, r ∈ releases -> riName r <> name) ->
  releaseExistsInProject releases name = false.
Proof.
  intros H. unfold releaseExistsInProject.
  induction releases as [| r rest IH]; [reflexivity |].
  simpl. destruct (String.eqb (riName r) name) eqn:E.
  - apply String.eqb_eq in E. exfalso. eapply H; [left | exact E].
  - simpl. apply IH. intros r' Hr'. apply H. right. exact Hr'.
Qed.

(** C8: once single-flight validation has succeeded, upgrade and remove
    build the project info and look for the named release among its
    releases.  When it is absent, UpgradeReleaseInProject fails with
    "release <r> is not found in project <p>" and RemoveReleaseInProject
    returns nil; neither submits a task (the world is left as it was). *)
Theorem release_absent_precheck (C : Collab) (namespace projectName releaseName : string)
    (releaseParams : ReleaseRequestV2) (async deletePvcs : bool) (timeoutSec : Z)
    (w : World) (c : ProjectCache) (releases : list ReleaseInfoV2) :
  validateProjectTask C namespace projectName false w = Ok (Some c) ->
  listReleases C (pcNamespace c) (pcName c) = Ok releases ->
  (forall r, r ∈ releases -> riName r <> rqName releaseParams) ->
  (forall r, r ∈ releases -> riName r <> releaseName) ->
  UpgradeReleaseInProject C namespace projectName releaseParams async timeoutSec w
    = (w, Err (ErrNew ("release " +:+ rqName releaseParams
                         +:+ " is not found in project " +:+ projectName))) /\
  RemoveReleaseInProject C namespace projectName releaseName async timeoutSec deletePvcs w
    = (w, Ok tt).
Proof.
  intros Hv Hl Hu Hr.
  unfold UpgradeReleaseInProject, RemoveReleaseInProject.
  rewrite Hv. unfold buildProjectInfoOf, buildProjectInfo. rewrite Hl.
  split.
  - match goal with
    | |- context [let '(_, _) := ?x in _] => destruct x
    end.
    simpl. rewrite (releaseExists_false _ _ Hu). reflexivity.
  - match goal with
    | |- context [let '(_, _) := ?x in _] => destruct x
    end.
    simpl. rewrite (releaseExists_false _ _ Hr). reflexivity.
Qed.

Lemma release_absent_precheck_witness :
  UpgradeReleaseInProject
    (Scenario.quiet true [Scenario.live "a" "zk" None] Scenario.noSubs None)
    "t1" "p1" (Scenario.request "c" "hdfs" None) true 0 Scenario.worldP1
    = (Scenario.worldP1, Err (ErrNew "release c is not found in project p1")) /\
  RemoveReleaseInProject
    (Scenario.quiet true [Scenario.live "a" "zk" None] Scenario.noSubs None)
    "t1" "p1" "c" true 0 false Scenario.worldP1
    = (Scenario.worldP1, Ok tt).
Proof.
  apply (release_absent_precheck
           (Scenario.quiet true [Scenario.live "a" "zk" None] Scenario.noSubs None)
           "t1" "p1" "c" (Scenario.request "c" "hdfs" None) true false 0
           Scenario.worldP1 Scenario.cacheP1 [Scenario.live "a" "zk" None]).
  - vm_compute. reflexivity.
  - reflexivity.
  - intros r Hr. apply list_elem_of_singleton in Hr. subst r. simpl. discriminate.
  - intros r Hr. apply list_elem_of_singleton in Hr. subst r. simpl. discriminate.
Defined.

Lemma eqb_length_nonempty {A} (l : list A) :
  l <> [] -> Nat.eqb (length l) 0 = false.
Proof. destruct l; [congruence | reflexivity]. Qed.

(** ** Properties of the project-info projection *)

Lemma firstNotReady_None (releases : list ReleaseInfoV2) :
  firstNotReady releases = None <-> forall r, r ∈ releases -> riReady r = true.
Proof.
  induction releases as [| r rest IH]; simpl.
  - split; [intros _ r Hr; inversion Hr | reflexivity].
  - destruct (riReady r) eqn:E.
    + rewrite IH. split.
      * intros H r' Hr'. apply elem_of_cons in Hr' as [-> | Hr']; auto.
      * intros H r' Hr'. apply H. right. exact Hr'.
    + split; [discriminate |].
      intros H. specialize (H r (list_elem_of_here _ _)). congruence.
Qed.

Lemma firstNotReady_first (pre post : list ReleaseInfoV2) (r : ReleaseInfoV2) :
  (forall r', r' ∈ pre -> riReady r' = true) ->
  riReady r = false ->
  firstNotReady (pre ++ r :: post) = Some r.
Proof.
  intros Hpre Hr. induction pre as [| p pre IH]; simpl.
  - rewrite Hr. reflexivity.
  - rewrite (Hpre p (list_elem_of_here _ _)). apply IH.
    intros r' Hr'. apply Hpre. right. exact Hr'.
Qed.

Lemma isProjectReadyByReleases_derived (releases : list ReleaseInfoV2) :
  derivedFromReleases releases (isProjectReadyByReleases releases).1
    (isProjectReadyByReleases releases).2.
Proof.
  split.
  - intros ->. split; reflexivity.
  - intros Hne. destruct releases as [| r0 rest]; [congruence |].
    unfold isProjectReadyByReleases.
    destruct (firstNotReady (r0 :: rest)) as [r |] eqn:E.
    + split.
      * split; [discriminate |].
        intros Hall. apply firstNotReady_None in Hall. congruence.
      * intros pre r' post Heq Hpre Hr'. simpl.
        rewrite Heq in E. rewrite (firstNotReady_first _ _ _ Hpre Hr') in E.
        congruence.
    + split.
      * split; [intros _; apply firstNotReady_None; exact E | reflexivity].
      * intros pre r' post Heq Hpre Hr'.
        rewrite Heq in E. rewrite (firstNotReady_first _ _ _ Hpre Hr') in E.
        discriminate.
Qed.

(** C3, as stated, fails on the failure row: the message the code builds
    reads "failed : <err>", with a space before the colon, not
    "failed: <err>". *)
Lemma project_info_table_counterexample :
  exists info,
    buildProjectInfo (Scenario.quiet true [] Scenario.noSubs (Some Scenario.failedTask))
      Scenario.cacheP1 = Ok info /\
    piMessage info = "the project latest task create-project-u-1 failed : kubelet EOF" /\
    ~ projectInfoTable specFailedMessage
        (Scenario.quiet true [] Scenario.noSubs (Some Scenario.failedTask))
        Scenario.cacheP1 (piReleases info) (piReady info) (piMessage info).
Proof.
  eexists. split; [reflexivity |]. split; [reflexivity |].
  unfold projectInfoTable. simpl. intros [_ H].
  destruct H as [_ H]; [discriminate |]. discriminate H.
Qed.

(** C3, amended: when the release listing succeeds, buildProjectInfo
    computes (ready, message) by the decision table: a nil, unnamed or
    successful latest task state gives the result derived from the releases
    alone (empty set: not ready, "no release can be found"; otherwise ready
    iff every release is ready, the message copied from the first release
    that is not); a named failed task gives ready=false and the message
    "the project latest task <name>-<uuid> failed : <err>", whatever the
    releases are; a named task still in progress gives ready=false and
    "please wait for the project latest task <name>-<uuid> finished". *)
Theorem project_info_table (C : Collab) (projectCache : ProjectCache)
    (releases : list ReleaseInfoV2) :
  listReleases C (pcNamespace projectCache) (pcName projectCache) = Ok releases ->
  exists info,
    buildProjectInfo C projectCache = Ok info /\
    piReleases info = releases /\
    projectInfoTable
      (fun sig err =>
         "the project latest task " +:+ sigName sig +:+ "-" +:+ sigUUID sig
           +:+ " failed : " +:+ err)
      C projectCache releases (piReady info) (piMessage info).
Proof.
  intros Hl. unfold buildProjectInfo. rewrite Hl.
  pose proof (isProjectReadyByReleases_derived releases) as Hd.
  unfold projectInfoTable.
  destruct (latestTaskState C projectCache) as [ts |].
  - destruct (String.eqb (TaskName ts) "") eqn:En.
    + apply String.eqb_eq in En.
      destruct (isProjectReadyByReleases releases) as [ready message].
      eexists. split; [reflexivity |]. split; [reflexivity |]. simpl.
      split; [intros _; exact Hd | congruence].
    + apply String.eqb_neq in En.
      unfold IsSuccess, IsFailure.
      destruct (State ts);
        try destruct (isProjectReadyByReleases releases) as [ready message];
        (eexists; split; [reflexivity |]; split; [reflexivity |]; simpl;
         split; [congruence | intros _; auto]).
  - destruct (isProjectReadyByReleases releases) as [ready message].
    eexists. split; [reflexivity |]. split; [reflexivity |]. exact Hd.
Qed.

Lemma project_info_table_witness :
  exists info,
    buildProjectInfo
      (Scenario.quiet true [Scenario.live "a" "zk" None] Scenario.noSubs
         (Some Scenario.failedTask)) Scenario.cacheP1 = Ok info /\
    piReady info = false /\
    piMessage info = "the project latest task create-project-u-1 failed : kubelet EOF".
Proof.
  destruct (project_info_table
              (Scenario.quiet true [Scenario.live "a" "zk" None] Scenario.noSubs
                 (Some Scenario.failedTask))
              Scenario.cacheP1 [Scenario.live "a" "zk" None])
    as (info & Hb & _ & Ht); [reflexivity |].
  exists info. split; [exact Hb |].
  destruct Ht as [_ Ht]. destruct Ht as [Hr Hm]; [discriminate |].
  split; [exact Hr | exact Hm].
Defined.

(** ** Facts about the graph package *)

Section DagFacts.

Context {V : Type} `{EqDecision V}.
Implicit Types (g : Dag.AcyclicGraph V) (v : V) (e : V * V).

Lemma vertices_Connect e g : Dag.vertices (Dag.Connect e g) = Dag.vertices g.
Proof. unfold Dag.Connect. case_bool_decide; reflexivity. Qed.

Lemma edges_Add v g : Dag.edges (Dag.Add v g) = Dag.edges g.
Proof. unfold Dag.Add. case_bool_decide; reflexivity. Qed.

Lemma elem_of_edges_Connect e e' g :
  e' ∈ Dag.edges (Dag.Connect e g) <-> e' = e \/ e' ∈ Dag.edges g.
Proof.
  unfold Dag.Connect. case_bool_decide as Hin; simpl.
  - split; [auto | intros [-> | ?]; assumption].
  - rewrite elem_of_app, list_elem_of_singleton. tauto.
Qed.

Lemma elem_of_vertices_Add v v' g :
  v' ∈ Dag.vertices (Dag.Add v g) <-> v' = v \/ v' ∈ Dag.vertices g.
Proof.
  unfold Dag.Add. case_bool_decide as Hin; simpl.
  - split; [auto | intros [-> | ?]; assumption].
  - rewrite elem_of_app, list_elem_of_singleton. tauto.
Qed.

Lemma elem_of_DownEdges g v c :
  c ∈ Dag.DownEdges g v <-> (v, c) ∈ Dag.edges g.
Proof.
  unfold Dag.DownEdges. rewrite list_elem_of_fmap. split.
  - intros ([a b] & -> & Hin). apply list_elem_of_filter in Hin as [Ha Hin].
    simpl in *. subst a. exact Hin.
  - intros Hin. exists (v, c). split; [reflexivity |].
    apply list_elem_of_filter. split; [reflexivity | exact Hin].
Qed.

Lemma elem_of_UpEdges g v p :
  p ∈ Dag.UpEdges g v <-> (p, v) ∈ Dag.edges g.
Proof.
  unfold Dag.UpEdges. rewrite list_elem_of_fmap. split.
  - intros ([a b] & -> & Hin). apply list_elem_of_filter in Hin as [Ha Hin].
    simpl in *. subst b. exact Hin.
  - intros Hin. exists (p, v). split; [reflexivity |].
    apply list_elem_of_filter. split; [reflexivity | exact Hin].
Qed.

Lemma ready_spec g done v :
  Dag.ready g done v = true <-> forall c, (v, c) ∈ Dag.edges g -> c ∈ done.
Proof.
  unfold Dag.ready. rewrite forallb_forall. split.
  - intros H c Hc. apply elem_of_DownEdges in Hc.
    apply list_elem_of_In in Hc. apply H in Hc. apply bool_decide_eq_true in Hc. exact Hc.
  - intros H c Hc. apply list_elem_of_In in Hc. apply bool_decide_eq_true.
    apply H. apply elem_of_DownEdges. exact Hc.
Qed.

Lemma isRoot_spec g v :
  Dag.isRoot g v = true <-> forall p, (p, v) ∈ Dag.edges g -> False.
Proof.
  unfold Dag.isRoot. rewrite bool_decide_eq_true. split.
  - intros H p Hp. apply elem_of_UpEdges in Hp. rewrite H in Hp. inversion Hp.
  - intros H. destruct (Dag.UpEdges g v) as [| p ps] eqn:E; [reflexivity |].
    exfalso. apply (H p). apply elem_of_UpEdges. rewrite E. left.
Qed.

(** A list without duplicates whose only possible member is [x], and which
    has it, is [[x]]. *)
Lemma NoDup_only (l : list V) (x : V) :
  NoDup l -> x ∈ l -> (forall y, y ∈ l -> y = x) -> l = [x].
Proof.
  intros Hnd Hx Hall. destruct l as [| a l]; [inversion Hx |].
  assert (a = x) by (apply Hall; left). subst a.
  destruct l as [| b l]; [reflexivity |].
  assert (b = x) by (apply Hall; right; left). subst b.
  apply NoDup_cons in Hnd as [Hnd _]. exfalso. apply Hnd. left.
Qed.

Lemma Root_unique g (root : V) :
  NoDup (Dag.vertices g) ->
  root ∈ Dag.vertices g ->
  (forall p, p ∈ Dag.vertices g ->
     (p = root <-> forall q, (q, p) ∈ Dag.edges g -> False)) ->
  Dag.Root g = Ok root.
Proof.
  intros Hnd Hin Hroot. unfold Dag.Root.
  rewrite (NoDup_only (filter (fun v => Dag.isRoot g v = true) (Dag.vertices g)) root).
  - reflexivity.
  - apply NoDup_filter. exact Hnd.
  - apply list_elem_of_filter. split; [| exact Hin].
    apply isRoot_spec. apply (Hroot root Hin). reflexivity.
  - intros y Hy. apply list_elem_of_filter in Hy as [Hy Hyin].
    apply (Hroot y Hyin). apply isRoot_spec. exact Hy.
Qed.

Lemma min_rank (rank : V -> nat) (l : list V) :
  l <> [] -> exists v, v ∈ l /\ forall u, u ∈ l -> (rank v <= rank u)%nat.
Proof.
  induction l as [| a l IH]; [congruence |]. intros _.
  destruct l as [| b l].
  - exists a. split; [left |]. intros u Hu. apply list_elem_of_singleton in Hu. subst. lia.
  - destruct IH as (m & Hm & Hmin); [discriminate |].
    destruct (le_lt_dec (rank a) (rank m)) as [Hle | Hlt].
    + exists a. split; [left |]. intros u Hu.
      apply elem_of_cons in Hu as [-> | Hu]; [lia |].
      specialize (Hmin u Hu). lia.
    + exists m. split; [right; exact Hm |]. intros u Hu.
      apply elem_of_cons in Hu as [-> | Hu]; [lia | auto].
Qed.

Lemma nth_default_in (n : nat) (x : V) (l : list V) : nth n (x :: l) x ∈ x :: l.
Proof.
  destruct (le_lt_dec (length (x :: l)) n) as [Hle | Hlt].
  - rewrite nth_overflow by exact Hle. left.
  - apply list_elem_of_In. apply nth_In. exact Hlt.
Qed.

Lemma filter_ne_length (l : list V) (v : V) :
  v ∈ l -> (length (filter (fun x => x ≠ v) l) < length l)%nat.
Proof.
  induction l as [| a l IH]; [intros H; inversion H |].
  intros Hin. rewrite filter_cons. destruct (decide (a ≠ v)) as [Hne | Heq].
  - simpl. apply elem_of_cons in Hin as [-> | Hin]; [congruence |].
    specialize (IH Hin). lia.
  - simpl. pose proof (length_filter (fun x => x ≠ v) l). lia.
Qed.

Lemma filter_ne_perm (l : list V) (v : V) :
  NoDup l -> v ∈ l -> l ≡ₚ v :: filter (fun x => x ≠ v) l.
Proof.
  intros Hnd Hin. apply NoDup_Permutation.
  - exact Hnd.
  - apply NoDup_cons. split; [| apply NoDup_filter; exact Hnd].
    rewrite list_elem_of_filter. tauto.
  - intros x. rewrite elem_of_cons, list_elem_of_filter.
    destruct (decide (x = v)) as [-> | Hne]; split; auto.
    + intros [? | [? ?]]; [congruence | assumption].
Qed.

Lemma before_app_r (l l' : list V) (b a : V) :
  Dag.before l b a -> Dag.before (l ++ l') b a.
Proof.
  intros (l1 & l2 & l3 & ->). exists l1, l2, (l3 ++ l').
  rewrite <- !app_assoc. simpl. rewrite <- app_assoc. reflexivity.
Qed.

Lemma before_snoc (l : list V) (b a : V) :
  b ∈ l -> Dag.before (l ++ [a]) b a.
Proof.
  intros Hb. apply list_elem_of_split in Hb as (l1 & l2 & ->).
  exists l1, l2, []. rewrite <- app_assoc. reflexivity.
Qed.

End DagFacts.

(** *** The walk visits every vertex of an acyclic graph, children first *)

Section WalkFacts.

Context {V : Type} `{EqDecision V} {S : Type}.
Variable sched : list V -> nat.
Variable g : Dag.AcyclicGraph V.
Variable cb : V -> S -> result S.
Variable rank : V -> nat.
Variable Inv : list V -> S -> Prop.
Variable bad : V -> bool.

Hypothesis Hrank : forall a b, (a, b) ∈ Dag.edges g -> (rank b < rank a)%nat.
Hypothesis Hclosed : forall a b, (a, b) ∈ Dag.edges g -> b ∈ Dag.vertices g.
Hypothesis Hstep :
  forall v done s,
    Inv done s -> v ∈ Dag.vertices g -> v ∉ done -> Dag.ready g done v = true ->
    bad v = false ->
    exists s', cb v s = Ok s' /\ Inv (v :: done) s'.
Hypothesis Hbad :
  forall v done s,
    Inv done s -> v ∈ Dag.vertices g -> v ∉ done -> Dag.ready g done v = true ->
    bad v = true ->
    cb v s = Panic.

Lemma exists_ready (pending done : list V) :
  pending <> [] ->
  (forall v, v ∈ Dag.vertices g -> v ∈ pending \/ v ∈ done) ->
  filter (fun v => Dag.ready g done v = true) pending <> [].
Proof.
  intros Hne Hcover.
  destruct (min_rank rank pending Hne) as (m & Hm & Hmin).
  assert (Hr : Dag.ready g done m = true).
  { apply ready_spec. intros c Hc.
    destruct (Hcover c (Hclosed _ _ Hc)) as [Hp | Hd]; [| exact Hd].
    specialize (Hmin c Hp). specialize (Hrank _ _ Hc). lia. }
  intros Hnil.
  assert (Hin : m ∈ filter (fun v => Dag.ready g done v = true) pending)
    by (apply list_elem_of_filter; auto).
  rewrite Hnil in Hin. inversion Hin.
Qed.

(** One round of the walk: some vertex that may be visited is chosen, and
    the walk goes on with the callback's result. *)
Lemma walkLoop_round (fuel : nat) (pending done : list V) (s : S) :
  pending <> [] ->
  (forall v, v ∈ Dag.vertices g -> v ∈ pending \/ v ∈ done) ->
  exists v,
    v ∈ pending /\ Dag.ready g done v = true /\
    Dag.walkLoop sched g cb (Datatypes.S fuel) pending done s =
      match cb v s with
      | Ok s' =>
          Dag.walkLoop sched g cb fuel (filter (fun x => x ≠ v) pending) (v :: done) s'
      | Err e => Err e
      | Panic => Panic
      end.
Proof.
  intros Hne Hcover.
  pose proof (exists_ready pending done Hne Hcover) as Hready.
  destruct pending as [| p0 pending0]; [congruence |].
  cbn [Dag.walkLoop].
  destruct (filter (fun v => Dag.ready g done v = true) (p0 :: pending0))
    as [| r0 rs] eqn:Ef; [congruence |].
  set (v := nth (sched (r0 :: rs)) (r0 :: rs) r0).
  assert (Hv : v ∈ filter (fun v => Dag.ready g done v = true) (p0 :: pending0)).
  { rewrite Ef. apply nth_default_in. }
  apply list_elem_of_filter in Hv as [Hvr Hvp].
  exists v. split; [exact Hvp |]. split; [exact Hvr | reflexivity].
Qed.

Lemma walkLoop_total (fuel : nat) :
  forall (pending done : list V) (s : S),
    NoDup pending ->
    (length pending <= fuel)%nat ->
    (forall v, v ∈ Dag.vertices g -> v ∈ pending \/ v ∈ done) ->
    (forall v, v ∈ pending -> v ∈ Dag.vertices g /\ v ∉ done) ->
    (forall v, v ∈ pending -> bad v = false) ->
    Inv done s ->
    exists s' order,
      Dag.walkLoop sched g cb fuel pending done s = Ok s' /\
      order ≡ₚ pending /\
      Inv (rev order ++ done) s'.
Proof.
  induction fuel as [| fuel IH]; intros pending done s Hnd Hlen Hcover Hpend Hgood HI.
  - destruct pending; [| simpl in Hlen; lia].
    exists s, []. simpl. auto.
  - destruct (decide (pending = [])) as [-> | Hne].
    { exists s, []. simpl. auto. }
    destruct (walkLoop_round fuel pending done s Hne Hcover) as (v & Hvp & Hvr & ->).
    destruct (Hpend v Hvp) as [Hvg Hvd].
    destruct (Hstep v done s HI Hvg Hvd Hvr (Hgood v Hvp)) as (s1 & Hcb & HI1).
    rewrite Hcb.
    destruct (IH (filter (fun x => x ≠ v) pending) (v :: done) s1)
      as (s' & order & Hw & Hperm & HI').
    + apply NoDup_filter. exact Hnd.
    + pose proof (filter_ne_length pending v Hvp). lia.
    + intros u Hu. destruct (decide (u = v)) as [-> | Hne'].
      * right. left.
      * destruct (Hcover u Hu) as [Hp | Hd].
        -- left. apply list_elem_of_filter. auto.
        -- right. right. exact Hd.
    + intros u Hu. apply list_elem_of_filter in Hu as [Hne' Hu].
      destruct (Hpend u Hu) as [Hug Hud]. split; [exact Hug |].
      intros Hin. apply elem_of_cons in Hin as [-> | Hin]; [congruence | auto].
    + intros u Hu. apply list_elem_of_filter in Hu as [_ Hu]. auto.
    + exact HI1.
    + exists s', (v :: order). split; [exact Hw |]. split.
      * rewrite (filter_ne_perm pending v Hnd Hvp). constructor. exact Hperm.
      * simpl. rewrite <- app_assoc. exact HI'.
Qed.

Lemma walkLoop_panics (fuel : nat) :
  forall (pending done : list V) (s : S) (b : V),
    NoDup pending ->
    (length pending <= fuel)%nat ->
    (forall v, v ∈ Dag.vertices g -> v ∈ pending \/ v ∈ done) ->
    (forall v, v ∈ pending -> v ∈ Dag.vertices g /\ v ∉ done) ->
    b ∈ pending -> bad b = true ->
    Inv done s ->
    Dag.walkLoop sched g cb fuel pending done s = Panic.
Proof.
  induction fuel as [| fuel IH]; intros pending done s b Hnd Hlen Hcover Hpend Hb Hbb HI.
  - destruct pending; [inversion Hb | simpl in Hlen; lia].
  - assert (Hne : pending <> []) by (intros ->; inversion Hb).
    destruct (walkLoop_round fuel pending done s Hne Hcover) as (v & Hvp & Hvr & ->).
    destruct (Hpend v Hvp) as [Hvg Hvd].
    destruct (bad v) eqn:Ev.
    + rewrite (Hbad v done s HI Hvg Hvd Hvr Ev). reflexivity.
    + destruct (Hstep v done s HI Hvg Hvd Hvr Ev) as (s1 & Hcb & HI1).
      rewrite Hcb.
      apply (IH (filter (fun x => x ≠ v) pending) (v :: done) s1 b).
      * apply NoDup_filter. exact Hnd.
      * pose proof (filter_ne_length pending v Hvp). lia.
      * intros u Hu. destruct (decide (u = v)) as [-> | Hne'].
        -- right. left.
        -- destruct (Hcover u Hu) as [Hp | Hd].
           ++ left. apply list_elem_of_filter. auto.
           ++ right. right. exact Hd.
      * intros u Hu. apply list_elem_of_filter in Hu as [Hne' Hu].
        destruct (Hpend u Hu) as [Hug Hud]. split; [exact Hug |].
        intros Hin. apply elem_of_cons in Hin as [-> | Hin]; [congruence | auto].
      * apply list_elem_of_filter. split; [congruence | exact Hb].
      * exact Hbb.
      * exact HI1.
Qed.

Lemma Walk_total (s : S) :
  NoDup (Dag.vertices g) ->
  (forall v, v ∈ Dag.vertices g -> bad v = false) ->
  Inv [] s ->
  exists s' order,
    Dag.Walk sched g cb s = Ok s' /\
    order ≡ₚ Dag.vertices g /\
    Inv (rev order) s'.
Proof.
  intros Hnd Hgood HI. unfold Dag.Walk.
  destruct (walkLoop_total (length (Dag.vertices g)) (Dag.vertices g) [] s)
    as (s' & order & Hw & Hperm & HI'); auto.
  - intros v Hv. split; [exact Hv |]. intros Hin. inversion Hin.
  - exists s', order. rewrite app_nil_r in HI'. auto.
Qed.

Lemma Walk_panics (s : S) (b : V) :
  NoDup (Dag.vertices g) ->
  b ∈ Dag.vertices g -> bad b = true ->
  Inv [] s ->
  Dag.Walk sched g cb s = Panic.
Proof.
  intros Hnd Hb Hbb HI. unfold Dag.Walk.
  apply (walkLoop_panics (length (Dag.vertices g)) (Dag.vertices g) [] s b); auto.
  intros v Hv. split; [exact Hv |]. intros Hin. inversion Hin.
Qed.

End WalkFacts.

(** ** Properties of the chart-time resolver *)

Section ChartFacts.

Variable C : Collab.

Lemma fold_Add_fresh (l : list ptr) :
  forall g : Dag.AcyclicGraph ptr,
    NoDup l ->
    (forall v, v ∈ l -> v ∉ Dag.vertices g) ->
    Dag.vertices (fold_left (fun g i => Dag.Add i g) l g) = Dag.vertices g ++ l /\
    Dag.edges (fold_left (fun g i => Dag.Add i g) l g) = Dag.edges g.
Proof.
  induction l as [| a l IH]; intros g Hnd Hfresh; simpl.
  - rewrite app_nil_r. auto.
  - apply NoDup_cons in Hnd as [Ha Hnd].
    assert (Hadd : Dag.Add a g = {| Dag.vertices := Dag.vertices g ++ [a];
                                    Dag.edges := Dag.edges g |}).
    { unfold Dag.Add. rewrite bool_decide_eq_false_2; [reflexivity |].
      apply Hfresh. left. }
    destruct (IH (Dag.Add a g) Hnd) as [Hv He].
    + intros v Hv. rewrite Hadd. simpl. rewrite elem_of_app, list_elem_of_singleton.
      intros [Hin | ->]; [| contradiction].
      eapply Hfresh; [right; exact Hv | exact Hin].
    + rewrite Hv, He, Hadd. simpl. rewrite <- app_assoc. auto.
Qed.

Lemma chartNodes_spec (releases : list ReleaseRequestV2) :
  Dag.vertices (chartNodes releases) = seq 0 (length releases) /\
  Dag.edges (chartNodes releases) = [].
Proof.
  unfold chartNodes.
  destruct (fold_Add_fresh (seq 0 (length releases)) Dag.empty) as [Hv He].
  - apply NoDup_seq.
  - intros v _ Hin. inversion Hin.
  - split; [exact Hv | exact He].
Qed.

Lemma elem_of_zip_seq (releases : list ReleaseRequestV2) :
  forall k p r,
    (p, r) ∈ zip (seq k (length releases)) releases <->
    (k <= p)%nat /\ releases !! (p - k)%nat = Some r.
Proof.
  induction releases as [| r0 rest IH]; intros k p r; simpl.
  - split; [intros H; inversion H | intros [_ H]; discriminate].
  - rewrite elem_of_cons, IH. split.
    + intros [[= -> ->] | [Hle Hl]].
      * split; [lia |]. replace (k - k)%nat with 0%nat by lia. reflexivity.
      * split; [lia |]. replace (p - k)%nat with (Datatypes.S (p - Datatypes.S k)) by lia.
        exact Hl.
    + intros [Hle Hl]. destruct (decide (p = k)) as [-> | Hne].
      * left. replace (k - k)%nat with 0%nat in Hl by lia. simpl in Hl. congruence.
      * right. split; [lia |].
        replace (p - k)%nat with (Datatypes.S (p - Datatypes.S k)) in Hl by lia.
        exact Hl.
Qed.

Lemma elem_of_indexed (releases : list ReleaseRequestV2) (p : ptr) (r : ReleaseRequestV2) :
  (p, r) ∈ zip (seq 0 (length releases)) releases <-> releases !! p = Some r.
Proof.
  rewrite elem_of_zip_seq. replace (p - 0)%nat with p by lia.
  split; [tauto | split; [lia | assumption]].
Qed.

Lemma chartIndex_fold (ps : list (ptr * ReleaseRequestV2)) :
  forall (m : gmap string ptr) s q,
    fold_left (fun m ir => <[rqChartName ir.2 := ir.1]> m) ps m !! s = Some q ->
    m !! s = Some q \/ exists r, (q, r) ∈ ps /\ rqChartName r = s.
Proof.
  induction ps as [| [p r] ps IH]; intros m s q; simpl.
  - auto.
  - intros H. apply IH in H as [H | (r' & Hin & Hc)].
    + destruct (decide (rqChartName r = s)) as [<- | Hne].
      * rewrite lookup_insert_eq in H. injection H as ->.
        right. exists r. split; [left | reflexivity].
      * rewrite lookup_insert_ne in H by exact Hne. auto.
    + right. exists r'. split; [right; exact Hin | exact Hc].
Qed.

Lemma chartIndex_spec (releases : list ReleaseRequestV2) (s : string) (q : ptr) :
  chartIndex releases !! s = Some q ->
  exists r, releases !! q = Some r /\ rqChartName r = s.
Proof.
  intros H. apply chartIndex_fold in H as [H | (r & Hin & Hc)].
  - rewrite lookup_empty in H. discriminate.
  - exists r. split; [apply elem_of_indexed; exact Hin | exact Hc].
Qed.

Lemma connectSubCharts_spec (m : gmap string ptr) (p : ptr) (r : ReleaseRequestV2)
    (subCharts : list string) :
  forall g : Dag.AcyclicGraph ptr,
    Dag.vertices (connectSubCharts m p r subCharts g) = Dag.vertices g /\
    forall a b,
      (a, b) ∈ Dag.edges (connectSubCharts m p r subCharts g) <->
      (a, b) ∈ Dag.edges g \/
      (a = p /\ exists s, s ∈ subCharts /\ m !! s = Some b /\
                          hasKey (rqDependencies r) s = false).
Proof.
  unfold connectSubCharts.
  induction subCharts as [| s subCharts IH]; intros g; simpl.
  - split; [reflexivity |]. intros a b. split; [auto |].
    intros [H | (_ & s & Hs & _)]; [exact H | inversion Hs].
  - set (g1 := match m !! s with
               | Some q => if negb (hasKey (rqDependencies r) s)
                           then Dag.Connect (p, q) g else g
               | None => g
               end).
    destruct (IH g1) as [Hv He].
    assert (Hv1 : Dag.vertices g1 = Dag.vertices g).
    { unfold g1. destruct (m !! s); [| reflexivity].
      destruct (negb _); [apply vertices_Connect | reflexivity]. }
    assert (He1 : forall a b, (a, b) ∈ Dag.edges g1 <->
                              (a, b) ∈ Dag.edges g \/
                              (a = p /\ m !! s = Some b /\
                               hasKey (rqDependencies r) s = false)).
    { intros a b. unfold g1. destruct (m !! s) as [q |] eqn:Em.
      - destruct (hasKey (rqDependencies r) s) eqn:Ek; simpl.
        + split; [auto | intros [H | (_ & _ & H)]; [exact H | discriminate]].
        + rewrite elem_of_edges_Connect. split.
          * intros [[= -> ->] | H]; auto.
          * intros [H | (-> & [= ->] & _)]; auto.
      - split; [auto | intros [H | (_ & H & _)]; [exact H | discriminate]]. }
    split; [rewrite Hv; exact Hv1 |].
    intros a b. rewrite He, He1. split.
    + intros [[H | (-> & Hm & Hk)] | (-> & s' & Hs' & Hm & Hk)].
      * auto.
      * right. split; [reflexivity |]. exists s. split; [left | auto].
      * right. split; [reflexivity |]. exists s'. split; [right; exact Hs' | auto].
    + intros [H | (-> & s' & Hs' & Hm & Hk)]; [auto |].
      apply elem_of_cons in Hs' as [-> | Hs'].
      * left. right. auto.
      * right. split; [reflexivity |]. exists s'. auto.
Qed.

Lemma chartEdges_spec (m : gmap string ptr) (todo : list (ptr * ReleaseRequestV2)) :
  forall g : Dag.AcyclicGraph ptr,
    (forall p r, (p, r) ∈ todo ->
       exists subCharts,
         autoDeps C (rqRepoName r) (rqChartName r) (rqChartVersion r) = Ok subCharts) ->
    exists g',
      chartEdges C m todo g = Ok g' /\
      Dag.vertices g' = Dag.vertices g /\
      forall a b,
        (a, b) ∈ Dag.edges g' <->
        (a, b) ∈ Dag.edges g \/
        exists r subCharts s,
          (a, r) ∈ todo /\
          autoDeps C (rqRepoName r) (rqChartName r) (rqChartVersion r) = Ok subCharts /\
          s ∈ subCharts /\ m !! s = Some b /\ hasKey (rqDependencies r) s = false.
Proof.
  induction todo as [| [p r] todo IH]; intros g Hknown; simpl.
  - exists g. split; [reflexivity |]. split; [reflexivity |].
    intros a b. split; [auto |].
    intros [H | (r & subs & s & Hin & _)]; [exact H | inversion Hin].
  - destruct (Hknown p r) as [subs Hsubs]; [left |]. rewrite Hsubs.
    destruct (connectSubCharts_spec m p r subs g) as [Hv1 He1].
    destruct (IH (connectSubCharts m p r subs g)) as (g' & Hg' & Hv & He).
    { intros p' r' Hin. apply (Hknown p' r'). right. exact Hin. }
    exists g'. split; [exact Hg' |]. split; [congruence |].
    intros a b. rewrite He, He1. split.
    + intros [[H | (-> & s & Hs & Hm & Hk)] | (r' & subs' & s & Hin & Ha & Hs & Hm & Hk)].
      * auto.
      * right. exists r, subs, s. split; [left |]. auto.
      * right. exists r', subs', s. split; [right; exact Hin |]. auto.
    + intros [H | (r' & subs' & s & Hin & Ha & Hs & Hm & Hk)]; [auto |].
      apply elem_of_cons in Hin as [[= -> ->] | Hin].
      * left. right. split; [reflexivity |]. exists s.
        assert (subs' = subs) by congruence. subst. auto.
      * right. exists r', subs', s. auto.
Qed.

Lemma chartGraph_spec (releases : list ReleaseRequestV2) :
  chartsKnown C releases ->
  exists g,
    chartGraph C releases = Ok g /\
    Dag.vertices g = seq 0 (length releases) /\
    forall a b, (a, b) ∈ Dag.edges g <-> inferred C releases a b.
Proof.
  intros Hknown. unfold chartGraph.
  destruct (chartNodes_spec releases) as [Hv0 He0].
  destruct (chartEdges_spec (chartIndex releases)
              (zip (seq 0 (length releases)) releases) (chartNodes releases))
    as (g & Hg & Hv & He).
  { intros p r Hin. apply Hknown. apply elem_of_indexed in Hin.
    eapply list_elem_of_lookup_2; exact Hin. }
  exists g. split; [exact Hg |]. split; [congruence |].
  intros a b. rewrite He, He0. unfold inferred. split.
  - intros [H | (r & subs & s & Hin & H)]; [inversion H |].
    exists r, subs, s. split; [apply elem_of_indexed; exact Hin | exact H].
  - intros (r & subs & s & Hin & H). right.
    exists r, subs, s. split; [apply elem_of_indexed; exact Hin | exact H].
Qed.

End ChartFacts.

(** *** The walk callback *)

Lemma withRqDependencies_same (r : ReleaseRequestV2) :
  withRqDependencies r (rqDependencies r) = r.
Proof. destruct r; reflexivity. Qed.

Lemma absorbChildren_nil (heap : list ReleaseRequestV2) (deps : option (gmap string string)) :
  absorbChildren heap [] deps = Ok deps.
Proof. reflexivity. Qed.

Lemma absorbChildren_nil_map (heap : list ReleaseRequestV2) (c : ptr) (cs : list ptr) :
  is_Some (heap !! c) -> absorbChildren heap (c :: cs) None = Panic.
Proof. intros [rc Hc]. simpl. rewrite Hc. reflexivity. Qed.

Lemma absorbChildren_some (heap : list ReleaseRequestV2) (cs : list ptr) :
  forall d : gmap string string,
    (forall c, c ∈ cs -> is_Some (heap !! c)) ->
    exists d',
      absorbChildren heap cs (Some d) = Ok (Some d') /\
      (forall k v,
         d !! k = Some v ->
         (forall c rc, c ∈ cs -> heap !! c = Some rc -> rqChartName rc = k -> rqName rc = v) ->
         d' !! k = Some v) /\
      (forall c rc,
         c ∈ cs -> heap !! c = Some rc ->
         (forall c' rc', c' ∈ cs -> heap !! c' = Some rc' ->
                         rqChartName rc' = rqChartName rc -> rqName rc' = rqName rc) ->
         d' !! rqChartName rc = Some (rqName rc)).
Proof.
  induction cs as [| c0 cs IH]; intros d Hheap.
  - exists d. split; [reflexivity |]. split; [auto |].
    intros c rc Hc. inversion Hc.
  - destruct (Hheap c0) as [rc0 Hc0]; [left |].
    destruct (IH (<[rqChartName rc0 := rqName rc0]> d)) as (d' & Hd' & Hkeep & Hwrite).
    { intros c Hc. apply Hheap. right. exact Hc. }
    exists d'. split; [simpl; rewrite Hc0; simpl; exact Hd' |]. split.
    + intros k v Hk Hall. apply Hkeep.
      * destruct (decide (rqChartName rc0 = k)) as [Heq | Hne].
        -- rewrite <- Heq, lookup_insert_eq. f_equal.
           apply (Hall c0 rc0); [left | exact Hc0 | exact Heq].
        -- rewrite lookup_insert_ne by exact Hne. exact Hk.
      * intros c rc Hc. apply Hall. right. exact Hc.
    + intros c rc Hc Hrc Huniq. apply elem_of_cons in Hc as [-> | Hc].
      * assert (rc = rc0) by congruence. subst rc.
        apply Hkeep; [apply lookup_insert_eq |].
        intros c' rc' Hc' Hrc' Heq. apply (Huniq c' rc'); [right | |]; assumption.
      * apply (Hwrite c rc); [exact Hc | exact Hrc |].
        intros c' rc' Hc'. apply Huniq. right. exact Hc'.
Qed.

Lemma elem_of_rev {A} (l : list A) (x : A) : x ∈ rev l <-> x ∈ l.
Proof. rewrite !list_elem_of_In. symmetry. apply in_rev. Qed.

Section ChartWalk.

Variable C : Collab.
Variable releases : list ReleaseRequestV2.
Variable g : Dag.AcyclicGraph ptr.

Hypothesis Hvertices : Dag.vertices g = seq 0 (length releases).
Hypothesis Hedges : forall a b, (a, b) ∈ Dag.edges g <-> inferred C releases a b.

Lemma edge_child (a b : ptr) :
  (a, b) ∈ Dag.edges g ->
  exists rb, releases !! b = Some rb /\ chartIndex releases !! rqChartName rb = Some b.
Proof.
  intros He. apply Hedges in He as (ra & subs & s & _ & _ & _ & Hm & _).
  destruct (chartIndex_spec _ _ _ Hm) as (rb & Hb & <-). eauto.
Qed.

Lemma edge_closed (a b : ptr) : (a, b) ∈ Dag.edges g -> b ∈ Dag.vertices g.
Proof.
  intros He. destruct (edge_child a b He) as (rb & Hb & _).
  rewrite Hvertices. apply elem_of_seq. apply lookup_lt_Some in Hb. lia.
Qed.

Lemma vertex_release (v : ptr) :
  v ∈ Dag.vertices g -> exists r, releases !! v = Some r.
Proof.
  rewrite Hvertices, elem_of_seq. intros [_ Hlt].
  apply lookup_lt_is_Some. simpl in Hlt. exact Hlt.
Qed.

Lemma walkInv_init : walkInv releases g [] (releases, []).
Proof.
  split; [reflexivity |]. split; [reflexivity |]. split.
  - intros p r0 Hp. exists r0. split; [exact Hp |]. split; [reflexivity |].
    split; [reflexivity |]. split; [reflexivity |].
    intros Hin. inversion Hin.
  - intros a b _ Hin. inversion Hin.
Qed.

Lemma visit_good (v : ptr) (done : list ptr) (s : list ReleaseRequestV2 * list ptr) :
  walkInv releases g done s ->
  v ∈ Dag.vertices g -> v ∉ done -> Dag.ready g done v = true ->
  nilParent releases g v = false ->
  exists s', visit g v s = Ok s' /\ walkInv releases g (v :: done) s'.
Proof.
  intros (Hout & Hlen & Hheap & Hord) Hv Hnd Hready Hgood.
  destruct s as [heap out]. simpl in Hout, Hlen, Hheap.
  destruct (vertex_release v Hv) as [r0 Hr0].
  destruct (Hheap v r0 Hr0) as (r & Hr & _ & _ & Hsame & _).
  specialize (Hsame Hnd). subst r.
  unfold nilParent in Hgood. rewrite Hr0 in Hgood.
  (* every child is in the store, under its own name and chart *)
  assert (Hchild : forall c, c ∈ Dag.DownEdges g v ->
            exists rc hc, releases !! c = Some rc /\ heap !! c = Some hc /\
                          rqName hc = rqName rc /\ rqChartName hc = rqChartName rc /\
                          chartIndex releases !! rqChartName rc = Some c).
  { intros c Hc. apply elem_of_DownEdges in Hc.
    destruct (edge_child v c Hc) as (rc & Hrc & Hidx).
    destruct (Hheap c rc Hrc) as (hc & Hhc & Hn & Hch & _).
    exists rc, hc. auto. }
  assert (Hres : exists deps',
            absorbChildren heap (Dag.DownEdges g v) (rqDependencies r0) = Ok deps' /\
            forall c rc, (v, c) ∈ Dag.edges g -> releases !! c = Some rc ->
                         getKey deps' (rqChartName rc) = Some (rqName rc)).
  { destruct (Dag.DownEdges g v) as [| c0 cs] eqn:Ed.
    - exists (rqDependencies r0). split; [reflexivity |].
      intros c rc Hc. apply elem_of_DownEdges in Hc. rewrite Ed in Hc. inversion Hc.
    - destruct (rqDependencies r0) as [d |] eqn:Edeps.
      + destruct (absorbChildren_some heap (c0 :: cs) d) as (d' & Hd' & _ & Hwrite).
        { intros c Hc. destruct (Hchild c Hc) as (rc & hc & _ & Hhc & _). eauto. }
        exists (Some d'). split; [exact Hd' |].
        intros c rc Hc Hrc. apply elem_of_DownEdges in Hc. rewrite Ed in Hc.
        destruct (Hchild c Hc) as (rc1 & hc & Hrc1 & Hhc & Hn & Hch & Hidx).
        assert (rc1 = rc) by congruence. subst rc1.
        simpl. rewrite <- Hn, <- Hch. apply (Hwrite c hc Hc Hhc).
        intros c' hc' Hc' Hhc' Heq.
        destruct (Hchild c' Hc') as (rc' & hc1 & Hrc' & Hhc1 & Hn' & Hch' & Hidx').
        assert (hc1 = hc') by congruence. subst hc1.
        assert (c' = c) by congruence. subst c'. congruence.
      + rewrite !bool_decide_eq_true_2 in Hgood by (congruence || discriminate).
        discriminate Hgood. }
  destruct Hres as (deps' & Habs & Hkeys).
  exists (<[v := withRqDependencies r0 deps']> heap, out ++ [v]).
  split; [unfold visit; cbv beta iota; rewrite Hr, Habs; reflexivity |].
  assert (Hvlt : (v < length heap)%nat) by (apply lookup_lt_Some in Hr; exact Hr).
  split; [simpl; rewrite Hout; reflexivity |].
  split; [simpl; rewrite length_insert; exact Hlen |].
  split.
  - intros p p0 Hp. simpl. destruct (decide (p = v)) as [-> | Hne].
    + assert (p0 = r0) by congruence. subst p0.
      exists (withRqDependencies r0 deps').
      split; [apply list_lookup_insert_eq; exact Hvlt |].
      split; [reflexivity |]. split; [reflexivity |].
      split; [intros Hn; exfalso; apply Hn; left |].
      intros _ c Hc. destruct (edge_child v c Hc) as (rc & Hrc & _).
      exists rc. split; [exact Hrc |]. simpl. apply (Hkeys c rc Hc Hrc).
    + destruct (Hheap p p0 Hp) as (r & Hr' & Hn & Hch & Hun & Hdn).
      exists r. split; [rewrite list_lookup_insert_ne by congruence; exact Hr' |].
      split; [exact Hn |]. split; [exact Hch |]. split.
      * intros Hnin. apply Hun. intros Hin. apply Hnin. right. exact Hin.
      * intros Hin. apply Hdn. apply elem_of_cons in Hin as [-> | Hin]; [congruence | exact Hin].
  - intros a b He Ha. simpl. apply elem_of_cons in Ha as [-> | Ha].
    + apply before_snoc. apply elem_of_rev.
      apply (proj1 (ready_spec g done v) Hready b He).
    + apply before_app_r. apply Hord; assumption.
Qed.

Lemma visit_bad (v : ptr) (done : list ptr) (s : list ReleaseRequestV2 * list ptr) :
  walkInv releases g done s ->
  v ∈ Dag.vertices g -> v ∉ done -> Dag.ready g done v = true ->
  nilParent releases g v = true ->
  visit g v s = Panic.
Proof.
  intros (Hout & Hlen & Hheap & Hord) Hv Hnd Hready Hbad.
  destruct s as [heap out]. simpl in Hout, Hlen, Hheap.
  destruct (vertex_release v Hv) as [r0 Hr0].
  destruct (Hheap v r0 Hr0) as (r & Hr & _ & _ & Hsame & _).
  specialize (Hsame Hnd). subst r.
  unfold nilParent in Hbad. rewrite Hr0 in Hbad.
  apply andb_true_iff in Hbad as [Hc Hd].
  apply bool_decide_eq_true in Hc. apply bool_decide_eq_true in Hd.
  unfold visit. cbv beta iota. rewrite Hr, Hd.
  destruct (Dag.DownEdges g v) as [| c0 cs] eqn:Ed; [congruence |].
  assert (Hc0 : (v, c0) ∈ Dag.edges g) by (apply elem_of_DownEdges; rewrite Ed; left).
  destruct (edge_child v c0 Hc0) as (rc & Hrc & _).
  destruct (Hheap c0 rc Hrc) as (hc & Hhc & _).
  rewrite absorbChildren_nil_map by eauto. reflexivity.
Qed.

End ChartWalk.

(** *** Runs in which the scheduler has no choice *)

Lemma nth_singleton {A} (n : nat) (x : A) : nth n [x] x = x.
Proof. destruct n as [| [| n]]; reflexivity. Qed.

Lemma walkLoop_forced {V : Type} `{EqDecision V} {S : Type} (sched : list V -> nat)
    (g : Dag.AcyclicGraph V) (cb : V -> S -> result S) (fuel : nat)
    (pending done : list V) (s : S) (v : V) :
  filter (fun x => Dag.ready g done x = true) pending = [v] ->
  Dag.walkLoop sched g cb (Datatypes.S fuel) pending done s =
    match cb v s with
    | Ok s' => Dag.walkLoop sched g cb fuel (filter (fun x => x ≠ v) pending) (v :: done) s'
    | Err e => Err e
    | Panic => Panic
    end.
Proof.
  intros Hf. destruct pending as [| p0 pending0]; [discriminate Hf |].
  cbn [Dag.walkLoop]. rewrite Hf, nth_singleton. reflexivity.
Qed.

Section ChartParse.

Variable C : Collab.
Variable sched : list ptr -> nat.

(** When the chart runtime answers, the inferred edges are acyclic with a
    unique root and no release acquiring a child has a nil map, the resolver
    returns every release once, children first, each parent wired to its
    children. *)
Lemma chart_parse_ok (projectParams : ProjectParams) :
  chartsKnown C (Releases projectParams) ->
  (exists rank : ptr -> nat,
     forall a b, inferred C (Releases projectParams) a b -> (rank b < rank a)%nat) ->
  (exists root,
     (root < length (Releases projectParams))%nat /\
     forall p, (p < length (Releases projectParams))%nat ->
       (p = root <-> forall q, ~ inferred C (Releases projectParams) q p)) ->
  (forall a b ra,
     inferred C (Releases projectParams) a b ->
     Releases projectParams !! a = Some ra -> rqDependencies ra <> None) ->
  exists heap out,
    brainFuckChartDepParse C sched projectParams = Ok (heap, out) /\
    out ≡ₚ seq 0 (length (Releases projectParams)) /\
    length heap = length (Releases projectParams) /\
    (forall p r0,
       Releases projectParams !! p = Some r0 ->
       exists r, heap !! p = Some r /\ rqName r = rqName r0 /\
                 rqChartName r = rqChartName r0) /\
    (forall a b,
       inferred C (Releases projectParams) a b ->
       Dag.before out b a /\
       exists ra rb,
         heap !! a = Some ra /\ heap !! b = Some rb /\
         getKey (rqDependencies ra) (rqChartName rb) = Some (rqName rb)).
Proof.
  set (releases := Releases projectParams).
  intros Hknown [rank Hrank] (root & Hroot & Huniq) Hnil.
  destruct (chartGraph_spec C releases Hknown) as (g & Hg & Hv & He).
  assert (Hnd : NoDup (Dag.vertices g)) by (rewrite Hv; apply NoDup_seq).
  assert (HR : Dag.Root g = Ok root).
  { apply Root_unique; [exact Hnd | rewrite Hv; apply elem_of_seq; lia |].
    intros p Hp. rewrite Hv in Hp. apply elem_of_seq in Hp.
    rewrite (Huniq p) by lia. split.
    - intros H q Hq. apply (H q). apply He. exact Hq.
    - intros H q Hq. apply (H q). apply He. exact Hq. }
  destruct (Walk_total sched g (visit g) rank (walkInv releases g) (nilParent releases g))
    with (s := (releases, @nil nat)) as ([heap out] & order & Hw & Hperm & HI).
  - intros a b Hab. apply Hrank. apply He. exact Hab.
  - intros a b. apply (edge_closed C releases g Hv He).
  - intros v done s. apply (visit_good C releases g Hv He).
  - exact Hnd.
  - intros v Hvin. unfold nilParent.
    destruct (releases !! v) as [r |] eqn:Er; [| reflexivity].
    destruct (Dag.DownEdges g v) as [| c cs] eqn:Ed.
    + rewrite bool_decide_eq_false_2 by congruence. reflexivity.
    + assert (Hc : (v, c) ∈ Dag.edges g) by (apply elem_of_DownEdges; rewrite Ed; left).
      apply He in Hc. specialize (Hnil v c r Hc Er).
      rewrite (bool_decide_eq_false_2 (rqDependencies r = None)) by exact Hnil.
      apply andb_false_r.
  - apply (walkInv_init releases g).
  - destruct HI as (Hout & Hlen & Hheap & Hord). simpl in Hout, Hlen, Hheap.
    rewrite rev_involutive in Hout, Hord. subst out.
    exists heap, order. split.
    { unfold brainFuckChartDepParse. fold releases. rewrite Hg, HR. exact Hw. }
    split; [rewrite Hperm; rewrite Hv; reflexivity |].
    split; [exact Hlen |]. split.
    + intros p r0 Hp. destruct (Hheap p r0 Hp) as (r & Hr & Hn & Hc & _). eauto.
    + intros a b Hab. pose proof Hab as Hab'. apply He in Hab'.
      assert (Ha : a ∈ rev order).
      { apply elem_of_rev. rewrite Hperm, Hv. apply elem_of_seq.
        destruct Hab as (ra & _ & _ & Hra & _). apply lookup_lt_Some in Hra. lia. }
      split; [apply Hord; assumption |].
      destruct Hab as (ra0 & subs & s & Hra0 & _).
      destruct (Hheap a ra0 Hra0) as (ra & Hra & _ & _ & _ & Hdone).
      destruct (Hdone Ha b Hab') as (rb0 & Hrb0 & Hkey).
      destruct (Hheap b rb0 Hrb0) as (rb & Hrb & Hn & Hc & _).
      exists ra, rb. split; [exact Hra |]. split; [exact Hrb |].
      rewrite Hn, Hc. exact Hkey.
Qed.

(** Under the same conditions on the graph, a release with a nil map that
    acquires a child makes the resolver panic. *)
Lemma chart_parse_panics (projectParams : ProjectParams) (a b : ptr) (ra : ReleaseRequestV2) :
  chartsKnown C (Releases projectParams) ->
  (exists rank : ptr -> nat,
     forall a b, inferred C (Releases projectParams) a b -> (rank b < rank a)%nat) ->
  (exists root,
     (root < length (Releases projectParams))%nat /\
     forall p, (p < length (Releases projectParams))%nat ->
       (p = root <-> forall q, ~ inferred C (Releases projectParams) q p)) ->
  inferred C (Releases projectParams) a b ->
  Releases projectParams !! a = Some ra ->
  rqDependencies ra = None ->
  brainFuckChartDepParse C sched projectParams = Panic.
Proof.
  set (releases := Releases projectParams).
  intros Hknown [rank Hrank] (root & Hroot & Huniq) Hab Hra Hnil.
  destruct (chartGraph_spec C releases Hknown) as (g & Hg & Hv & He).
  assert (Hnd : NoDup (Dag.vertices g)) by (rewrite Hv; apply NoDup_seq).
  assert (HR : Dag.Root g = Ok root).
  { apply Root_unique; [exact Hnd | rewrite Hv; apply elem_of_seq; lia |].
    intros p Hp. rewrite Hv in Hp. apply elem_of_seq in Hp.
    rewrite (Huniq p) by lia. split.
    - intros H q Hq. apply (H q). apply He. exact Hq.
    - intros H q Hq. apply (H q). apply He. exact Hq. }
  unfold brainFuckChartDepParse. fold releases. rewrite Hg, HR.
  apply (Walk_panics sched g (visit g) rank (walkInv releases g) (nilParent releases g))
    with (b := a).
  - intros x y Hxy. apply Hrank. apply He. exact Hxy.
  - intros x y. apply (edge_closed C releases g Hv He).
  - intros v done s. apply (visit_good C releases g Hv He).
  - intros v done s. apply (visit_bad C releases g Hv He).
  - exact Hnd.
  - rewrite Hv. apply elem_of_seq. apply lookup_lt_Some in Hra. lia.
  - unfold nilParent. rewrite Hra.
    assert (Hc : b ∈ Dag.DownEdges g a) by (apply elem_of_DownEdges, He; exact Hab).
    rewrite !bool_decide_eq_true_2; [reflexivity | exact Hnil |].
    intros Hn. rewrite Hn in Hc. inversion Hc.
  - apply (walkInv_init releases g).
Qed.

End ChartParse.

(** *** The scenarios of the chart-time resolver *)

Lemma inferred_S5 (deps : option (gmap string string)) (a b : ptr) :
  inferred (Scenario.quiet true [] Scenario.subsS5 None)
    [Scenario.request "x" "x" deps; Scenario.request "y" "y" deps] a b ->
  a = 0%nat /\ b = 1%nat.
Proof.
  intros (ra & subs & s & Hra & Had & Hs & Hm & _).
  destruct a as [| [| a]]; simpl in Hra; try discriminate.
  - injection Hra as <-. vm_compute in Had. injection Had as <-.
    apply list_elem_of_singleton in Hs. subst s.
    vm_compute in Hm. injection Hm as <-. auto.
  - injection Hra as <-. vm_compute in Had. injection Had as <-. inversion Hs.
Qed.

Lemma inferred_S5_edge (deps : option (gmap string string)) :
  hasKey deps "y" = false ->
  inferred (Scenario.quiet true [] Scenario.subsS5 None)
    [Scenario.request "x" "x" deps; Scenario.request "y" "y" deps] 0 1.
Proof.
  intros Hk. exists (Scenario.request "x" "x" deps), ["y"], "y".
  split; [reflexivity |]. split; [reflexivity |]. split; [left |].
  split; [vm_compute; reflexivity | exact Hk].
Qed.

Lemma root_S5 (deps : option (gmap string string)) :
  hasKey deps "y" = false ->
  exists root,
    (root < 2)%nat /\
    forall p, (p < 2)%nat ->
      (p = root <->
       forall q, ~ inferred (Scenario.quiet true [] Scenario.subsS5 None)
                     [Scenario.request "x" "x" deps; Scenario.request "y" "y" deps] q p).
Proof.
  intros Hk. exists 0%nat. split; [lia |]. intros p Hp. split.
  - intros -> q Hq. apply inferred_S5 in Hq. lia.
  - intros H. destruct p as [| p]; [reflexivity |].
    assert (p = 0%nat) by lia. subst p.
    exfalso. apply (H 0%nat). apply inferred_S5_edge. exact Hk.
Qed.

Lemma declares_RA (p q : ptr) :
  declares (Scenario.quiet true [] Scenario.subsRA None)
    (Releases Scenario.paramsRA) p q <->
  p = 0%nat /\ q = 1%nat.
Proof.
  split.
  - intros (rp & rq & subs & Hp & Hq & Had & Hin).
    destruct p as [| [| p]]; simpl in Hp; try discriminate; injection Hp as <-;
      vm_compute in Had; injection Had as <-.
    + apply list_elem_of_singleton in Hin.
      destruct q as [| [| q]]; simpl in Hq; try discriminate; injection Hq as <-;
        simpl in Hin; [discriminate | auto].
    + inversion Hin.
  - intros [-> ->].
    exists (Scenario.request "r" "r" (Some ∅)),
      (Scenario.request "a" "a" (Some {[ "r" := "r" ]})), ["a"].
    split; [reflexivity |]. split; [reflexivity |]. split; [reflexivity | left].
Qed.

Lemma declaredDagWithRoot_RA :
  declaredDagWithRoot (Scenario.quiet true [] Scenario.subsRA None)
    (Releases Scenario.paramsRA).
Proof.
  split.
  - exists (fun p => match p with O => 1%nat | _ => 0%nat end).
    intros p q H. apply declares_RA in H as [-> ->]. simpl. lia.
  - exists 0%nat. split; [simpl; lia |]. intros p Hp. simpl in Hp. split.
    + intros -> q H. apply declares_RA in H. lia.
    + intros H. destruct p as [| p]; [reflexivity |].
      assert (p = 0%nat) by lia. subst p.
      exfalso. apply (H 0%nat). apply declares_RA. auto.
Qed.

(** Whatever the scheduler, release a is returned before release r. *)
Lemma chart_parse_RA (sched : list ptr -> nat) :
  brainFuckChartDepParse (Scenario.quiet true [] Scenario.subsRA None) sched
    Scenario.paramsRA =
  Ok ([Scenario.request "r" "r" (Some {[ "a" := "a" ]});
       Scenario.request "a" "a" (Some {[ "r" := "r" ]})], [1%nat; 0%nat]).
Proof.
  set (g := {| Dag.vertices := [0%nat; 1%nat]; Dag.edges := [(0%nat, 1%nat)] |}).
  unfold brainFuckChartDepParse.
  replace (chartGraph _ (Releases Scenario.paramsRA)) with (Ok g)
    by (vm_compute; reflexivity).
  replace (Dag.Root g) with (Ok 0%nat) by (vm_compute; reflexivity).
  unfold Dag.Walk.
  change (Dag.walkLoop sched g (visit g) 2 [0%nat; 1%nat] [] (Releases Scenario.paramsRA, [])
          = Ok ([Scenario.request "r" "r" (Some {[ "a" := "a" ]});
                 Scenario.request "a" "a" (Some {[ "r" := "r" ]})], [1%nat; 0%nat])).
  rewrite (walkLoop_forced sched g (visit g) 1 _ _ _ 1%nat) by (vm_compute; reflexivity).
  replace (visit g 1%nat (Releases Scenario.paramsRA, []))
    with (Ok (Releases Scenario.paramsRA, [1%nat])) by (vm_compute; reflexivity).
  cbv beta iota.
  rewrite (walkLoop_forced sched g (visit g) 0 _ _ _ 0%nat) by (vm_compute; reflexivity).
  replace (visit g 0%nat (Releases Scenario.paramsRA, [1%nat]))
    with (Ok ([Scenario.request "r" "r" (Some {[ "a" := "a" ]});
               Scenario.request "a" "a" (Some {[ "r" := "r" ]})], [1%nat; 0%nat]))
    by (vm_compute; reflexivity).
  cbv beta iota. vm_compute. reflexivity.
Qed.

(** Whatever the scheduler, scenario S5 returns y before x. *)
Lemma chart_parse_S5 (sched : list ptr -> nat) :
  brainFuckChartDepParse (Scenario.quiet true [] Scenario.subsS5 None) sched
    Scenario.paramsS5 =
  Ok ([Scenario.request "x" "x" (Some {[ "y" := "y" ]});
       Scenario.request "y" "y" (Some ∅)], [1%nat; 0%nat]).
Proof.
  set (g := {| Dag.vertices := [0%nat; 1%nat]; Dag.edges := [(0%nat, 1%nat)] |}).
  unfold brainFuckChartDepParse.
  replace (chartGraph _ (Releases Scenario.paramsS5)) with (Ok g)
    by (vm_compute; reflexivity).
  replace (Dag.Root g) with (Ok 0%nat) by (vm_compute; reflexivity).
  unfold Dag.Walk.
  change (Dag.walkLoop sched g (visit g) 2 [0%nat; 1%nat] [] (Releases Scenario.paramsS5, [])
          = Ok ([Scenario.request "x" "x" (Some {[ "y" := "y" ]});
                 Scenario.request "y" "y" (Some ∅)], [1%nat; 0%nat])).
  rewrite (walkLoop_forced sched g (visit g) 1 _ _ _ 1%nat) by (vm_compute; reflexivity).
  replace (visit g 1%nat (Releases Scenario.paramsS5, []))
    with (Ok (Releases Scenario.paramsS5, [1%nat])) by (vm_compute; reflexivity).
  cbv beta iota.
  rewrite (walkLoop_forced sched g (visit g) 0 _ _ _ 0%nat) by (vm_compute; reflexivity).
  replace (visit g 0%nat (Releases Scenario.paramsS5, [1%nat]))
    with (Ok ([Scenario.request "x" "x" (Some {[ "y" := "y" ]});
               Scenario.request "y" "y" (Some ∅)], [1%nat; 0%nat]))
    by (vm_compute; reflexivity).
  cbv beta iota. vm_compute. reflexivity.
Qed.

Lemma not_before_swapped : ~ Dag.before [1%nat; 0%nat] 0%nat 1%nat.
Proof.
  intros (l1 & l2 & l3 & H).
  destruct l1 as [| x [| y l1]]; simpl in H.
  - discriminate.
  - destruct l2; discriminate.
  - destruct l1; discriminate.
Qed.

(** C2, as stated, fails: chart r declares subchart a, and release a names
    release r in its own dependencies map.  The declared relation is a DAG
    with the unique root r; whatever the scheduler does, the resolver returns
    a before r, although r is among the values of a's dependencies. *)
Lemma chart_parse_order_counterexample :
  ~ exists sched,
      chartParseOrdered (Scenario.quiet true [] Scenario.subsRA None) sched
        Scenario.paramsRA.
Proof.
  intros [sched H].
  destruct (H declaredDagWithRoot_RA) as (heap & out & Hrun & _ & Hdf).
  rewrite chart_parse_RA in Hrun. injection Hrun as <- <-.
  apply not_before_swapped.
  apply (Hdf 1%nat 0%nat (Scenario.request "a" "a" (Some {[ "r" := "r" ]}))
           (Scenario.request "r" "r" (Some {[ "a" := "a" ]}))).
  - left.
  - right. left.
  - reflexivity.
  - reflexivity.
  - unfold depValues. simpl. rewrite map_to_list_singleton. left.
Qed.

(** C2, amended: when the chart runtime answers for every release, the
    edges the resolver infers (release A gets child B when A's chart declares
    a subchart that is B's chart, B is the bundle's release for that chart,
    and A's dependencies map has no entry for it yet) form a DAG with a
    unique root, and every release that acquires a child has a non-nil
    dependencies map, brainFuckChartDepParse returns a permutation of the
    input releases, each with its name and chart, such that for every
    inferred pair (A, B), B appears before A in the returned list and A's
    dependencies map maps B's chart name to B's release name.  In particular,
    on the bundle [{name:"x", chart:"x"}, {name:"y", chart:"y"}] with empty
    dependencies maps, where chart x declares subchart y, the output order is
    [y, x] and x's dependencies map maps "y" to "y". *)
Theorem chart_parse_children_first :
  (forall (C : Collab) (sched : list ptr -> nat) (projectParams : ProjectParams),
     chartsKnown C (Releases projectParams) ->
     (exists rank : ptr -> nat,
        forall a b, inferred C (Releases projectParams) a b -> (rank b < rank a)%nat) ->
     (exists root,
        (root < length (Releases projectParams))%nat /\
        forall p, (p < length (Releases projectParams))%nat ->
          (p = root <-> forall q, ~ inferred C (Releases projectParams) q p)) ->
     (forall a b ra,
        inferred C (Releases projectParams) a b ->
        Releases projectParams !! a = Some ra -> rqDependencies ra <> None) ->
     exists heap out,
       brainFuckChartDepParse C sched projectParams = Ok (heap, out) /\
       out ≡ₚ seq 0 (length (Releases projectParams)) /\
       length heap = length (Releases projectParams) /\
       (forall p r0,
          Releases projectParams !! p = Some r0 ->
          exists r, heap !! p = Some r /\ rqName r = rqName r0 /\
                    rqChartName r = rqChartName r0) /\
       (forall a b,
          inferred C (Releases projectParams) a b ->
          Dag.before out b a /\
          exists ra rb,
            heap !! a = Some ra /\ heap !! b = Some rb /\
            getKey (rqDependencies ra) (rqChartName rb) = Some (rqName rb))) /\
  (forall sched,
     exists heap x y,
       brainFuckChartDepParse (Scenario.quiet true [] Scenario.subsS5 None) sched
         Scenario.paramsS5 = Ok (heap, [1%nat; 0%nat]) /\
       deref heap [1%nat; 0%nat] = [y; x] /\
       rqName y = "y" /\ rqName x = "x" /\
       getKey (rqDependencies x) "y" = Some "y").
Proof.
  split.
  - intros C sched projectParams. apply chart_parse_ok.
  - intros sched. eexists _, _, _. split; [apply chart_parse_S5 |].
    split; [reflexivity |]. split; [reflexivity |]. split; [reflexivity |].
    simpl. apply lookup_singleton_eq.
Qed.

Lemma chart_parse_children_first_witness :
  exists heap out,
    brainFuckChartDepParse (Scenario.quiet true [] Scenario.subsS5 None)
      Scenario.firstReady Scenario.paramsS5 = Ok (heap, out) /\
    out ≡ₚ [0%nat; 1%nat] /\
    Dag.before out 1%nat 0%nat.
Proof.
  destruct (proj1 chart_parse_children_first
              (Scenario.quiet true [] Scenario.subsS5 None)
              Scenario.firstReady Scenario.paramsS5)
    as (heap & out & Hrun & Hperm & _ & _ & Hedges).
  - intros r _. eexists. reflexivity.
  - exists (fun p => match p with O => 1%nat | _ => 0%nat end).
    intros a b H. apply inferred_S5 in H as [-> ->]. simpl. lia.
  - apply root_S5. reflexivity.
  - intros a b ra H Hra. apply inferred_S5 in H as [-> ->].
    injection Hra as <-. discriminate.
  - exists heap, out. split; [exact Hrun |]. split; [exact Hperm |].
    apply Hedges. apply inferred_S5_edge. reflexivity.
Defined.

(** ** Properties of the runtime resolver *)

Lemma listed_perm (order : list string -> list string) (l : list string) :
  listed order l ≡ₚ l.
Proof. unfold listed. case_decide; [assumption | reflexivity]. Qed.

Lemma elem_of_listed (order : list string -> list string) (l : list string) (x : string) :
  x ∈ listed order l <-> x ∈ l.
Proof. rewrite (listed_perm order l). reflexivity. Qed.

Lemma NoDup_listed (order : list string -> list string) (l : list string) :
  NoDup l -> NoDup (listed order l).
Proof. rewrite (listed_perm order l). auto. Qed.

Lemma fold_affect {A B} (step : A -> option B) (f : list B -> A -> list B) :
  (forall acc x, f acc x = match step x with Some y => acc ++ [y] | None => acc end) ->
  forall l acc, fold_left f l acc = acc ++ omap step l.
Proof.
  intros Hf. induction l as [| x l IH]; intros acc; simpl.
  - rewrite app_nil_r. reflexivity.
  - rewrite IH, Hf. destruct (step x); [rewrite <- app_assoc |]; reflexivity.
Qed.

Lemma fold_edges {A} (f : Dag.AcyclicGraph string -> A -> Dag.AcyclicGraph string)
    (P : A -> string * string -> Prop) (l : list A) :
  (forall g x e, x ∈ l -> e ∈ Dag.edges (f g x) -> e ∈ Dag.edges g \/ P x e) ->
  forall g e,
    e ∈ Dag.edges (fold_left f l g) ->
    e ∈ Dag.edges g \/ exists x, x ∈ l /\ P x e.
Proof.
  induction l as [| x l IH]; intros Hf g e; simpl.
  - auto.
  - intros He. apply IH in He as [He | (y & Hy & HP)].
    + apply Hf in He as [He | HP]; [auto | | left].
      right. exists x. split; [left | exact HP].
    + right. exists y. split; [right; exact Hy | exact HP].
    + intros g' y e' Hy. apply Hf. right. exact Hy.
Qed.

Lemma NoDup_fmap_inj {A B} (f : A -> B) (l : list A) (x y : A) :
  NoDup (f <$> l) -> x ∈ l -> y ∈ l -> f x = f y -> x = y.
Proof.
  induction l as [| a l IH]; intros Hnd Hx Hy Heq; [inversion Hx |].
  rewrite fmap_cons in Hnd. apply NoDup_cons in Hnd as [Ha Hnd].
  apply elem_of_cons in Hx as [-> | Hx]; apply elem_of_cons in Hy as [-> | Hy].
  - reflexivity.
  - exfalso. apply Ha. rewrite Heq. apply list_elem_of_fmap. eauto.
  - exfalso. apply Ha. rewrite <- Heq. apply list_elem_of_fmap. eauto.
  - apply IH; assumption.
Qed.

Lemma edges_runtimeNodes (releases : list ReleaseInfoV2) :
  Dag.edges (runtimeNodes releases) = [].
Proof.
  unfold runtimeNodes.
  assert (H : forall g : Dag.AcyclicGraph string,
             Dag.edges (fold_left (fun g helmRelease => Dag.Add (riName helmRelease) g)
                          releases g) = Dag.edges g).
  { induction releases as [| r l IH]; intros g; simpl; [reflexivity |].
    rewrite IH. apply edges_Add. }
  rewrite H. reflexivity.
Qed.

(** An edge of the graph seeded from the live releases goes from a release
    to a name among its dependency values. *)
Lemma runtimeGraph_edge (releases : list ReleaseInfoV2) (a b : string) :
  (a, b) ∈ Dag.edges (runtimeGraph releases) ->
  exists r, r ∈ releases /\ riName r = a /\ b ∈ depValues (riDependencies r).
Proof.
  unfold runtimeGraph, runtimeEdges. intros He.
  apply (fold_edges _ (fun r e => e.1 = riName r /\ e.2 ∈ depValues (riDependencies r)))
    in He as [He | (r & Hr & Ha & Hb)].
  - rewrite edges_runtimeNodes in He. inversion He.
  - exists r. simpl in *. auto.
  - intros g r e _ He'.
    apply (fold_edges _ (fun v e => e = (riName r, v))) in He' as [He' | (v & Hv & ->)].
    + auto.
    + right. simpl. auto.
    + intros g' v e' _ He''. apply elem_of_edges_Connect in He'' as [-> | He'']; auto.
Qed.

Lemma buildReleaseRequest_Some (projectInfo : ProjectInfo) (name : string)
    (u : ReleaseRequestV2) :
  buildReleaseRequest projectInfo name = Some u ->
  exists info,
    info ∈ piReleases projectInfo /\ riName info = name /\
    rqName u = riName info /\ rqChartName u = riChartName info /\
    rqRepoName u = riRepoName info /\ rqChartVersion u = riChartVersion info /\
    rqDependencies u = riDependencies info.
Proof.
  unfold buildReleaseRequest.
  destruct (find _ (piReleases projectInfo)) as [r |] eqn:Ef; [| discriminate].
  intros [= <-]. apply find_some in Ef as [Hin Hn].
  apply String.eqb_eq in Hn. apply list_elem_of_In in Hin.
  exists r. simpl. auto 10.
Qed.

Section RuntimeFacts.

Variable C : Collab.

Lemma connectUpper_spec (releaseParams : ReleaseRequestV2) (todo : list ReleaseInfoV2) :
  forall g : Dag.AcyclicGraph string,
    (forall info, info ∈ todo ->
       exists subCharts,
         autoDeps C (riRepoName info) (riChartName info) (riChartVersion info)
           = Ok subCharts) ->
    exists g',
      connectUpper C releaseParams todo g = Ok g' /\
      forall e,
        e ∈ Dag.edges g' ->
        e ∈ Dag.edges g \/
        exists info subCharts,
          info ∈ todo /\ e = (riName info, rqName releaseParams) /\
          autoDeps C (riRepoName info) (riChartName info) (riChartVersion info)
            = Ok subCharts /\
          rqChartName releaseParams ∈ subCharts /\
          hasKey (riDependencies info) (rqChartName releaseParams) = false.
Proof.
  induction todo as [| r todo IH]; intros g Hknown; simpl.
  - exists g. auto.
  - destruct (Hknown r) as [subs Hsubs]; [left |]. rewrite Hsubs.
    match goal with
    | |- context [connectUpper C releaseParams todo ?g1] =>
        destruct (IH g1) as (g' & Hg' & He)
    end.
    { intros info Hin. apply Hknown. right. exact Hin. }
    exists g'. split; [exact Hg' |].
    intros e Hin. apply He in Hin as [Hin | (info & subs' & Hi & H)].
    + apply (fold_edges _
               (fun s e => e = (riName r, rqName releaseParams) /\
                           s = rqChartName releaseParams /\
                           hasKey (riDependencies r) s = false))
        in Hin as [Hin | (s & Hs & -> & -> & Hk)].
      * auto.
      * right. exists r, subs. split; [left |]. auto.
      * intros g1 s e1 _ He1.
        destruct (String.eqb s (rqChartName releaseParams)) eqn:Es; simpl in He1; [| auto].
        destruct (hasKey (riDependencies r) s) eqn:Ek; simpl in He1; [auto |].
        apply String.eqb_eq in Es.
        apply elem_of_edges_Connect in He1 as [-> | He1]; auto.
    + right. exists info, subs'. split; [right; exact Hi | exact H].
Qed.

Lemma connectDown_spec (releaseParams : ReleaseRequestV2) (releases : list ReleaseInfoV2)
    (releaseSubCharts : list string) (g : Dag.AcyclicGraph string) (e : string * string) :
  e ∈ Dag.edges (connectDown releaseParams releases releaseSubCharts g) ->
  e ∈ Dag.edges g \/
  exists s info,
    s ∈ releaseSubCharts /\ info ∈ releases /\
    hasKey (rqDependencies releaseParams) s = false /\
    riChartName info = s /\
    e = (rqName releaseParams, riName info).
Proof.
  unfold connectDown. intros He.
  apply (fold_edges _
           (fun s e => exists info,
                info ∈ releases /\ hasKey (rqDependencies releaseParams) s = false /\
                riChartName info = s /\ e = (rqName releaseParams, riName info)))
    in He as [He | (s & Hs & info & H)].
  - auto.
  - right. exists s, info. tauto.
  - intros g1 s e1 _ He1.
    destruct (hasKey (rqDependencies releaseParams) s) eqn:Ek; [auto |].
    apply (fold_edges _
             (fun info e => riChartName info = s /\ e = (rqName releaseParams, riName info)))
      in He1 as [He1 | (info & Hi & Hc & ->)].
    + auto.
    + right. exists info. auto.
    + intros g2 info e2 _ He2.
      destruct (String.eqb s (riChartName info)) eqn:Es; [| auto].
      apply String.eqb_eq in Es.
      apply elem_of_edges_Connect in He2 as [-> | He2]; auto.
Qed.

End RuntimeFacts.

(** C4, as stated, fails: release b already maps chart zk to release a when
    release a is upgraded.  The graph has the edge from b to a, b is
    returned as affected, and b did list the incoming chart before. *)
Lemma add_affected_counterexample :
  exists affected incoming U,
    brainFuckRuntimeDepParse (Scenario.quiet true [] Scenario.subsKafka None)
      Scenario.projectS4 (Scenario.request "a" "zk" None) false = Ok (affected, incoming) /\
    U ∈ affected /\
    ~ addAffectedAsStated (Scenario.quiet true [] Scenario.subsKafka None)
        Scenario.projectS4 (Scenario.request "a" "zk" None) U.
Proof.
  exists [Scenario.request "b" "kafka" (Some {[ "zk" := "a" ]})],
    (Scenario.request "a" "zk" None),
    (Scenario.request "b" "kafka" (Some {[ "zk" := "a" ]})).
  split; [vm_compute; reflexivity |]. split; [left |].
  intros (info & Hin & Hname & _ & Hk & _).
  simpl in Hin. apply elem_of_cons in Hin as [-> | Hin]; [discriminate Hname |].
  apply list_elem_of_singleton in Hin. subst info.
  vm_compute in Hk. discriminate Hk.
Qed.

(** C4, amended: for an add or upgrade invocation on a project whose
    release names are pairwise distinct, the chart runtime answering, every
    release U in the returned affected list is the projection of a live
    release that is a parent of the incoming release in the graph: it
    already lists the incoming release's name among its dependency values,
    or its chart declares a subchart equal to the incoming chart name and its
    dependencies map has no entry for it, or it bears the incoming release's
    own name and the incoming chart declares its chart as a subchart the
    incoming release does not list.  After the call U's dependencies map has
    an entry keyed by the incoming chart name: {incoming.chartName:
    incoming.name} when it had none before, its previous entry otherwise. *)
Theorem add_affected (C : Collab) (projectInfo : ProjectInfo)
    (releaseParams : ReleaseRequestV2) :
  NoDup (riName <$> piReleases projectInfo) ->
  runtimeKnown C projectInfo releaseParams ->
  exists affected incoming,
    brainFuckRuntimeDepParse C projectInfo releaseParams false = Ok (affected, incoming) /\
    forall U, U ∈ affected ->
      exists info,
        info ∈ piReleases projectInfo /\
        rqName U = riName info /\ rqChartName U = riChartName info /\
        (rqName releaseParams ∈ depValues (riDependencies info) \/
         (exists subCharts,
            autoDeps C (riRepoName info) (riChartName info) (riChartVersion info)
              = Ok subCharts /\
            rqChartName releaseParams ∈ subCharts /\
            hasKey (riDependencies info) (rqChartName releaseParams) = false) \/
         (riName info = rqName releaseParams /\
          exists subCharts,
            autoDeps C (rqRepoName releaseParams) (rqChartName releaseParams)
              (rqChartVersion releaseParams) = Ok subCharts /\
            riChartName info ∈ subCharts /\
            hasKey (rqDependencies releaseParams) (riChartName info) = false)) /\
        (if hasKey (riDependencies info) (rqChartName releaseParams)
         then rqDependencies U = riDependencies info
         else rqDependencies U =
                Some (<[rqChartName releaseParams := rqName releaseParams]>
                        (default ∅ (riDependencies info)))) /\
        hasKey (rqDependencies U) (rqChartName releaseParams) = true.
Proof.
  intros Hnd [Hknown [rsubs Hrsubs]].
  unfold brainFuckRuntimeDepParse. simpl negb. cbv iota.
  destruct (connectUpper_spec C releaseParams (piReleases projectInfo)
              (Dag.Add (rqName releaseParams) (runtimeGraph (piReleases projectInfo)))
              Hknown) as (g4 & Hg4 & He4).
  rewrite Hg4, Hrsubs. eexists _, _. split; [reflexivity |].
  intros U HU. unfold rewireUpper in HU.
  rewrite (fold_affect
             (fun upperReleaseName =>
                match buildReleaseRequest projectInfo upperReleaseName with
                | None => None
                | Some upperRelease =>
                    Some (if negb (hasKey (rqDependencies upperRelease)
                                     (rqChartName releaseParams))
                          then withRqDependencies upperRelease
                                 (setKeyInit (rqDependencies upperRelease)
                                    (rqChartName releaseParams) (rqName releaseParams))
                          else upperRelease)
                end)) in HU
    by (intros acc x; destruct (buildReleaseRequest projectInfo x); reflexivity).
  simpl in HU. apply list_elem_of_omap in HU as (upper & Hupper & Hstep).
  destruct (buildReleaseRequest projectInfo upper) as [u |] eqn:Eb; [| discriminate].
  injection Hstep as HU.
  apply buildReleaseRequest_Some in Eb as (info & Hin & Hname & Hn & Hc & _ & _ & Hd).
  exists info. split; [exact Hin |].
  assert (HUn : rqName U = riName info /\ rqChartName U = riChartName info).
  { subst U. destruct (negb _); simpl; auto. }
  destruct HUn as [HUn HUc]. split; [exact HUn |]. split; [exact HUc |]. split.
  - apply elem_of_listed, elem_of_UpEdges in Hupper. apply connectDown_spec in Hupper
      as [Hupper | (s & info' & Hs & Hin' & Hk & Hch & [= Hu1 Hu2])].
    + apply He4 in Hupper as [Hupper | (info' & subs & Hin' & [= Hu1] & Ha & Hs & Hk)].
      * rewrite edges_Add in Hupper.
        apply runtimeGraph_edge in Hupper as (r & Hr & Hrn & Hv).
        assert (r = info)
          by (apply (NoDup_fmap_inj riName (piReleases projectInfo)); congruence).
        subst r. left. exact Hv.
      * assert (info' = info)
          by (apply (NoDup_fmap_inj riName (piReleases projectInfo)); congruence).
        subst info'. right. left. exists subs. auto.
    + assert (info' = info)
        by (apply (NoDup_fmap_inj riName (piReleases projectInfo)); congruence).
      subst info'. right. right. split; [congruence |].
      exists rsubs. subst s. auto.
  - rewrite Hd in HU.
    destruct (hasKey (riDependencies info) (rqChartName releaseParams)) eqn:Ek;
      simpl in HU; subst U.
    + split; [exact Hd | rewrite Hd; exact Ek].
    + simpl. split; [reflexivity |].
      apply bool_decide_eq_true. unfold setKeyInit. rewrite lookup_insert_eq. eauto.
Qed.

Lemma add_affected_witness :
  exists affected incoming,
    brainFuckRuntimeDepParse (Scenario.quiet true [] Scenario.subsS3 None)
      Scenario.projectS3 (Scenario.request "hdfs" "hdfs" None) false
      = Ok (affected, incoming) /\
    forall U, U ∈ affected ->
      hasKey (rqDependencies U) "hdfs" = true.
Proof.
  destruct (add_affected (Scenario.quiet true [] Scenario.subsS3 None)
              Scenario.projectS3 (Scenario.request "hdfs" "hdfs" None))
    as (affected & incoming & Hrun & Hall).
  - simpl. apply NoDup_singleton.
  - split; [intros info _ | ]; eexists; reflexivity.
  - exists affected, incoming. split; [exact Hrun |].
    intros U HU. destruct (Hall U HU) as (info & _ & _ & _ & _ & _ & Hk). exact Hk.
Defined.

(** C5: for a remove invocation on a project whose release names are
    pairwise distinct, every release U in the returned affected list is the
    projection of a live release that listed the outgoing release's name
    among its dependency values, and after the call U's dependencies map has
    no entry keyed by the outgoing release's chart name: the deletion is
    keyed by chart name, and every other entry is kept. *)
Theorem remove_affected (C : Collab) (projectInfo : ProjectInfo)
    (releaseParams : ReleaseRequestV2) :
  NoDup (riName <$> piReleases projectInfo) ->
  exists affected,
    brainFuckRuntimeDepParse C projectInfo releaseParams true
      = Ok (affected, releaseParams) /\
    forall U, U ∈ affected ->
      exists info,
        info ∈ piReleases projectInfo /\
        rqName U = riName info /\ rqChartName U = riChartName info /\
        rqName releaseParams ∈ depValues (riDependencies info) /\
        hasKey (rqDependencies U) (rqChartName releaseParams) = false /\
        (forall k, k <> rqChartName releaseParams ->
                   getKey (rqDependencies U) k = getKey (riDependencies info) k).
Proof.
  intros Hnd. unfold brainFuckRuntimeDepParse. simpl negb. cbv iota.
  eexists. split; [reflexivity |].
  intros U HU. unfold unwireUpper in HU.
  rewrite (fold_affect
             (fun upperReleaseName =>
                match buildReleaseRequest projectInfo upperReleaseName with
                | None => None
                | Some upperRelease =>
                    Some (withRqDependencies upperRelease
                            (DeleteReleaseDependency (rqDependencies upperRelease)
                               (rqChartName releaseParams)))
                end)) in HU
    by (intros acc x; destruct (buildReleaseRequest projectInfo x); reflexivity).
  simpl in HU. apply list_elem_of_omap in HU as (upper & Hupper & Hstep).
  destruct (buildReleaseRequest projectInfo upper) as [u |] eqn:Eb; [| discriminate].
  injection Hstep as <-.
  apply buildReleaseRequest_Some in Eb as (info & Hin & Hname & Hn & Hc & _ & _ & Hd).
  exists info. split; [exact Hin |]. simpl.
  split; [exact Hn |]. split; [exact Hc |].
  apply elem_of_listed, elem_of_UpEdges in Hupper.
  apply runtimeGraph_edge in Hupper as (r & Hr & Hrn & Hv).
  assert (r = info)
    by (apply (NoDup_fmap_inj riName (piReleases projectInfo)); congruence).
  subst r. split; [exact Hv |]. rewrite Hd.
  destruct (riDependencies info) as [d |]; simpl.
  - split.
    + apply bool_decide_eq_false. rewrite lookup_delete_eq. intros [x Hx]. discriminate.
    + intros k Hk. apply lookup_delete_ne. congruence.
  - auto.
Qed.

Lemma remove_affected_witness :
  exists affected,
    brainFuckRuntimeDepParse (Scenario.quiet true [] Scenario.noSubs None)
      Scenario.projectS4 (Scenario.request "a" "zk" None) true
      = Ok (affected, Scenario.request "a" "zk" None) /\
    forall U, U ∈ affected -> hasKey (rqDependencies U) "zk" = false.
Proof.
  destruct (remove_affected (Scenario.quiet true [] Scenario.noSubs None)
              Scenario.projectS4 (Scenario.request "a" "zk" None))
    as (affected & Hrun & Hall).
  - simpl. apply NoDup_cons. split; [| apply NoDup_singleton].
    intros H. apply list_elem_of_singleton in H. discriminate H.
  - exists affected. split; [exact Hrun |].
    intros U HU. destruct (Hall U HU) as (info & _ & _ & _ & _ & Hk & _). exact Hk.
Defined.

(** The runtime resolver returns whenever the chart runtime answers. *)
Lemma runtime_parse_total (C : Collab) (projectInfo : ProjectInfo)
    (releaseParams : ReleaseRequestV2) (isRemove : bool) :
  runtimeKnown C projectInfo releaseParams ->
  exists r, brainFuckRuntimeDepParse C projectInfo releaseParams isRemove = Ok r.
Proof.
  intros [Hknown [rsubs Hrsubs]]. unfold brainFuckRuntimeDepParse.
  destruct isRemove; simpl negb; cbv iota.
  - eexists. reflexivity.
  - destruct (connectUpper_spec C releaseParams (piReleases projectInfo)
                (Dag.Add (rqName releaseParams) (runtimeGraph (piReleases projectInfo)))
                Hknown) as (g4 & Hg4 & _).
    rewrite Hg4, Hrsubs. eexists. reflexivity.
Qed.

(** C10: the walk callback writes [releaseRequest.Dependencies[chartName] =
    name] with no nil-map guard.  On the bundle of scenario S5 with the
    dependencies maps left nil, release x acquires the inferred child y and
    the resolver panics, whatever the scheduler does.  In general, when the
    chart runtime answers and the inferred edges form a DAG with a unique
    root, the resolver panics iff some release that acquires an inferred
    child has a nil dependencies map: it is total exactly under the
    precondition that every such release has a non-nil map.  The runtime
    resolver, which creates a nil map before it writes, returns whenever the
    chart runtime answers. *)
Theorem chart_parse_nil_map_panics :
  (forall sched,
     brainFuckChartDepParse (Scenario.quiet true [] Scenario.subsS5 None) sched
       Scenario.paramsS5nil = Panic) /\
  (forall (C : Collab) (sched : list ptr -> nat) (projectParams : ProjectParams),
     chartsKnown C (Releases projectParams) ->
     (exists rank : ptr -> nat,
        forall a b, inferred C (Releases projectParams) a b -> (rank b < rank a)%nat) ->
     (exists root,
        (root < length (Releases projectParams))%nat /\
        forall p, (p < length (Releases projectParams))%nat ->
          (p = root <-> forall q, ~ inferred C (Releases projectParams) q p)) ->
     (brainFuckChartDepParse C sched projectParams = Panic <->
      exists a b ra,
        inferred C (Releases projectParams) a b /\
        Releases projectParams !! a = Some ra /\
        rqDependencies ra = None)) /\
  (forall (C : Collab) (projectInfo : ProjectInfo) (releaseParams : ReleaseRequestV2)
          (isRemove : bool),
     runtimeKnown C projectInfo releaseParams ->
     exists affected incoming,
       brainFuckRuntimeDepParse C projectInfo releaseParams isRemove
         = Ok (affected, incoming)).
Proof.
  split; [| split].
  - intros sched.
    apply (chart_parse_panics _ sched Scenario.paramsS5nil 0%nat 1%nat
             (Scenario.request "x" "x" None)).
    + intros r _. eexists. reflexivity.
    + exists (fun p => match p with O => 1%nat | _ => 0%nat end).
      intros a b H. apply inferred_S5 in H as [-> ->]. simpl. lia.
    + apply root_S5. reflexivity.
    + apply inferred_S5_edge. reflexivity.
    + reflexivity.
    + reflexivity.
  - intros C sched projectParams Hknown Hrank Hroot. split.
    + intros Hpanic.
      destruct (chartGraph_spec C (Releases projectParams) Hknown) as (g & _ & Hv & He).
      destruct (existsb (nilParent (Releases projectParams) g)
                  (seq 0 (length (Releases projectParams)))) eqn:Ex.
      * apply existsb_exists in Ex as (a & _ & Ha). unfold nilParent in Ha.
        destruct (Releases projectParams !! a) as [ra |] eqn:Era; [| discriminate].
        apply andb_true_iff in Ha as [Hc Hd].
        apply bool_decide_eq_true in Hc. apply bool_decide_eq_true in Hd.
        destruct (Dag.DownEdges g a) as [| b bs] eqn:Ed; [congruence |].
        exists a, b, ra. split; [| auto].
        apply He. apply elem_of_DownEdges. rewrite Ed. left.
      * exfalso.
        destruct (chart_parse_ok C sched projectParams Hknown Hrank Hroot)
          as (heap & out & Hrun & _).
        { intros a b ra Hab Hra Hnil.
          assert (Hn : nilParent (Releases projectParams) g a = true).
          { unfold nilParent. rewrite Hra.
            assert (Hc : b ∈ Dag.DownEdges g a) by (apply elem_of_DownEdges, He; exact Hab).
            rewrite !bool_decide_eq_true_2; [reflexivity | exact Hnil |].
            intros Hn. rewrite Hn in Hc. inversion Hc. }
          assert (Hf : existsb (nilParent (Releases projectParams) g)
                         (seq 0 (length (Releases projectParams))) = true).
          { apply existsb_exists. exists a. split; [| exact Hn].
            apply in_seq. apply lookup_lt_Some in Hra. lia. }
          congruence. }
        congruence.
    + intros (a & b & ra & Hab & Hra & Hnil).
      apply (chart_parse_panics C sched projectParams a b ra); assumption.
  - intros C projectInfo releaseParams isRemove Hknown.
    destruct (runtime_parse_total C projectInfo releaseParams isRemove Hknown)
      as [[affected incoming] Hrun].
    exists affected, incoming. exact Hrun.
Qed.

Lemma chart_parse_nil_map_panics_witness :
  brainFuckChartDepParse (Scenario.quiet true [] Scenario.subsS5 None)
    Scenario.firstReady Scenario.paramsS5nil = Panic.
Proof.
  apply (proj1 (proj2 chart_parse_nil_map_panics)
           (Scenario.quiet true [] Scenario.subsS5 None)
           Scenario.firstReady Scenario.paramsS5nil).
  - intros r _. eexists. reflexivity.
  - exists (fun p => match p with O => 1%nat | _ => 0%nat end).
    intros a b H. apply inferred_S5 in H as [-> ->]. simpl. lia.
  - apply root_S5. reflexivity.
  - exists 0%nat, 1%nat, (Scenario.request "x" "x" None).
    split; [apply inferred_S5_edge; reflexivity |]. split; reflexivity.
Defined.

(** ** Further properties of the project manager *)

Lemma validate_Ok_Some (C : Collab) (namespace name : string) (allow : bool) (w : World)
    (c : ProjectCache) :
  validateProjectTask C namespace name allow w = Ok (Some c) ->
  GetProjectCache C namespace name w = Ok c.
Proof.
  unfold validateProjectTask.
  destruct (GetProjectCache C namespace name w) as [c' | e |]; [| | discriminate].
  - destruct (finishedOrTimeout C c'); simpl; [| discriminate]. congruence.
  - destruct (negb (IsNotFoundError e)); [discriminate |].
    destruct (negb allow); discriminate.
Qed.

(** What a mutating operation can have done when it returns. *)
Lemma runOp_cases (C : Collab) (op : Operation) (w : World) :
  runOp C op w = (w, snd (runOp C op w)) \/
  (exists sig msg,
     send C (taskOf op) = Ok sig /\
     putFault C (entryOf op sig) = Some msg /\
     runOp C op w = (orphaned w (taskOf op), Err (ErrExternal msg))) \/
  (exists sig,
     send C (taskOf op) = Ok sig /\
     putFault C (entryOf op sig) = None /\
     caches (fst (runOp C op w))
       = <[(opNamespace op, opProject op) := entryOf op sig]> (caches w) /\
     cacheWrites (fst (runOp C op w)) = cacheWrites w ++ [entryOf op sig] /\
     submitted (fst (runOp C op w)) = submitted w ++ [taskOf op] /\
     (purged (fst (runOp C op w)) = purged w \/
      exists old,
        GetProjectCache C (opNamespace op) (opProject op) w = Ok old /\
        purgeFault C (LatestTaskSignature old) = None /\
        purged (fst (runOp C op w)) = purged w ++ [LatestTaskSignature old]) /\
     returned (runOp C op w)
       = if opAsync op then None
         else await C sig (secondsToDuration (effectiveTimeout op))).
Proof.
  destruct op; simpl;
    unfold CreateProject, DeleteProject, AddReleasesInProject,
      UpgradeReleaseInProject, RemoveReleaseInProject,
      bind, validate, fail, ret, SendTask, CreateOrUpdateProjectCache,
      PurgeTaskState, GetWithTimeout, entryOf, effectiveTimeout, orphaned, returned;
    simpl.
  all: split_run; auto.
  all: try (right; left; eexists _, _; split; [reflexivity |]; split;
            [eassumption | reflexivity]).
  all: right; right; eexists; split; [reflexivity |]; split; [eassumption |];
    simpl; repeat split; auto.
  all: right; eexists; split; [eapply validate_Ok_Some; eassumption |];
    split; [eassumption | reflexivity].
Qed.

Lemma busy_blocks (C : Collab) (op : Operation) (w : World) (c : ProjectCache) :
  GetProjectCache C (opNamespace op) (opProject op) w = Ok c ->
  finishedOrTimeout C c = false ->
  opEmptyBundle op = false ->
  runOp C op w = (w, Err (ErrNew (busyMessage (LatestTaskSignature c)))).
Proof.
  intros Hg Hf He.
  assert (Hv : forall allow,
             validateProjectTask C (opNamespace op) (opProject op) allow w
             = Err (ErrNew (busyMessage (LatestTaskSignature c))))
    by (intros; apply validate_busy; assumption).
  destruct op; simpl in *.
  - unfold CreateProject. rewrite He. unfold bind, validate. rewrite Hv. reflexivity.
  - unfold DeleteProject. rewrite Hv. reflexivity.
  - unfold AddReleasesInProject. rewrite He. unfold bind, validate. rewrite Hv. reflexivity.
  - unfold UpgradeReleaseInProject. rewrite Hv. reflexivity.
  - unfold RemoveReleaseInProject. rewrite Hv. reflexivity.
Qed.

Lemma snoc_neq {A} (l : list A) (x : A) : l ++ [x] <> l.
Proof.
  intros H. apply (f_equal length) in H. rewrite length_app in H. simpl in H. lia.
Qed.

(** When an operation has written the cache, the entry is the one built
    from the broker's signature, and it is what the store now holds. *)
Lemma written_entry (C : Collab) (op : Operation) (w : World) :
  cacheWrites (fst (runOp C op w)) <> cacheWrites w ->
  exists sig,
    send C (taskOf op) = Ok sig /\
    cacheWrites (fst (runOp C op w)) = cacheWrites w ++ [entryOf op sig] /\
    caches (fst (runOp C op w))
      = <[(opNamespace op, opProject op) := entryOf op sig]> (caches w).
Proof.
  intros Hw.
  destruct (runOp_cases C op w) as [H | [(sig & msg & _ & _ & H) | (sig & Hs & _ & Hc & Hcw & _)]].
  - rewrite H in Hw. simpl in Hw. congruence.
  - rewrite H in Hw. simpl in Hw. congruence.
  - exists sig. auto.
Qed.

(** X1: a store that cannot be read stops every mutating operation: when the
    cache lookup fails with an error other than NotFound, the operation (its
    bundle not empty) returns that very error and leaves the world as it
    was. *)
Theorem store_error_propagates (C : Collab) (op : Operation) (w : World) (msg : string) :
  getFault C (opNamespace op) (opProject op) = Some msg ->
  opEmptyBundle op = false ->
  runOp C op w = (w, Err (ErrExternal msg)).
Proof.
  intros Hg He.
  assert (Hv : forall allow,
             validateProjectTask C (opNamespace op) (opProject op) allow w
             = Err (ErrExternal msg)).
  { intros allow. unfold validateProjectTask, GetProjectCache. rewrite Hg. reflexivity. }
  destruct op; simpl in *.
  - unfold CreateProject. rewrite He. unfold bind, validate. rewrite Hv. reflexivity.
  - unfold DeleteProject. rewrite Hv. reflexivity.
  - unfold AddReleasesInProject. rewrite He. unfold bind, validate. rewrite Hv. reflexivity.
  - unfold UpgradeReleaseInProject. rewrite Hv. reflexivity.
  - unfold RemoveReleaseInProject. rewrite Hv. reflexivity.
Qed.

Lemma store_error_propagates_witness :
  runOp (Scenario2.storeUnreadable (Scenario.quiet true [] Scenario.noSubs None) "redis down")
    (OpDelete "t1" "p1" true 0 false) Scenario.worldP1
  = (Scenario.worldP1, Err (ErrExternal "redis down")).
Proof.
  apply (store_error_propagates
           (Scenario2.storeUnreadable (Scenario.quiet true [] Scenario.noSubs None)
              "redis down")
           (OpDelete "t1" "p1" true 0 false) Scenario.worldP1 "redis down");
    reflexivity.
Defined.


(** X3: a mutating operation touches no other project: the store entry of
    every key other than the operation's (namespace, name) is as it was. *)
Theorem other_projects_untouched (C : Collab) (op : Operation) (w : World)
    (k : string * string) :
  k <> (opNamespace op, opProject op) ->
  caches (fst (runOp C op w)) !! k = caches w !! k.
Proof.
  intros Hk.
  destruct (runOp_cases C op w) as [H | [(sig & msg & _ & _ & H) | (sig & _ & _ & H & _)]].
  - rewrite H. reflexivity.
  - rewrite H. reflexivity.
  - rewrite H. apply lookup_insert_ne. congruence.
Qed.

Lemma other_projects_untouched_witness :
  caches (fst (runOp (Scenario.quiet true [] Scenario.noSubs None)
                 (OpCreate "t1" "p2" Scenario.paramsS1 true 0) Scenario.worldP1))
    !! ("t1", "p1")
  = caches Scenario.worldP1 !! ("t1", "p1").
Proof.
  apply (other_projects_untouched (Scenario.quiet true [] Scenario.noSubs None)
           (OpCreate "t1" "p2" Scenario.paramsS1 true 0) Scenario.worldP1 ("t1", "p1")).
  simpl. intros H. inversion H.
Defined.

(** X4: a failure of PurgeTaskState never fails an operation: whatever the
    broker answers to the purge, the operation returns the same result and
    leaves the same store, the same cache writes and the same submissions. *)
Theorem purge_failure_swallowed (C : Collab) (f : TaskSignature -> option string)
    (op : Operation) (w : World) :
  snd (runOp (withPurgeFault C f) op w) = snd (runOp C op w) /\
  caches (fst (runOp (withPurgeFault C f) op w)) = caches (fst (runOp C op w)) /\
  cacheWrites (fst (runOp (withPurgeFault C f) op w)) = cacheWrites (fst (runOp C op w)) /\
  submitted (fst (runOp (withPurgeFault C f) op w)) = submitted (fst (runOp C op w)).
Proof.
  assert (Hv : forall ns n allow,
             validateProjectTask (withPurgeFault C f) ns n allow w
             = validateProjectTask C ns n allow w) by reflexivity.
  assert (Hb : forall o, buildProjectInfoOf (withPurgeFault C f) o = buildProjectInfoOf C o)
    by (intros [c |]; reflexivity).
  destruct op; simpl;
    unfold CreateProject, DeleteProject, AddReleasesInProject,
      UpgradeReleaseInProject, RemoveReleaseInProject;
    try (destruct (Nat.eqb (length (Releases projectParams)) 0); [simpl; auto |]);
    unfold bind, validate, fail, ret, SendTask, CreateOrUpdateProjectCache,
      PurgeTaskState, GetWithTimeout;
    cbv beta; rewrite ?Hv;
    repeat (rewrite ?Hb; case_match; simplify_eq/=); auto.
Qed.

(** X5: single flight across two calls.  Once an operation has written the
    cache, and as long as the store can be read and the task it submitted is
    neither finished nor timed out, every further mutating operation on the
    same (namespace, name) with a non-empty bundle fails with the busy error
    that carries the signature the broker issued to the first, and changes
    nothing. *)
Theorem busy_after_write (C : Collab) (op1 op2 : Operation) (w : World)
    (sig : TaskSignature) :
  cacheWrites (fst (runOp C op1 w)) <> cacheWrites w ->
  send C (taskOf op1) = Ok sig ->
  getFault C (opNamespace op1) (opProject op1) = None ->
  finishedOrTimeout C (entryOf op1 sig) = false ->
  opNamespace op2 = opNamespace op1 ->
  opProject op2 = opProject op1 ->
  opEmptyBundle op2 = false ->
  runOp C op2 (fst (runOp C op1 w))
    = (fst (runOp C op1 w),
       Err (ErrNew ("please wait for the project latest task " +:+ sigName sig
                      +:+ "-" +:+ sigUUID sig +:+ " finished or timeout"))).
Proof.
  intros Hw Hs Hg Hf Hns Hp He.
  destruct (written_entry C op1 w Hw) as (sig' & Hs' & _ & Hc).
  assert (sig' = sig) by congruence. subst sig'.
  apply (busy_blocks C op2 (fst (runOp C op1 w)) (entryOf op1 sig)); [| exact Hf | exact He].
  unfold GetProjectCache. rewrite Hns, Hp, Hg, Hc, lookup_insert_eq. reflexivity.
Qed.

Lemma busy_after_write_witness :
  runOp (Scenario.quiet false [] Scenario.noSubs None) Scenario2.createS1
    (fst (runOp (Scenario.quiet false [] Scenario.noSubs None) Scenario2.createS1
            Scenario.emptyWorld))
  = (fst (runOp (Scenario.quiet false [] Scenario.noSubs None) Scenario2.createS1
            Scenario.emptyWorld),
     Err (ErrNew "please wait for the project latest task create-project-u-2 finished or timeout")).
Proof.
  apply (busy_after_write (Scenario.quiet false [] Scenario.noSubs None)
           Scenario2.createS1 Scenario2.createS1 Scenario.emptyWorld Scenario.sig1);
    try reflexivity.
  vm_compute. discriminate.
Defined.



(** X7: when buildProjectInfo returns, the project is reported ready exactly
    when it has at least one release, every release is ready, and the latest
    task state is nil, unnamed or a success. *)
Theorem project_ready_iff (C : Collab) (projectCache : ProjectCache) (info : ProjectInfo) :
  buildProjectInfo C projectCache = Ok info ->
  (piReady info = true <->
   piReleases info <> [] /\
   (forall r, r ∈ piReleases info -> riReady r = true) /\
   match latestTaskState C projectCache with
   | None => True
   | Some ts => TaskName ts = "" \/ State ts = Success
   end).
Proof.
  unfold buildProjectInfo.
  destruct (listReleases C _ _) as [releases | |]; try discriminate.
  assert (Hrel : (isProjectReadyByReleases releases).1 = true <->
                 releases <> [] /\ forall r, r ∈ releases -> riReady r = true).
  { unfold isProjectReadyByReleases. destruct releases as [| r0 rest].
    - simpl. split; [discriminate | intros [H _]; congruence].
    - destruct (firstNotReady (r0 :: rest)) as [r |] eqn:E; simpl.
      + split; [discriminate |]. intros [_ H]. apply firstNotReady_None in H. congruence.
      + split; [| reflexivity]. intros _. split; [discriminate |].
        apply firstNotReady_None. exact E. }
  destruct (latestTaskState C projectCache) as [ts |].
  - destruct (String.eqb (TaskName ts) "") eqn:En.
    + apply String.eqb_eq in En.
      destruct (isProjectReadyByReleases releases) as [ready message].
      intros [= <-]. simpl in *. rewrite Hrel. tauto.
    + apply String.eqb_neq in En. unfold IsSuccess, IsFailure.
      destruct (State ts) eqn:Es;
        try destruct (isProjectReadyByReleases releases) as [ready message];
        intros [= <-]; simpl in *.
      * split; [discriminate | intros (_ & _ & [H | H]); congruence].
      * split; [discriminate | intros (_ & _ & [H | H]); congruence].
      * rewrite Hrel. tauto.
      * split; [discriminate | intros (_ & _ & [H | H]); congruence].
  - destruct (isProjectReadyByReleases releases) as [ready message].
    intros [= <-]. simpl in *. rewrite Hrel. tauto.
Qed.

Lemma project_ready_iff_witness :
  exists info,
    buildProjectInfo (Scenario.quiet true [Scenario.live "a" "zk" None] Scenario.noSubs None)
      Scenario.cacheP1 = Ok info /\
    piReady info = true.
Proof.
  eexists. split; [reflexivity |].
  apply (project_ready_iff
           (Scenario.quiet true [Scenario.live "a" "zk" None] Scenario.noSubs None)
           Scenario.cacheP1); [reflexivity |].
  split; [discriminate |]. split; [| exact I].
  intros r Hr. apply list_elem_of_singleton in Hr. subst r. reflexivity.
Defined.

(** ** Further properties of the chart-time resolver *)

Section WalkSound.

Context {V : Type} `{EqDecision V} {S : Type}.
Variable sched : list V -> nat.
Variable g : Dag.AcyclicGraph V.
Variable cb : V -> S -> result S.
Variable Inv : list V -> S -> Prop.

Hypothesis Hkeep :
  forall v done s s1,
    Inv done s -> v ∈ Dag.vertices g -> v ∉ done -> Dag.ready g done v = true ->
    cb v s = Ok s1 ->
    Inv (v :: done) s1.

(** Whatever the graph, a walk that returns has visited every pending
    vertex once, each when it was ready. *)
Lemma walkLoop_sound (fuel : nat) :
  forall (pending done : list V) (s s' : S),
    NoDup pending ->
    (forall v, v ∈ pending -> v ∈ Dag.vertices g /\ v ∉ done) ->
    Inv done s ->
    Dag.walkLoop sched g cb fuel pending done s = Ok s' ->
    exists order, order ≡ₚ pending /\ Inv (rev order ++ done) s'.
Proof.
  induction fuel as [| fuel IH]; intros pending done s s' Hnd Hpend HI Hrun.
  - destruct pending; simpl in Hrun; [| discriminate].
    injection Hrun as <-. exists []. auto.
  - destruct pending as [| p0 pending0] eqn:Ep.
    { simpl in Hrun. injection Hrun as <-. exists []. auto. }
    rewrite <- Ep in *. assert (Hne : pending <> []) by (subst; discriminate).
    rewrite Ep in Hrun. cbn [Dag.walkLoop] in Hrun. rewrite <- Ep in Hrun.
    destruct (filter (fun v => Dag.ready g done v = true) pending) as [| r0 rs] eqn:Ef;
      [discriminate |].
    set (v := nth (sched (r0 :: rs)) (r0 :: rs) r0) in *.
    assert (Hv : v ∈ filter (fun v => Dag.ready g done v = true) pending).
    { rewrite Ef. apply nth_default_in. }
    apply list_elem_of_filter in Hv as [Hvr Hvp].
    destruct (Hpend v Hvp) as [Hvg Hvd].
    destruct (cb v s) as [s1 | e |] eqn:Hcb; try discriminate.
    destruct (IH (filter (fun x => x ≠ v) pending) (v :: done) s1 s')
      as (order & Hperm & HI').
    + apply NoDup_filter. exact Hnd.
    + intros u Hu. apply list_elem_of_filter in Hu as [Hne' Hu].
      destruct (Hpend u Hu) as [Hug Hud]. split; [exact Hug |].
      intros Hin. apply elem_of_cons in Hin as [-> | Hin]; [congruence | auto].
    + apply (Hkeep v done s s1); assumption.
    + exact Hrun.
    + exists (v :: order). split.
      * rewrite (filter_ne_perm pending v Hnd Hvp). constructor. exact Hperm.
      * simpl. rewrite <- app_assoc. exact HI'.
Qed.

Lemma Walk_sound (s s' : S) :
  NoDup (Dag.vertices g) ->
  Inv [] s ->
  Dag.Walk sched g cb s = Ok s' ->
  exists order, order ≡ₚ Dag.vertices g /\ Inv (rev order) s'.
Proof.
  intros Hnd HI Hrun. unfold Dag.Walk in Hrun.
  destruct (walkLoop_sound (length (Dag.vertices g)) (Dag.vertices g) [] s s' Hnd)
    as (order & Hperm & HI').
  - intros v Hv. split; [exact Hv |]. intros Hin. inversion Hin.
  - exact HI.
  - exact Hrun.
  - exists order. rewrite app_nil_r in HI'. auto.
Qed.

End WalkSound.

Lemma chartEdges_Ok_known (C : Collab) (m : gmap string ptr)
    (todo : list (ptr * ReleaseRequestV2)) :
  forall g g',
    chartEdges C m todo g = Ok g' ->
    forall p r, (p, r) ∈ todo ->
      exists subCharts,
        autoDeps C (rqRepoName r) (rqChartName r) (rqChartVersion r) = Ok subCharts.
Proof.
  induction todo as [| [p0 r0] todo IH]; intros g g' Hrun p r Hin.
  - inversion Hin.
  - simpl in Hrun.
    destruct (autoDeps C (rqRepoName r0) (rqChartName r0) (rqChartVersion r0))
      as [subs | |] eqn:Ea; try discriminate.
    apply elem_of_cons in Hin as [[= -> ->] | Hin]; [eauto |].
    eapply IH; eassumption.
Qed.

(** A graph the resolver has built is the graph of the inferred edges over
    the releases of the bundle. *)
Lemma chartGraph_Ok (C : Collab) (releases : list ReleaseRequestV2)
    (g : Dag.AcyclicGraph ptr) :
  chartGraph C releases = Ok g ->
  chartsKnown C releases /\
  Dag.vertices g = seq 0 (length releases) /\
  forall a b, (a, b) ∈ Dag.edges g <-> inferred C releases a b.
Proof.
  intros Hg.
  assert (Hknown : chartsKnown C releases).
  { intros r Hr. apply list_elem_of_lookup in Hr as [p Hp].
    apply (chartEdges_Ok_known C _ _ _ _ Hg p r). apply elem_of_indexed. exact Hp. }
  split; [exact Hknown |].
  destruct (chartGraph_spec C releases Hknown) as (g' & Hg' & Hv & He).
  assert (g' = g) by congruence. subst g'. auto.
Qed.

Lemma parse_Ok_inv (C : Collab) (sched : list ptr -> nat) (projectParams : ProjectParams)
    (heap : list ReleaseRequestV2) (out : list ptr) :
  brainFuckChartDepParse C sched projectParams = Ok (heap, out) ->
  exists g,
    chartGraph C (Releases projectParams) = Ok g /\
    Dag.Walk sched g (visit g) (Releases projectParams, []) = Ok (heap, out).
Proof.
  unfold brainFuckChartDepParse.
  destruct (chartGraph C (Releases projectParams)) as [g | |]; try discriminate.
  destruct (Dag.Root g); try discriminate. eauto.
Qed.

Lemma position_app (l1 l2 : list nat) (v : nat) :
  v ∉ l1 -> position v (l1 ++ v :: l2) = length l1.
Proof.
  induction l1 as [| x l1 IH]; intros Hnin; simpl.
  - rewrite decide_True by reflexivity. reflexivity.
  - rewrite decide_False.
    + rewrite IH; [reflexivity |]. intros H. apply Hnin. right. exact H.
    + intros ->. apply Hnin. left.
Qed.

Lemma before_position (l : list nat) (b a : nat) :
  NoDup l -> Dag.before l b a -> (position b l < position a l)%nat.
Proof.
  intros Hnd (l1 & l2 & l3 & ->).
  assert (Hb : b ∉ l1).
  { apply NoDup_app in Hnd as (_ & Hd & _). intros Hin. apply (Hd b Hin). left. }
  rewrite (position_app l1 _ b Hb).
  assert (Heq : l1 ++ b :: l2 ++ a :: l3 = (l1 ++ b :: l2) ++ a :: l3)
    by (rewrite <- app_assoc; reflexivity).
  rewrite Heq in Hnd |- *.
  assert (Ha : a ∉ l1 ++ b :: l2).
  { apply NoDup_app in Hnd as (_ & Hd & _). intros Hin. apply (Hd a Hin). left. }
  rewrite (position_app _ _ a Ha). rewrite length_app. simpl. lia.
Qed.

Lemma hasKey_false_getKey (m : option (gmap string string)) (k : string) :
  hasKey m k = false -> getKey m k = None.
Proof.
  destruct m as [d |]; simpl; [| reflexivity].
  intros H. apply bool_decide_eq_false in H.
  destruct (d !! k) eqn:E; [| reflexivity]. exfalso. apply H. eauto.
Qed.

(** What the inner loop of the walk callback leaves in the map when it
    returns. *)
Lemma absorbChildren_Ok (heap : list ReleaseRequestV2) (cs : list ptr) :
  forall d d',
    absorbChildren heap cs d = Ok d' ->
    (d <> None -> d' <> None) /\
    (forall k v,
       getKey d k = Some v ->
       (forall c rc, c ∈ cs -> heap !! c = Some rc -> rqChartName rc <> k) ->
       getKey d' k = Some v) /\
    (forall k v,
       getKey d' k = Some v ->
       getKey d k = Some v \/
       exists c rc, c ∈ cs /\ heap !! c = Some rc /\
                    k = rqChartName rc /\ v = rqName rc).
Proof.
  induction cs as [| c cs IH]; intros d d' Hrun.
  - simpl in Hrun. injection Hrun as <-. auto.
  - simpl in Hrun. destruct (heap !! c) as [rc |] eqn:Ec; [| discriminate].
    destruct d as [m |]; simpl in Hrun; [| discriminate].
    destruct (IH _ _ Hrun) as (Hnn & Hkeep & Horig).
    split; [intros _; apply Hnn; discriminate |]. split.
    + intros k v Hk Hfresh. apply Hkeep.
      * simpl in *. rewrite lookup_insert_ne; [exact Hk |].
        apply (Hfresh c rc); [left | exact Ec].
      * intros c' rc' Hc'. apply Hfresh. right. exact Hc'.
    + intros k v Hk. apply Horig in Hk as [Hk | (c' & rc' & Hc' & H)].
      * simpl in Hk. destruct (decide (rqChartName rc = k)) as [<- | Hne].
        -- rewrite lookup_insert_eq in Hk. injection Hk as <-.
           right. exists c, rc. split; [left | auto].
        -- rewrite lookup_insert_ne in Hk by exact Hne. left. exact Hk.
      * right. exists c', rc'. split; [right; exact Hc' | exact H].
Qed.

Section ChartSound.

Variable C : Collab.
Variable releases : list ReleaseRequestV2.
Variable g : Dag.AcyclicGraph ptr.

Hypothesis Hvertices : Dag.vertices g = seq 0 (length releases).
Hypothesis Hedges : forall a b, (a, b) ∈ Dag.edges g <-> inferred C releases a b.

Lemma visit_keeps (v : ptr) (done : list ptr) (s s1 : list ReleaseRequestV2 * list ptr) :
  walkInv releases g done s ->
  v ∈ Dag.vertices g -> v ∉ done -> Dag.ready g done v = true ->
  visit g v s = Ok s1 ->
  walkInv releases g (v :: done) s1.
Proof.
  intros HI Hv Hnd Hr Hrun.
  destruct (nilParent releases g v) eqn:En.
  - rewrite (visit_bad C releases g Hvertices Hedges v done s HI Hv Hnd Hr En) in Hrun.
    discriminate.
  - destruct (visit_good C releases g Hvertices Hedges v done s HI Hv Hnd Hr En)
      as (s' & Hs' & HI').
    congruence.
Qed.

Lemma visit_augments (v : ptr) (s s1 : list ReleaseRequestV2 * list ptr) :
  augmented releases g s ->
  visit g v s = Ok s1 ->
  augmented releases g s1.
Proof.
  intros [Hlen Hheap] Hrun. destruct s as [heap out]. simpl in Hlen, Hheap.
  unfold visit in Hrun. cbv beta iota in Hrun.
  destruct (heap !! v) as [r |] eqn:Er; [| discriminate].
  destruct (absorbChildren heap (Dag.DownEdges g v) (rqDependencies r))
    as [deps' | |] eqn:Ea; try discriminate.
  injection Hrun as <-.
  destruct (absorbChildren_Ok _ _ _ _ Ea) as (Hnn & Hkeep & Horig).
  assert (Hvlt : (v < length heap)%nat) by (apply lookup_lt_Some in Er; exact Er).
  split; [simpl; rewrite length_insert; exact Hlen |].
  intros p r0 Hp. simpl.
  destruct (Hheap p r0 Hp) as (rp & Hrp & Hn & Hc & Hrepo & Hver & Hnil & Hold & Hnew).
  destruct (decide (p = v)) as [-> | Hne].
  - assert (rp = r) by congruence. subst rp.
    exists (withRqDependencies r deps').
    split; [apply list_lookup_insert_eq; exact Hvlt |]. simpl.
    split; [exact Hn |]. split; [exact Hc |]. split; [exact Hrepo |].
    split; [exact Hver |]. split; [auto |]. split.
    + intros k x Hk. apply Hkeep; [apply Hold; exact Hk |].
      intros c rc Hcin Hrc Heq.
      apply elem_of_DownEdges in Hcin.
      pose proof Hcin as Hinf. apply Hedges in Hinf.
      destruct Hinf as (ra & subs & s & Hra & _ & _ & Hm & Hk0).
      assert (ra = r0) by congruence. subst ra.
      destruct (chartIndex_spec _ _ _ Hm) as (rc0 & Hrc0 & Hs).
      destruct (Hheap c rc0 Hrc0) as (rc' & Hrc' & _ & Hc' & _).
      assert (rc' = rc) by congruence. subst rc'.
      apply hasKey_false_getKey in Hk0. congruence.
    + intros k x Hk. apply Horig in Hk as [Hk | (c & rc & Hcin & Hrc & -> & ->)].
      * apply Hnew. exact Hk.
      * right. apply elem_of_DownEdges in Hcin.
        destruct (edge_child C releases g Hedges v c Hcin) as (rc0 & Hrc0 & _).
        destruct (Hheap c rc0 Hrc0) as (rc' & Hrc' & Hn' & Hc' & _).
        assert (rc' = rc) by congruence. subst rc'.
        exists c, rc0. auto.
  - exists rp. split; [rewrite list_lookup_insert_ne by congruence; exact Hrp |].
    auto 10.
Qed.

End ChartSound.

Lemma augmented_init (releases : list ReleaseRequestV2) (g : Dag.AcyclicGraph ptr) :
  augmented releases g (releases, []).
Proof.
  split; [reflexivity |]. intros p r0 Hp. exists r0. simpl. auto 10.
Qed.

(** X8: whenever the chart-time resolver returns, whatever the bundle and
    the schedule: the returned list is a permutation of the input releases;
    for every inferred pair (A, B) the child B comes before A and A's
    dependencies map maps B's chart to B's name; and the inferred edges are
    acyclic, the position in the returned list being a topological
    numbering. *)
Theorem chart_parse_sound (C : Collab) (sched : list ptr -> nat)
    (projectParams : ProjectParams) (heap : list ReleaseRequestV2) (out : list ptr) :
  brainFuckChartDepParse C sched projectParams = Ok (heap, out) ->
  out ≡ₚ seq 0 (length (Releases projectParams)) /\
  (forall a b,
     inferred C (Releases projectParams) a b ->
     Dag.before out b a /\
     exists ra rb,
       heap !! a = Some ra /\ heap !! b = Some rb /\
       getKey (rqDependencies ra) (rqChartName rb) = Some (rqName rb)) /\
  (forall a b,
     inferred C (Releases projectParams) a b ->
     (position b out < position a out)%nat).
Proof.
  intros Hrun. apply parse_Ok_inv in Hrun as (g & Hg & Hw).
  apply chartGraph_Ok in Hg as (Hknown & Hv & He).
  assert (Hnd : NoDup (Dag.vertices g)) by (rewrite Hv; apply NoDup_seq).
  destruct (Walk_sound sched g (visit g) (walkInv (Releases projectParams) g)
              (visit_keeps C _ g Hv He) _ _ Hnd (walkInv_init _ g) Hw)
    as (order & Hperm & HI).
  destruct HI as (Hout & Hlen & Hheap & Hord). simpl in Hout, Hlen, Hheap.
  rewrite rev_involutive in Hout, Hord. subst out.
  assert (Hpo : order ≡ₚ seq 0 (length (Releases projectParams)))
    by (rewrite Hperm, Hv; reflexivity).
  assert (Hbefore : forall a b, inferred C (Releases projectParams) a b ->
                                Dag.before order b a /\ a ∈ rev order).
  { intros a b Hab.
    assert (Ha : a ∈ rev order).
    { apply elem_of_rev. rewrite Hpo. apply elem_of_seq.
      destruct Hab as (ra & _ & _ & Hra & _). apply lookup_lt_Some in Hra. lia. }
    split; [apply Hord; [apply He; exact Hab | exact Ha] | exact Ha]. }
  split; [exact Hpo |]. split.
  - intros a b Hab. destruct (Hbefore a b Hab) as [Hb Ha]. split; [exact Hb |].
    pose proof Hab as Hab'. apply He in Hab'.
    destruct Hab as (ra0 & subs & s & Hra0 & _).
    destruct (Hheap a ra0 Hra0) as (ra & Hra & _ & _ & _ & Hdone).
    destruct (Hdone Ha b Hab') as (rb0 & Hrb0 & Hkey).
    destruct (Hheap b rb0 Hrb0) as (rb & Hrb & Hn & Hc & _).
    exists ra, rb. split; [exact Hra |]. split; [exact Hrb |].
    rewrite Hn, Hc. exact Hkey.
  - intros a b Hab. apply before_position; [| apply Hbefore; exact Hab].
    rewrite Hpo. apply NoDup_seq.
Qed.

Lemma chart_parse_sound_witness :
  [1%nat; 0%nat] ≡ₚ seq 0 (length (Releases Scenario.paramsS5)).
Proof.
  apply (chart_parse_sound (Scenario.quiet true [] Scenario.subsS5 None)
           Scenario.firstReady Scenario.paramsS5
           [Scenario.request "x" "x" (Some {[ "y" := "y" ]});
            Scenario.request "y" "y" (Some ∅)] [1%nat; 0%nat]).
  apply chart_parse_S5.
Defined.

(** X9: the chart-time resolver only adds to the dependencies maps.
    Whenever it returns, every release keeps its name, chart, repository and
    version and every entry its dependencies map was given; and every entry
    of the map that was not given maps the chart name of one of the release's
    inferred children, a release of the same bundle, to that child's release
    name. *)
Theorem chart_parse_augments (C : Collab) (sched : list ptr -> nat)
    (projectParams : ProjectParams) (heap : list ReleaseRequestV2) (out : list ptr) :
  brainFuckChartDepParse C sched projectParams = Ok (heap, out) ->
  length heap = length (Releases projectParams) /\
  forall p r0,
    Releases projectParams !! p = Some r0 ->
    exists r,
      heap !! p = Some r /\
      rqName r = rqName r0 /\ rqChartName r = rqChartName r0 /\
      rqRepoName r = rqRepoName r0 /\ rqChartVersion r = rqChartVersion r0 /\
      (forall k v, getKey (rqDependencies r0) k = Some v ->
                   getKey (rqDependencies r) k = Some v) /\
      (forall k v, getKey (rqDependencies r) k = Some v ->
                   getKey (rqDependencies r0) k = Some v \/
                   exists b rb,
                     inferred C (Releases projectParams) p b /\
                     Releases projectParams !! b = Some rb /\
                     k = rqChartName rb /\ v = rqName rb).
Proof.
  intros Hrun. apply parse_Ok_inv in Hrun as (g & Hg & Hw).
  apply chartGraph_Ok in Hg as (Hknown & Hv & He).
  assert (Hnd : NoDup (Dag.vertices g)) by (rewrite Hv; apply NoDup_seq).
  destruct (Walk_sound sched g (visit g)
              (fun _ s => augmented (Releases projectParams) g s))
    with (s := (Releases projectParams, @nil nat)) (s' := (heap, out))
    as (order & _ & [Hlen Hheap]).
  - intros v done s s1 HI _ _ _ Hvis. apply (visit_augments C _ g He v s s1 HI Hvis).
  - exact Hnd.
  - apply augmented_init.
  - exact Hw.
  - simpl in Hlen, Hheap. split; [exact Hlen |].
    intros p r0 Hp.
    destruct (Hheap p r0 Hp) as (r & Hr & Hn & Hc & Hrepo & Hver & _ & Hold & Hnew).
    exists r. split; [exact Hr |]. split; [exact Hn |]. split; [exact Hc |].
    split; [exact Hrepo |]. split; [exact Hver |]. split; [exact Hold |].
    intros k v Hk. apply Hnew in Hk as [Hk | (b & rb & Hb & H)]; [auto |].
    right. exists b, rb. split; [apply He; exact Hb | exact H].
Qed.

Lemma chart_parse_augments_witness :
  length [Scenario.request "x" "x" (Some {[ "y" := "y" ]});
          Scenario.request "y" "y" (Some ∅)]
  = length (Releases Scenario.paramsS5).
Proof.
  apply (chart_parse_augments (Scenario.quiet true [] Scenario.subsS5 None)
           Scenario.firstReady Scenario.paramsS5
           [Scenario.request "x" "x" (Some {[ "y" := "y" ]});
            Scenario.request "y" "y" (Some ∅)] [1%nat; 0%nat]).
  apply chart_parse_S5.
Defined.

Lemma Root_two {V : Type} `{EqDecision V} (g : Dag.AcyclicGraph V) (p q : V) :
  p ∈ Dag.vertices g -> q ∈ Dag.vertices g -> p <> q ->
  Dag.isRoot g p = true -> Dag.isRoot g q = true ->
  Dag.Root g = Err ErrNoRootOrCyclic.
Proof.
  intros Hp Hq Hne Hrp Hrq. unfold Dag.Root.
  assert (Hp' : p ∈ filter (fun v => Dag.isRoot g v = true) (Dag.vertices g))
    by (apply list_elem_of_filter; auto).
  assert (Hq' : q ∈ filter (fun v => Dag.isRoot g v = true) (Dag.vertices g))
    by (apply list_elem_of_filter; auto).
  destruct (filter (fun v => Dag.isRoot g v = true) (Dag.vertices g)) as [| x [| y l]];
    [reflexivity | | reflexivity].
  apply list_elem_of_singleton in Hp'. apply list_elem_of_singleton in Hq'. congruence.
Qed.

Lemma Root_none {V : Type} `{EqDecision V} (g : Dag.AcyclicGraph V) :
  (forall v, v ∈ Dag.vertices g -> Dag.isRoot g v = false) ->
  Dag.Root g = Err ErrNoRootOrCyclic.
Proof.
  intros H. unfold Dag.Root.
  destruct (filter (fun v => Dag.isRoot g v = true) (Dag.vertices g)) as [| x l] eqn:E;
    [reflexivity |].
  assert (Hx : x ∈ filter (fun v => Dag.isRoot g v = true) (Dag.vertices g))
    by (rewrite E; left).
  apply list_elem_of_filter in Hx as [Hr Hin]. rewrite (H x Hin) in Hr. discriminate.
Qed.

(** X10: the chart-time resolver insists on exactly one release that no
    other release of the bundle acquires as a child.  When the chart runtime
    answers and two different releases have no inferred parent, or every
    release has one (in particular when the bundle is empty), it returns the
    graph's root error and no release list. *)
Theorem chart_parse_needs_unique_root (C : Collab) (sched : list ptr -> nat)
    (projectParams : ProjectParams) :
  chartsKnown C (Releases projectParams) ->
  (exists p q,
     (p < length (Releases projectParams))%nat /\
     (q < length (Releases projectParams))%nat /\ p <> q /\
     (forall a, ~ inferred C (Releases projectParams) a p) /\
     (forall a, ~ inferred C (Releases projectParams) a q)) \/
  (forall p, (p < length (Releases projectParams))%nat ->
             exists a, inferred C (Releases projectParams) a p) ->
  brainFuckChartDepParse C sched projectParams = Err ErrNoRootOrCyclic.
Proof.
  intros Hknown Hroots.
  destruct (chartGraph_spec C _ Hknown) as (g & Hg & Hv & He).
  unfold brainFuckChartDepParse. rewrite Hg.
  assert (HR : Dag.Root g = Err ErrNoRootOrCyclic).
  { destruct Hroots as [(p & q & Hp & Hq & Hne & Hnp & Hnq) | Hall].
    - apply (Root_two g p q); [rewrite Hv; apply elem_of_seq; lia
                              | rewrite Hv; apply elem_of_seq; lia | exact Hne | |].
      + apply isRoot_spec. intros a Ha. apply (Hnp a). apply He. exact Ha.
      + apply isRoot_spec. intros a Ha. apply (Hnq a). apply He. exact Ha.
    - apply Root_none. intros v Hvin. rewrite Hv in Hvin. apply elem_of_seq in Hvin.
      destruct (Hall v) as [a Ha]; [lia |].
      destruct (Dag.isRoot g v) eqn:Er; [| reflexivity].
      exfalso. apply (proj1 (isRoot_spec g v) Er a). apply He. exact Ha. }
  rewrite HR. reflexivity.
Qed.

Lemma no_inferred_without_subcharts (releases : list ReleaseRequestV2) (a b : ptr) :
  ~ inferred (Scenario.quiet true [] Scenario.noSubs None) releases a b.
Proof.
  intros (ra & subs & s & _ & Had & Hs & _).
  injection Had as <-. inversion Hs.
Qed.

Lemma chart_parse_needs_unique_root_witness :
  brainFuckChartDepParse (Scenario.quiet true [] Scenario.noSubs None)
    Scenario.firstReady Scenario.paramsS1 = Err ErrNoRootOrCyclic.
Proof.
  apply (chart_parse_needs_unique_root (Scenario.quiet true [] Scenario.noSubs None)
           Scenario.firstReady Scenario.paramsS1).
  - intros r _. eexists. reflexivity.
  - left. exists 0%nat, 1%nat. simpl.
    split; [lia |]. split; [lia |]. split; [discriminate |].
    split; intros a; apply no_inferred_without_subcharts.
Defined.

Lemma chartEdges_Err (C : Collab) (m : gmap string ptr)
    (todo : list (ptr * ReleaseRequestV2)) :
  forall g p r e,
    (forall p' r', (p', r') ∈ todo ->
       autoDeps C (rqRepoName r') (rqChartName r') (rqChartVersion r') <> Panic) ->
    (p, r) ∈ todo ->
    autoDeps C (rqRepoName r) (rqChartName r) (rqChartVersion r) = Err e ->
    exists p' r' e',
      (p', r') ∈ todo /\
      autoDeps C (rqRepoName r') (rqChartName r') (rqChartVersion r') = Err e' /\
      chartEdges C m todo g = Err e'.
Proof.
  induction todo as [| [p0 r0] todo IH]; intros g p r e Hnp Hin He.
  - inversion Hin.
  - simpl.
    destruct (autoDeps C (rqRepoName r0) (rqChartName r0) (rqChartVersion r0))
      as [subs | e0 |] eqn:Ea.
    + apply elem_of_cons in Hin as [[= -> ->] | Hin]; [congruence |].
      destruct (IH (connectSubCharts m p0 r0 subs g) p r e) as (p' & r' & e' & Hin' & H);
        [intros p' r' H'; apply (Hnp p' r'); right; exact H' | exact Hin | exact He |].
      exists p', r', e'. split; [right; exact Hin' | exact H].
    + exists p0, r0, e0. split; [left | auto].
    + exfalso. apply (Hnp p0 r0); [left | exact Ea].
Qed.

(** X11: a failure of the chart runtime stops the chart-time resolver.  When
    GetAutoDependencies fails for some release of the bundle, the resolver
    returns an error that GetAutoDependencies gave for a release of the
    bundle; it returns no list and does not reach the walk. *)
Theorem chart_parse_runtime_error (C : Collab) (sched : list ptr -> nat)
    (projectParams : ProjectParams) (r : ReleaseRequestV2) (e : error) :
  (forall r', r' ∈ Releases projectParams ->
     autoDeps C (rqRepoName r') (rqChartName r') (rqChartVersion r') <> Panic) ->
  r ∈ Releases projectParams ->
  autoDeps C (rqRepoName r) (rqChartName r) (rqChartVersion r) = Err e ->
  exists r' e',
    r' ∈ Releases projectParams /\
    autoDeps C (rqRepoName r') (rqChartName r') (rqChartVersion r') = Err e' /\
    brainFuckChartDepParse C sched projectParams = Err e'.
Proof.
  intros Hnp Hin He.
  apply list_elem_of_lookup in Hin as [p Hp].
  destruct (chartEdges_Err C (chartIndex (Releases projectParams))
              (zip (seq 0 (length (Releases projectParams))) (Releases projectParams))
              (chartNodes (Releases projectParams)) p r e)
    as (p' & r' & e' & Hin' & He' & Hrun).
  - intros p' r' H'. apply (Hnp r'). apply elem_of_indexed in H'.
    eapply list_elem_of_lookup_2; exact H'.
  - apply elem_of_indexed. exact Hp.
  - exact He.
  - exists r', e'. split.
    + apply elem_of_indexed in Hin'. eapply list_elem_of_lookup_2; exact Hin'.
    + split; [exact He' |].
      unfold brainFuckChartDepParse, chartGraph. rewrite Hrun. reflexivity.
Qed.

Lemma chart_parse_runtime_error_witness :
  exists r' e',
    r' ∈ Releases Scenario.paramsS5 /\
    autoDeps Scenario2.chartsBroken (rqRepoName r') (rqChartName r') (rqChartVersion r')
      = Err e' /\
    brainFuckChartDepParse Scenario2.chartsBroken Scenario.firstReady Scenario.paramsS5
      = Err e'.
Proof.
  apply (chart_parse_runtime_error Scenario2.chartsBroken Scenario.firstReady
           Scenario.paramsS5 (Scenario.request "y" "y" (Some ∅))
           (ErrExternal "chart y not found")).
  - intros r' _. simpl. destruct (String.eqb (rqChartName r') "y"); discriminate.
  - right. left.
  - reflexivity.
Defined.

(** ** Further properties of the runtime resolver *)

Lemma fold_edges_mono {A} (f : Dag.AcyclicGraph string -> A -> Dag.AcyclicGraph string)
    (l : list A) :
  (forall g x e, e ∈ Dag.edges g -> e ∈ Dag.edges (f g x)) ->
  forall g e, e ∈ Dag.edges g -> e ∈ Dag.edges (fold_left f l g).
Proof.
  intros Hf. induction l as [| x l IH]; intros g e He; simpl; [exact He |].
  apply IH. apply Hf. exact He.
Qed.

Lemma fold_edges_intro {A} (f : Dag.AcyclicGraph string -> A -> Dag.AcyclicGraph string)
    (l : list A) (x : A) (e : string * string) :
  (forall g y e', e' ∈ Dag.edges g -> e' ∈ Dag.edges (f g y)) ->
  (forall g, e ∈ Dag.edges (f g x)) ->
  x ∈ l ->
  forall g, e ∈ Dag.edges (fold_left f l g).
Proof.
  intros Hmono Hx. induction l as [| y l IH]; intros Hin g; [inversion Hin |].
  simpl. apply elem_of_cons in Hin as [<- | Hin].
  - apply fold_edges_mono; [exact Hmono | apply Hx].
  - apply IH. exact Hin.
Qed.

Lemma Connect_mono {V} `{EqDecision V} (e e' : V * V) (g : Dag.AcyclicGraph V) :
  e' ∈ Dag.edges g -> e' ∈ Dag.edges (Dag.Connect e g).
Proof. intros H. apply elem_of_edges_Connect. auto. Qed.

Lemma Connect_here {V} `{EqDecision V} (e : V * V) (g : Dag.AcyclicGraph V) :
  e ∈ Dag.edges (Dag.Connect e g).
Proof. apply elem_of_edges_Connect. auto. Qed.

(** Every dependency value of a live release is an edge of the seeded
    graph. *)
Lemma runtimeGraph_edge_intro (releases : list ReleaseInfoV2) (r : ReleaseInfoV2)
    (b : string) :
  r ∈ releases -> b ∈ depValues (riDependencies r) ->
  (riName r, b) ∈ Dag.edges (runtimeGraph releases).
Proof.
  intros Hr Hb. unfold runtimeGraph, runtimeEdges.
  apply (fold_edges_intro _ releases r); [| | exact Hr].
  - intros g y e' He'. apply fold_edges_mono; [| exact He'].
    intros g' v e'' He''. apply Connect_mono. exact He''.
  - intros g. apply (fold_edges_intro _ (depValues (riDependencies r)) b); [| | exact Hb].
    + intros g' v e' He'. apply Connect_mono. exact He'.
    + intros g'. apply Connect_here.
Qed.

Lemma connectUpper_mono (C : Collab) (releaseParams : ReleaseRequestV2)
    (todo : list ReleaseInfoV2) :
  forall g g' e,
    connectUpper C releaseParams todo g = Ok g' ->
    e ∈ Dag.edges g -> e ∈ Dag.edges g'.
Proof.
  induction todo as [| r todo IH]; intros g g' e Hrun He; simpl in Hrun.
  - injection Hrun as <-. exact He.
  - destruct (autoDeps C (riRepoName r) (riChartName r) (riChartVersion r))
      as [subs | |]; try discriminate.
    eapply IH; [exact Hrun |].
    apply fold_edges_mono; [| exact He].
    intros g1 s e1 He1. destruct (_ && _); [apply Connect_mono |]; exact He1.
Qed.

Lemma connectUpper_intro (C : Collab) (releaseParams : ReleaseRequestV2)
    (todo : list ReleaseInfoV2) :
  forall g g' info subCharts,
    connectUpper C releaseParams todo g = Ok g' ->
    info ∈ todo ->
    autoDeps C (riRepoName info) (riChartName info) (riChartVersion info) = Ok subCharts ->
    rqChartName releaseParams ∈ subCharts ->
    hasKey (riDependencies info) (rqChartName releaseParams) = false ->
    (riName info, rqName releaseParams) ∈ Dag.edges g'.
Proof.
  induction todo as [| r todo IH]; intros g g' info subs Hrun Hin Ha Hs Hk;
    [inversion Hin |].
  simpl in Hrun.
  destruct (autoDeps C (riRepoName r) (riChartName r) (riChartVersion r))
    as [subs0 | |] eqn:Ea; try discriminate.
  apply elem_of_cons in Hin as [-> | Hin].
  - eapply connectUpper_mono; [exact Hrun |].
    assert (subs0 = subs) by congruence. subst subs0.
    apply (fold_edges_intro _ subs (rqChartName releaseParams)); [| | exact Hs].
    + intros g1 s e1 He1. destruct (_ && _); [apply Connect_mono |]; exact He1.
    + intros g1. rewrite String.eqb_refl, Hk. simpl. apply Connect_here.
  - eapply IH; eassumption.
Qed.

Lemma connectDown_mono (releaseParams : ReleaseRequestV2) (releases : list ReleaseInfoV2)
    (releaseSubCharts : list string) (g : Dag.AcyclicGraph string) (e : string * string) :
  e ∈ Dag.edges g ->
  e ∈ Dag.edges (connectDown releaseParams releases releaseSubCharts g).
Proof.
  intros He. unfold connectDown. apply fold_edges_mono; [| exact He].
  intros g1 s e1 He1. destruct (hasKey _ s); [exact He1 |].
  apply fold_edges_mono; [| exact He1].
  intros g2 r e2 He2. destruct (String.eqb _ _); [apply Connect_mono |]; exact He2.
Qed.

Lemma buildReleaseRequest_found (projectInfo : ProjectInfo) (info : ReleaseInfoV2) :
  info ∈ piReleases projectInfo ->
  exists u, buildReleaseRequest projectInfo (riName info) = Some u.
Proof.
  intros Hin. unfold buildReleaseRequest.
  destruct (find _ (piReleases projectInfo)) as [r |] eqn:Ef; [eauto |].
  exfalso. apply list_elem_of_In in Hin.
  pose proof (find_none _ _ Ef info Hin) as H. simpl in H.
  rewrite String.eqb_refl in H. discriminate.
Qed.

(** With pairwise distinct names, the projection of a name is the
    projection of the release that bears it. *)
Lemma buildReleaseRequest_self (projectInfo : ProjectInfo) (info : ReleaseInfoV2) :
  NoDup (riName <$> piReleases projectInfo) ->
  info ∈ piReleases projectInfo ->
  exists u,
    buildReleaseRequest projectInfo (riName info) = Some u /\
    rqName u = riName info /\ rqChartName u = riChartName info /\
    rqDependencies u = riDependencies info.
Proof.
  intros Hnd Hin. destruct (buildReleaseRequest_found projectInfo info Hin) as [u Hu].
  exists u. split; [exact Hu |].
  apply buildReleaseRequest_Some in Hu as (info' & Hin' & Hname & Hn & Hc & _ & _ & Hd).
  assert (info' = info)
    by (apply (NoDup_fmap_inj riName (piReleases projectInfo)); assumption).
  subst info'. auto.
Qed.

Lemma rewireUpper_omap (projectInfo : ProjectInfo) (releaseParams : ReleaseRequestV2)
    (uppers : list string) :
  rewireUpper projectInfo releaseParams uppers =
  omap (fun upperReleaseName =>
          match buildReleaseRequest projectInfo upperReleaseName with
          | None => None
          | Some upperRelease =>
              Some (if negb (hasKey (rqDependencies upperRelease)
                               (rqChartName releaseParams))
                    then withRqDependencies upperRelease
                           (setKeyInit (rqDependencies upperRelease)
                              (rqChartName releaseParams) (rqName releaseParams))
                    else upperRelease)
          end) uppers.
Proof.
  unfold rewireUpper.
  match goal with |- _ = omap ?step _ => rewrite (fold_affect step) end; [reflexivity |].
  intros acc x. destruct (buildReleaseRequest projectInfo x); reflexivity.
Qed.

Lemma unwireUpper_omap (projectInfo : ProjectInfo) (releaseParams : ReleaseRequestV2)
    (uppers : list string) :
  unwireUpper projectInfo releaseParams uppers =
  omap (fun upperReleaseName =>
          match buildReleaseRequest projectInfo upperReleaseName with
          | None => None
          | Some upperRelease =>
              Some (withRqDependencies upperRelease
                      (DeleteReleaseDependency (rqDependencies upperRelease)
                         (rqChartName releaseParams)))
          end) uppers.
Proof.
  unfold unwireUpper.
  match goal with |- _ = omap ?step _ => rewrite (fold_affect step) end; [reflexivity |].
  intros acc x. destruct (buildReleaseRequest projectInfo x); reflexivity.
Qed.

(** X12: the remove path misses no dependant.  On a project whose release
    names are pairwise distinct, every live release that lists the outgoing
    release's name among the values of its dependencies map is returned as
    affected, under its own name and chart, its dependencies map being the
    one it had with the entry keyed by the outgoing chart name deleted. *)
Theorem remove_affected_complete (C : Collab) (projectInfo : ProjectInfo)
    (releaseParams : ReleaseRequestV2) (info : ReleaseInfoV2) :
  NoDup (riName <$> piReleases projectInfo) ->
  info ∈ piReleases projectInfo ->
  rqName releaseParams ∈ depValues (riDependencies info) ->
  exists affected U,
    brainFuckRuntimeDepParse C projectInfo releaseParams true
      = Ok (affected, releaseParams) /\
    U ∈ affected /\
    rqName U = riName info /\ rqChartName U = riChartName info /\
    rqDependencies U
      = DeleteReleaseDependency (riDependencies info) (rqChartName releaseParams).
Proof.
  intros Hnd Hin Hv.
  destruct (buildReleaseRequest_self projectInfo info Hnd Hin) as (u & Hu & Hn & Hc & Hd).
  unfold brainFuckRuntimeDepParse. simpl negb. cbv iota.
  eexists _, (withRqDependencies u
                (DeleteReleaseDependency (rqDependencies u) (rqChartName releaseParams))).
  split; [reflexivity |]. split.
  - rewrite unwireUpper_omap. apply list_elem_of_omap. exists (riName info). split.
    + apply elem_of_listed, elem_of_UpEdges. apply runtimeGraph_edge_intro; assumption.
    + rewrite Hu. reflexivity.
  - simpl. rewrite Hd. auto.
Qed.

Lemma remove_affected_complete_witness :
  exists affected U,
    brainFuckRuntimeDepParse (Scenario.quiet true [] Scenario.noSubs None)
      Scenario.projectS4 (Scenario.request "a" "zk" None) true
      = Ok (affected, Scenario.request "a" "zk" None) /\
    U ∈ affected /\ rqName U = "b".
Proof.
  destruct (remove_affected_complete (Scenario.quiet true [] Scenario.noSubs None)
              Scenario.projectS4 (Scenario.request "a" "zk" None)
              (Scenario.live "b" "kafka" (Some {[ "zk" := "a" ]})))
    as (affected & U & Hrun & HU & Hn & _).
  - simpl. apply NoDup_cons. split; [| apply NoDup_singleton].
    intros H. apply list_elem_of_singleton in H. discriminate H.
  - right. left.
  - unfold depValues. simpl. rewrite map_to_list_singleton. left.
  - exists affected, U. auto.
Defined.

(** X13: the add path misses no parent.  On a project whose release names
    are pairwise distinct, the chart runtime answering, every live release
    that lists the incoming release's name among the values of its
    dependencies map, or whose chart declares a subchart equal to the
    incoming chart name while its map has no entry for it, is returned as
    affected under its own name, with an entry keyed by the incoming chart
    name; in the second case that entry is {incoming.chartName:
    incoming.name}. *)
Theorem add_affected_complete (C : Collab) (projectInfo : ProjectInfo)
    (releaseParams : ReleaseRequestV2) (info : ReleaseInfoV2) :
  NoDup (riName <$> piReleases projectInfo) ->
  runtimeKnown C projectInfo releaseParams ->
  info ∈ piReleases projectInfo ->
  rqName releaseParams ∈ depValues (riDependencies info) \/
  (exists subCharts,
     autoDeps C (riRepoName info) (riChartName info) (riChartVersion info) = Ok subCharts /\
     rqChartName releaseParams ∈ subCharts /\
     hasKey (riDependencies info) (rqChartName releaseParams) = false) ->
  exists affected incoming U,
    brainFuckRuntimeDepParse C projectInfo releaseParams false = Ok (affected, incoming) /\
    U ∈ affected /\
    rqName U = riName info /\ rqChartName U = riChartName info /\
    hasKey (rqDependencies U) (rqChartName releaseParams) = true /\
    (hasKey (riDependencies info) (rqChartName releaseParams) = false ->
     getKey (rqDependencies U) (rqChartName releaseParams)
       = Some (rqName releaseParams)).
Proof.
  intros Hnd [Hknown [rsubs Hrsubs]] Hin Hparent.
  destruct (buildReleaseRequest_self projectInfo info Hnd Hin) as (u & Hu & Hn & Hc & Hd).
  unfold brainFuckRuntimeDepParse. simpl negb. cbv iota.
  destruct (connectUpper_spec C releaseParams (piReleases projectInfo)
              (Dag.Add (rqName releaseParams) (runtimeGraph (piReleases projectInfo)))
              Hknown) as (g4 & Hg4 & _).
  rewrite Hg4, Hrsubs.
  eexists _, _,
    (if negb (hasKey (rqDependencies u) (rqChartName releaseParams))
     then withRqDependencies u
            (setKeyInit (rqDependencies u) (rqChartName releaseParams)
               (rqName releaseParams))
     else u).
  split; [reflexivity |]. split.
  - rewrite rewireUpper_omap. apply list_elem_of_omap. exists (riName info). split.
    + apply elem_of_listed, elem_of_UpEdges. apply connectDown_mono.
      destruct Hparent as [Hv | (subs & Ha & Hs & Hk)].
      * eapply connectUpper_mono; [exact Hg4 |]. rewrite edges_Add.
        apply runtimeGraph_edge_intro; assumption.
      * eapply connectUpper_intro; eassumption.
    + rewrite Hu. reflexivity.
  - rewrite Hd.
    destruct (hasKey (riDependencies info) (rqChartName releaseParams)) eqn:Ek; simpl.
    + split; [exact Hn |]. split; [exact Hc |]. split; [rewrite Hd; exact Ek | discriminate].
    + split; [exact Hn |]. split; [exact Hc |]. unfold setKeyInit.
      split; [apply bool_decide_eq_true; rewrite lookup_insert_eq; eauto |].
      intros _. apply lookup_insert_eq.
Qed.

Lemma add_affected_complete_witness :
  exists affected incoming U,
    brainFuckRuntimeDepParse (Scenario.quiet true [] Scenario.subsS3 None)
      Scenario.projectS3 (Scenario.request "hdfs" "hdfs" None) false
      = Ok (affected, incoming) /\
    U ∈ affected /\ rqName U = "hive" /\
    getKey (rqDependencies U) "hdfs" = Some "hdfs".
Proof.
  destruct (add_affected_complete (Scenario.quiet true [] Scenario.subsS3 None)
              Scenario.projectS3 (Scenario.request "hdfs" "hdfs" None)
              (Scenario.live "hive" "hive" None))
    as (affected & incoming & U & Hrun & HU & Hn & _ & _ & Hk).
  - simpl. apply NoDup_singleton.
  - split; [intros info _ |]; eexists; reflexivity.
  - left.
  - right. exists ["hdfs"]. split; [reflexivity |]. split; [left | reflexivity].
  - exists affected, incoming, U. split; [exact Hrun |]. split; [exact HU |].
    split; [exact Hn |]. apply Hk. reflexivity.
Defined.

Lemma absorbDown_spec (projectInfo : ProjectInfo) (downs : list string) :
  forall releaseParams : ReleaseRequestV2,
    let incoming := absorbDown projectInfo downs releaseParams in
    rqName incoming = rqName releaseParams /\
    rqChartName incoming = rqChartName releaseParams /\
    rqRepoName incoming = rqRepoName releaseParams /\
    rqChartVersion incoming = rqChartVersion releaseParams /\
    (forall k v, getKey (rqDependencies releaseParams) k = Some v ->
                 getKey (rqDependencies incoming) k = Some v) /\
    (forall k v, getKey (rqDependencies incoming) k = Some v ->
                 getKey (rqDependencies releaseParams) k = Some v \/
                 exists d info,
                   d ∈ downs /\ info ∈ piReleases projectInfo /\ riName info = d /\
                   k = riChartName info /\ v = riName info).
Proof.
  induction downs as [| d downs IH]; intros rp; simpl.
  - auto 10.
  - destruct (buildReleaseRequest projectInfo d) as [dr |] eqn:Eb.
    + destruct (hasKey (rqDependencies rp) (rqChartName dr)) eqn:Ek; simpl.
      * destruct (IH rp) as (Hn & Hc & Hr & Hv & Hold & Hnew).
        split; [exact Hn |]. split; [exact Hc |]. split; [exact Hr |].
        split; [exact Hv |]. split; [exact Hold |].
        intros k v Hk. apply Hnew in Hk as [Hk | (d' & info & Hd' & H)]; [auto |].
        right. exists d', info. split; [right; exact Hd' | exact H].
      * destruct (IH (withRqDependencies rp
                        (setKeyInit (rqDependencies rp) (rqChartName dr) (rqName dr))))
          as (Hn & Hc & Hr & Hv & Hold & Hnew).
        simpl in *. split; [exact Hn |]. split; [exact Hc |]. split; [exact Hr |].
        split; [exact Hv |]. split.
        -- intros k v Hk. apply Hold. unfold setKeyInit.
           rewrite lookup_insert_ne.
           ++ destruct (rqDependencies rp); [exact Hk | discriminate].
           ++ intros <-. apply hasKey_false_getKey in Ek. congruence.
        -- intros k v Hk. apply Hnew in Hk as [Hk | (d' & info & Hd' & H)].
           ++ unfold setKeyInit in Hk.
              destruct (decide (rqChartName dr = k)) as [<- | Hne].
              ** rewrite lookup_insert_eq in Hk. injection Hk as <-.
                 apply buildReleaseRequest_Some in Eb
                   as (info & Hin & Hname & Hn' & Hc' & _).
                 right. exists d, info. split; [left |]. split; [exact Hin |].
                 split; [exact Hname |]. split; congruence.
              ** rewrite lookup_insert_ne in Hk by exact Hne. left.
                 destruct (rqDependencies rp); simpl in Hk |- *; [exact Hk |].
                 rewrite lookup_empty in Hk. discriminate.
           ++ right. exists d', info. split; [right; exact Hd' | exact H].
    + destruct (IH rp) as (Hn & Hc & Hr & Hv & Hold & Hnew).
      split; [exact Hn |]. split; [exact Hc |]. split; [exact Hr |].
      split; [exact Hv |]. split; [exact Hold |].
      intros k v Hk. apply Hnew in Hk as [Hk | (d' & info & Hd' & H)]; [auto |].
      right. exists d', info. split; [right; exact Hd' | exact H].
Qed.

(** X14: what the add path does to the incoming release.  Whenever it
    returns, the incoming release keeps its name, chart, repository and
    version and every entry its dependencies map had; every entry added maps
    the chart name of a live release of the project to that release's name.
    The affected list never contains a release that is not live in the
    project.  This holds in whatever order the graph lists the children and
    the parents of the incoming release; which of two live releases of one
    chart is absorbed depends on that order. *)
Theorem add_incoming_absorbs (C : Collab) (projectInfo : ProjectInfo)
    (releaseParams : ReleaseRequestV2) (affected : list ReleaseRequestV2)
    (incoming : ReleaseRequestV2) :
  brainFuckRuntimeDepParse C projectInfo releaseParams false = Ok (affected, incoming) ->
  rqName incoming = rqName releaseParams /\
  rqChartName incoming = rqChartName releaseParams /\
  rqRepoName incoming = rqRepoName releaseParams /\
  rqChartVersion incoming = rqChartVersion releaseParams /\
  (forall k v, getKey (rqDependencies releaseParams) k = Some v ->
               getKey (rqDependencies incoming) k = Some v) /\
  (forall k v, getKey (rqDependencies incoming) k = Some v ->
               getKey (rqDependencies releaseParams) k = Some v \/
               exists info,
                 info ∈ piReleases projectInfo /\
                 k = riChartName info /\ v = riName info) /\
  (forall U, U ∈ affected ->
             exists info, info ∈ piReleases projectInfo /\ rqName U = riName info).
Proof.
  unfold brainFuckRuntimeDepParse. simpl negb. cbv iota.
  destruct (connectUpper C releaseParams (piReleases projectInfo) _) as [g4 | |];
    try discriminate.
  destruct (autoDeps C (rqRepoName releaseParams) (rqChartName releaseParams)
              (rqChartVersion releaseParams)) as [rsubs | |]; try discriminate.
  intros [= <- <-].
  match goal with
  | |- context [absorbDown projectInfo ?downs releaseParams] =>
      destruct (absorbDown_spec projectInfo downs releaseParams)
        as (Hn & Hc & Hr & Hv & Hold & Hnew)
  end.
  split; [exact Hn |]. split; [exact Hc |]. split; [exact Hr |]. split; [exact Hv |].
  split; [exact Hold |]. split.
  - intros k v Hk. apply Hnew in Hk as [Hk | (d & info & _ & Hin & _ & H)]; [auto |].
    right. exists info. auto.
  - intros U HU. rewrite rewireUpper_omap in HU.
    apply list_elem_of_omap in HU as (upper & _ & Hstep).
    destruct (buildReleaseRequest projectInfo upper) as [u |] eqn:Eb; [| discriminate].
    injection Hstep as <-.
    apply buildReleaseRequest_Some in Eb as (info & Hin & _ & Hn' & _).
    exists info. split; [exact Hin |]. destruct (negb _); exact Hn'.
Qed.

Lemma add_incoming_absorbs_witness :
  (exists info,
     info ∈ piReleases Scenario2.projectTwoZk /\
     "zk" = riChartName info /\ "z2" = riName info) /\
  brainFuckRuntimeDepParse
    (Scenario.quiet true [] Scenario.subsKafka None)
    Scenario2.projectTwoZk (Scenario.request "k" "kafka" None) false
  = Ok ([], Scenario.request "k" "kafka" (Some {[ "zk" := "z1" ]})) /\
  brainFuckRuntimeDepParse
    (Scenario2.ordered (Scenario.quiet true [] Scenario.subsKafka None)
       (fun l => l) (@rev string))
    Scenario2.projectTwoZk (Scenario.request "k" "kafka" None) false
  = Ok ([], Scenario.request "k" "kafka" (Some {[ "zk" := "z2" ]})).
Proof.
  split; [| split; vm_compute; reflexivity].
  destruct (add_incoming_absorbs
              (Scenario2.ordered (Scenario.quiet true [] Scenario.subsKafka None)
                 (fun l => l) (@rev string))
              Scenario2.projectTwoZk (Scenario.request "k" "kafka" None)
              [] (Scenario.request "k" "kafka" (Some {[ "zk" := "z2" ]})))
    as (_ & _ & _ & _ & _ & Hnew & _).
  - vm_compute. reflexivity.
  - destruct (Hnew "zk" "z2") as [H | H].
    + vm_compute. reflexivity.
    + vm_compute in H. discriminate H.
    + exact H.
Defined.

Lemma connectUpper_Err (C : Collab) (releaseParams : ReleaseRequestV2)
    (todo : list ReleaseInfoV2) :
  forall g info e,
    (forall info', info' ∈ todo ->
       autoDeps C (riRepoName info') (riChartName info') (riChartVersion info') <> Panic) ->
    info ∈ todo ->
    autoDeps C (riRepoName info) (riChartName info) (riChartVersion info) = Err e ->
    exists info' e',
      info' ∈ todo /\
      autoDeps C (riRepoName info') (riChartName info') (riChartVersion info') = Err e' /\
      connectUpper C releaseParams todo g = Err e'.
Proof.
  induction todo as [| r0 todo IH]; intros g info e Hnp Hin He; [inversion Hin |].
  simpl.
  destruct (autoDeps C (riRepoName r0) (riChartName r0) (riChartVersion r0))
    as [subs | e0 |] eqn:Ea.
  - apply elem_of_cons in Hin as [-> | Hin]; [congruence |].
    match goal with
    | |- context [connectUpper C releaseParams todo ?g1] =>
        destruct (IH g1 info e) as (info' & e' & Hin' & H)
    end; [intros i Hi; apply Hnp; right; exact Hi | exact Hin | exact He |].
    exists info', e'. split; [right; exact Hin' | exact H].
  - exists r0, e0. split; [left | auto].
  - exfalso. apply (Hnp r0); [left | exact Ea].
Qed.

(** X15: a failure of the chart runtime stops the add path and leaves the
    remove path alone.  When GetAutoDependencies fails for a live release,
    the add path returns an error GetAutoDependencies gave for a live
    release; when it answers for every live release and fails for the
    incoming release, the add path returns that error.  The remove path
    returns whatever the chart runtime would answer. *)
Theorem runtime_parse_runtime_error (C : Collab) (projectInfo : ProjectInfo)
    (releaseParams : ReleaseRequestV2) :
  (forall info e,
     (forall info', info' ∈ piReleases projectInfo ->
        autoDeps C (riRepoName info') (riChartName info') (riChartVersion info') <> Panic) ->
     info ∈ piReleases projectInfo ->
     autoDeps C (riRepoName info) (riChartName info) (riChartVersion info) = Err e ->
     exists info' e',
       info' ∈ piReleases projectInfo /\
       autoDeps C (riRepoName info') (riChartName info') (riChartVersion info') = Err e' /\
       brainFuckRuntimeDepParse C projectInfo releaseParams false = Err e') /\
  (forall e,
     (forall info, info ∈ piReleases projectInfo ->
        exists subCharts,
          autoDeps C (riRepoName info) (riChartName info) (riChartVersion info)
            = Ok subCharts) ->
     autoDeps C (rqRepoName releaseParams) (rqChartName releaseParams)
       (rqChartVersion releaseParams) = Err e ->
     brainFuckRuntimeDepParse C projectInfo releaseParams false = Err e) /\
  (exists affected,
     brainFuckRuntimeDepParse C projectInfo releaseParams true
       = Ok (affected, releaseParams)).
Proof.
  split; [| split].
  - intros info e Hnp Hin He.
    destruct (connectUpper_Err C releaseParams (piReleases projectInfo)
                (Dag.Add (rqName releaseParams) (runtimeGraph (piReleases projectInfo)))
                info e Hnp Hin He) as (info' & e' & Hin' & He' & Hrun).
    exists info', e'. split; [exact Hin' |]. split; [exact He' |].
    unfold brainFuckRuntimeDepParse. simpl negb. cbv iota. rewrite Hrun. reflexivity.
  - intros e Hknown He.
    destruct (connectUpper_spec C releaseParams (piReleases projectInfo)
                (Dag.Add (rqName releaseParams) (runtimeGraph (piReleases projectInfo)))
                Hknown) as (g4 & Hg4 & _).
    unfold brainFuckRuntimeDepParse. simpl negb. cbv iota. rewrite Hg4, He. reflexivity.
  - eexists. reflexivity.
Qed.

Lemma runtime_parse_runtime_error_witness :
  brainFuckRuntimeDepParse Scenario2.chartsBroken Scenario.projectS3
    (Scenario.request "y" "y" None) false
  = Err (ErrExternal "chart y not found").
Proof.
  apply (proj1 (proj2 (runtime_parse_runtime_error Scenario2.chartsBroken
                         Scenario.projectS3 (Scenario.request "y" "y" None)))).
  - intros info Hin. simpl in Hin. apply list_elem_of_singleton in Hin. subst info.
    eexists. reflexivity.
  - reflexivity.
Defined.

Lemma NoDup_edges_Connect {V} `{EqDecision V} (e : V * V) (g : Dag.AcyclicGraph V) :
  NoDup (Dag.edges g) -> NoDup (Dag.edges (Dag.Connect e g)).
Proof.
  intros Hnd. unfold Dag.Connect. case_bool_decide as Hin; [exact Hnd |]. simpl.
  apply NoDup_app. split; [exact Hnd |]. split; [| apply NoDup_singleton].
  intros x Hx Hx'. apply list_elem_of_singleton in Hx'. subst x. contradiction.
Qed.

Lemma fold_graph_inv {A} (P : Dag.AcyclicGraph string -> Prop)
    (f : Dag.AcyclicGraph string -> A -> Dag.AcyclicGraph string) (l : list A) :
  (forall g x, P g -> P (f g x)) ->
  forall g, P g -> P (fold_left f l g).
Proof.
  intros Hf. induction l as [| x l IH]; intros g Hg; simpl; [exact Hg |].
  apply IH. apply Hf. exact Hg.
Qed.

Lemma NoDup_edges_runtimeGraph (releases : list ReleaseInfoV2) :
  NoDup (Dag.edges (runtimeGraph releases)).
Proof.
  unfold runtimeGraph, runtimeEdges.
  apply (fold_graph_inv (fun g => NoDup (Dag.edges g))).
  - intros g r Hg. apply (fold_graph_inv (fun g => NoDup (Dag.edges g))); [| exact Hg].
    intros g' v Hg'. apply NoDup_edges_Connect. exact Hg'.
  - rewrite edges_runtimeNodes. apply NoDup_nil_2.
Qed.

Lemma NoDup_edges_connectUpper (C : Collab) (releaseParams : ReleaseRequestV2)
    (todo : list ReleaseInfoV2) :
  forall g g',
    connectUpper C releaseParams todo g = Ok g' ->
    NoDup (Dag.edges g) -> NoDup (Dag.edges g').
Proof.
  induction todo as [| r todo IH]; intros g g' Hrun Hnd; simpl in Hrun.
  - injection Hrun as <-. exact Hnd.
  - destruct (autoDeps C (riRepoName r) (riChartName r) (riChartVersion r))
      as [subs | |]; try discriminate.
    eapply IH; [exact Hrun |].
    apply (fold_graph_inv (fun g => NoDup (Dag.edges g))); [| exact Hnd].
    intros g1 s Hg1. destruct (_ && _); [apply NoDup_edges_Connect |]; exact Hg1.
Qed.

Lemma NoDup_edges_connectDown (releaseParams : ReleaseRequestV2)
    (releases : list ReleaseInfoV2) (releaseSubCharts : list string)
    (g : Dag.AcyclicGraph string) :
  NoDup (Dag.edges g) ->
  NoDup (Dag.edges (connectDown releaseParams releases releaseSubCharts g)).
Proof.
  intros Hnd. unfold connectDown.
  apply (fold_graph_inv (fun g => NoDup (Dag.edges g))); [| exact Hnd].
  intros g1 s Hg1. destruct (hasKey _ s); [exact Hg1 |].
  apply (fold_graph_inv (fun g => NoDup (Dag.edges g))); [| exact Hg1].
  intros g2 r Hg2. destruct (String.eqb _ _); [apply NoDup_edges_Connect |]; exact Hg2.
Qed.

Lemma NoDup_UpEdges {V} `{EqDecision V} (g : Dag.AcyclicGraph V) (v : V) :
  NoDup (Dag.edges g) -> NoDup (Dag.UpEdges g v).
Proof.
  intros Hnd. unfold Dag.UpEdges. apply NoDup_fmap_2_strong.
  - intros [a b] [a' b'] Hx Hy Heq.
    apply list_elem_of_filter in Hx as [Hb _]. apply list_elem_of_filter in Hy as [Hb' _].
    simpl in *. congruence.
  - apply NoDup_filter. exact Hnd.
Qed.

Lemma NoDup_omap_key {A B} (key : B -> A) (step : A -> option B) (l : list A) :
  (forall x y, step x = Some y -> key y = x) ->
  NoDup l -> NoDup (key <$> omap step l).
Proof.
  intros Hkey. induction l as [| x l IH]; intros Hnd; simpl; [apply NoDup_nil_2 |].
  apply NoDup_cons in Hnd as [Hx Hnd].
  destruct (step x) as [y |] eqn:Es; [| apply IH; exact Hnd].
  rewrite fmap_cons. apply NoDup_cons. split; [| apply IH; exact Hnd].
  rewrite (Hkey x y Es). intros Hin.
  apply list_elem_of_fmap in Hin as (y' & Hy' & Hin).
  apply list_elem_of_omap in Hin as (x' & Hx' & Hs').
  rewrite (Hkey x' y' Hs') in Hy'. subst x'. contradiction.
Qed.

(** X16: no release is returned as affected twice.  Whenever the runtime
    resolver returns, on either path, the names of the releases in the
    affected list are pairwise distinct. *)
Theorem affected_names_distinct (C : Collab) (projectInfo : ProjectInfo)
    (releaseParams : ReleaseRequestV2) (isRemove : bool)
    (affected : list ReleaseRequestV2) (incoming : ReleaseRequestV2) :
  brainFuckRuntimeDepParse C projectInfo releaseParams isRemove = Ok (affected, incoming) ->
  NoDup (rqName <$> affected).
Proof.
  unfold brainFuckRuntimeDepParse. destruct isRemove; simpl negb; cbv iota.
  - intros [= <- <-]. rewrite unwireUpper_omap.
    apply NoDup_omap_key.
    + intros x y Hs.
      destruct (buildReleaseRequest projectInfo x) as [u |] eqn:Eb; [| discriminate].
      injection Hs as <-.
      apply buildReleaseRequest_Some in Eb as (info & _ & Hname & Hn & _).
      simpl. congruence.
    + apply NoDup_listed, NoDup_UpEdges. apply NoDup_edges_runtimeGraph.
  - destruct (connectUpper C releaseParams (piReleases projectInfo) _) as [g4 | |] eqn:Eg;
      try discriminate.
    destruct (autoDeps C (rqRepoName releaseParams) (rqChartName releaseParams)
                (rqChartVersion releaseParams)) as [rsubs | |]; try discriminate.
    intros [= <- <-]. rewrite rewireUpper_omap.
    apply NoDup_omap_key.
    + intros x y Hs.
      destruct (buildReleaseRequest projectInfo x) as [u |] eqn:Eb; [| discriminate].
      injection Hs as <-.
      apply buildReleaseRequest_Some in Eb as (info & _ & Hname & Hn & _).
      destruct (negb _); simpl; congruence.
    + apply NoDup_listed, NoDup_UpEdges. apply NoDup_edges_connectDown.
      eapply NoDup_edges_connectUpper; [exact Eg |].
      rewrite edges_Add. apply NoDup_edges_runtimeGraph.
Qed.

Lemma affected_names_distinct_witness :
  NoDup (rqName <$> [Scenario.request "b" "kafka" (Some {[ "zk" := "a" ]});
                     Scenario.request "c" "hive" (Some {[ "zk" := "a" ]})]) /\
  NoDup (rqName <$> [Scenario.request "c" "hive" (Some ∅);
                     Scenario.request "b" "kafka" (Some ∅)]).
Proof.
  split.
  - apply (affected_names_distinct (Scenario.quiet true [] Scenario.noSubs None)
             Scenario2.projectTwoParents (Scenario.request "a" "zk" None) false
             [Scenario.request "b" "kafka" (Some {[ "zk" := "a" ]});
              Scenario.request "c" "hive" (Some {[ "zk" := "a" ]})]
             (Scenario.request "a" "zk" None)).
    vm_compute. reflexivity.
  - apply (affected_names_distinct
             (Scenario2.ordered (Scenario.quiet true [] Scenario.noSubs None)
                (@rev string) (fun l => l))
             Scenario2.projectTwoParents (Scenario.request "a" "zk" None) true
             [Scenario.request "c" "hive" (Some ∅); Scenario.request "b" "kafka" (Some ∅)]
             (Scenario.request "a" "zk" None)).
    vm_compute. reflexivity.
Defined.

(** ** When a mutating operation goes through *)

Lemma releaseExists_true (releases : list ReleaseInfoV2) (name : string) (r : ReleaseInfoV2) :
  r ∈ releases -> riName r = name -> releaseExistsInProject releases name = true.
Proof.
  intros Hin Hn. unfold releaseExistsInProject. apply existsb_exists.
  exists r. split; [apply list_elem_of_In; exact Hin | apply String.eqb_eq; exact Hn].
Qed.

Lemma buildProjectInfo_releases (C : Collab) (c : ProjectCache)
    (releases : list ReleaseInfoV2) :
  listReleases C (pcNamespace c) (pcName c) = Ok releases ->
  exists info, buildProjectInfo C c = Ok info /\ piReleases info = releases.
Proof.
  intros Hl. unfold buildProjectInfo. rewrite Hl.
  match goal with |- context [let '(_, _) := ?x in _] => destruct x end.
  eexists. split; reflexivity.
Qed.

(** X17: create and add-releases reject an empty bundle before anything
    else: whatever the store holds or answers, even when it cannot be read
    or the project is busy, they return "project releases can not be empty"
    and leave the world as it was. *)
Theorem empty_bundle_rejected (C : Collab) (op : Operation) (w : World) :
  opEmptyBundle op = true ->
  runOp C op w = (w, Err (ErrNew "project releases can not be empty")).
Proof.
  intros He. destruct op; simpl in He; try discriminate; simpl.
  - unfold CreateProject. rewrite He. reflexivity.
  - unfold AddReleasesInProject. rewrite He. reflexivity.
Qed.

Lemma empty_bundle_rejected_witness :
  runOp (Scenario2.storeUnreadable (Scenario.quiet false [] Scenario.noSubs None) "redis down")
    (OpAddReleases "t1" "p1" {| Releases := [] |} false 0) Scenario.worldP1
  = (Scenario.worldP1, Err (ErrNew "project releases can not be empty")).
Proof.
  apply (empty_bundle_rejected
           (Scenario2.storeUnreadable (Scenario.quiet false [] Scenario.noSubs None)
              "redis down")
           (OpAddReleases "t1" "p1" {| Releases := [] |} false 0) Scenario.worldP1).
  reflexivity.
Defined.

(** The tail every operation shares once it is past its checks. *)
Lemma tail_proceeds (C : Collab) (task : TaskArgs) (entry : TaskSignature -> ProjectCache)
    (prior : option ProjectCache) (async : bool) (timeoutSec : Z) (sig : TaskSignature)
    (w : World) :
  send C task = Ok sig ->
  putFault C (entry sig) = None ->
  let r :=
    (sig0 <- SendTask C task ;;
     CreateOrUpdateProjectCache C (entry sig0) ;;;
     match prior with
     | Some old => PurgeTaskState C (LatestTaskSignature old)
     | None => ret tt
     end ;;;
     if negb async
     then GetWithTimeout C (LatestTaskSignature (entry sig0)) (secondsToDuration timeoutSec)
     else ret tt) w in
  caches (fst r) = <[(pcNamespace (entry sig), pcName (entry sig)) := entry sig]> (caches w) /\
  cacheWrites (fst r) = cacheWrites w ++ [entry sig] /\
  submitted (fst r) = submitted w ++ [task] /\
  purged (fst r) =
    match prior with
    | Some old =>
        match purgeFault C (LatestTaskSignature old) with
        | Some _ => purged w
        | None => purged w ++ [LatestTaskSignature old]
        end
    | None => purged w
    end /\
  returned r =
    if async then None
    else await C (LatestTaskSignature (entry sig)) (secondsToDuration timeoutSec).
Proof.
  intros Hs Hp.
  unfold bind, SendTask, CreateOrUpdateProjectCache, PurgeTaskState, GetWithTimeout, ret,
    returned.
  rewrite Hs. simpl. rewrite Hp. simpl.
  destruct prior as [old |]; [destruct (purgeFault C (LatestTaskSignature old)) |];
    destruct async; simpl; try destruct (await C _ _); simpl; auto 10.
Qed.

(** The conditions under which a mutating operation goes through, and what
    it then does. *)
Lemma op_proceeds (C : Collab) (op : Operation) (w : World)
    (prior : option ProjectCache) (sig : TaskSignature) :
  opEmptyBundle op = false ->
  match prior with
  | Some c =>
      GetProjectCache C (opNamespace op) (opProject op) w = Ok c /\
      finishedOrTimeout C c = true /\
      forall target, opTarget op = Some target ->
        exists releases r,
          listReleases C (pcNamespace c) (pcName c) = Ok releases /\
          r ∈ releases /\ riName r = target
  | None =>
      GetProjectCache C (opNamespace op) (opProject op) w = Err ErrNotFound /\
      opAllowsMissing op = true
  end ->
  send C (taskOf op) = Ok sig ->
  putFault C (entryOf op sig) = None ->
  caches (fst (runOp C op w))
    = <[(opNamespace op, opProject op) := entryOf op sig]> (caches w) /\
  cacheWrites (fst (runOp C op w)) = cacheWrites w ++ [entryOf op sig] /\
  submitted (fst (runOp C op w)) = submitted w ++ [taskOf op] /\
  purged (fst (runOp C op w)) =
    match prior with
    | Some old =>
        match purgeFault C (LatestTaskSignature old) with
        | Some _ => purged w
        | None => purged w ++ [LatestTaskSignature old]
        end
    | None => purged w
    end /\
  returned (runOp C op w)
    = if opAsync op then None
      else await C sig (secondsToDuration (effectiveTimeout op)).
Proof.
  intros He Hprior Hs Hp.
  assert (Hv : validateProjectTask C (opNamespace op) (opProject op)
                 (opAllowsMissing op) w = Ok prior).
  { destruct prior as [c |].
    - destruct Hprior as (Hg & Hf & _). apply validate_free; assumption.
    - destruct Hprior as (Hg & Ha). rewrite Ha.
      apply (validate_not_found C _ _ _ Hg). }
  assert (Hb : forall target, opTarget op = Some target ->
             exists info, buildProjectInfoOf C prior = Ok info /\
                          releaseExistsInProject (piReleases info) target = true).
  { intros target Ht. destruct prior as [c |].
    - destruct Hprior as (_ & _ & Hrel).
      destruct (Hrel target Ht) as (releases & r & Hl & Hin & Hn).
      destruct (buildProjectInfo_releases C c releases Hl) as (info & Hi & Hr).
      exists info. split; [exact Hi |]. rewrite Hr.
      apply (releaseExists_true releases target r); assumption.
    - destruct Hprior as (_ & Ha). destruct op; simpl in Ha, Ht; discriminate. }
  destruct op; simpl in *.
  - pose proof (tail_proceeds C (CreateProjectTaskArgs project namespace projectParams)
             (fun s => {| pcNamespace := namespace; pcName := project;
                          LatestTaskSignature := s;
                          LatestTaskTimeoutSec :=
                            if Z.eqb timeoutSec 0 then defaultTimeoutSec else timeoutSec |})
             prior async (if Z.eqb timeoutSec 0 then defaultTimeoutSec else timeoutSec)
             sig w Hs Hp) as H.
    cbv zeta in H.
    match type of H with
    | context [fst ?X] =>
        replace (CreateProject C namespace project projectParams async timeoutSec w) with X; [exact H |]
    end.
    unfold CreateProject. rewrite He. unfold validate, bind. cbv beta. rewrite Hv. reflexivity.
  - pose proof (tail_proceeds C (DeleteProjectTaskArgs project namespace deletePvcs)
             (fun s => {| pcNamespace := namespace; pcName := project;
                          LatestTaskSignature := s;
                          LatestTaskTimeoutSec :=
                            if Z.eqb timeoutSec 0 then defaultTimeoutSec else timeoutSec |})
             prior async (if Z.eqb timeoutSec 0 then defaultTimeoutSec else timeoutSec)
             sig w Hs Hp) as H.
    cbv zeta in H.
    match type of H with
    | context [fst ?X] =>
        replace (DeleteProject C namespace project async timeoutSec deletePvcs w) with X; [exact H |]
    end.
    unfold DeleteProject. rewrite Hv. reflexivity.
  - pose proof (tail_proceeds C (AddReleaseTaskArgs namespace projectName projectParams)
             (fun s => {| pcNamespace := namespace; pcName := projectName;
                          LatestTaskSignature := s;
                          LatestTaskTimeoutSec :=
                            if Z.eqb timeoutSec 0 then defaultTimeoutSec else timeoutSec |})
             prior async (if Z.eqb timeoutSec 0 then defaultTimeoutSec else timeoutSec)
             sig w Hs Hp) as H.
    cbv zeta in H.
    match type of H with
    | context [fst ?X] =>
        replace (AddReleasesInProject C namespace projectName projectParams async timeoutSec w) with X; [exact H |]
    end.
    unfold AddReleasesInProject. rewrite He. unfold validate, bind. cbv beta. rewrite Hv. reflexivity.
  - pose proof (tail_proceeds C (UpgradeReleaseTaskArgs namespace projectName releaseParams)
             (fun s => {| pcNamespace := namespace; pcName := projectName;
                          LatestTaskSignature := s;
                          LatestTaskTimeoutSec :=
                            if Z.eqb timeoutSec 0 then defaultTimeoutSec else timeoutSec |})
             prior async (if Z.eqb timeoutSec 0 then defaultTimeoutSec else timeoutSec)
             sig w Hs Hp) as H.
    cbv zeta in H.
    match type of H with
    | context [fst ?X] =>
        replace (UpgradeReleaseInProject C namespace projectName releaseParams async timeoutSec w) with X; [exact H |]
    end.
    unfold UpgradeReleaseInProject. rewrite Hv. destruct (Hb _ eq_refl) as (info & Hi & Hex). rewrite Hi, Hex. reflexivity.
  - pose proof (tail_proceeds C (RemoveReleaseTaskArgs namespace projectName releaseName deletePvcs)
             (fun s => {| pcNamespace := namespace; pcName := projectName;
                          LatestTaskSignature := s;
                          LatestTaskTimeoutSec :=
                            if Z.eqb timeoutSec 0 then defaultTimeoutSec else timeoutSec |})
             prior async (if Z.eqb timeoutSec 0 then defaultTimeoutSec else timeoutSec)
             sig w Hs Hp) as H.
    cbv zeta in H.
    match type of H with
    | context [fst ?X] =>
        replace (RemoveReleaseInProject C namespace projectName releaseName async timeoutSec deletePvcs w) with X; [exact H |]
    end.
    unfold RemoveReleaseInProject. rewrite Hv. destruct (Hb _ eq_refl) as (info & Hi & Hex). rewrite Hi, Hex. reflexivity.
Qed.



(** C9: a mutating operation called with timeoutSec = 0 replaces the timeout
    with defaultTimeoutSec = 60 before the cache write.  Whenever it goes
    through (a non-empty bundle; a cached project whose latest task is
    finished or timed out, with the named release listed for upgrade and
    remove, or NotFound for create and add-releases; the broker and the store
    answering), each of the five operations writes the fresh entry
    {namespace, name, the broker's signature, latestTaskTimeoutSec = 60} and
    submits its task; and in no case does it write anything else: at most one
    entry, with timeout 60.  In particular an async CreateProject with
    timeout 0, a non-empty bundle and no existing cache writes that entry,
    submits exactly the one create task and returns nil. *)
Theorem zero_timeout_is_default (C : Collab) :
  (forall op w,
     opTimeout op = 0 ->
     cacheWrites (fst (runOp C op w)) = cacheWrites w \/
     exists sig,
       cacheWrites (fst (runOp C op w)) =
         cacheWrites w ++ [{| pcNamespace := opNamespace op; pcName := opProject op;
                              LatestTaskSignature := sig;
                              LatestTaskTimeoutSec := 60 |}]) /\
  (forall op w prior sig,
     opTimeout op = 0 ->
     opEmptyBundle op = false ->
     match prior with
     | Some c =>
         GetProjectCache C (opNamespace op) (opProject op) w = Ok c /\
         finishedOrTimeout C c = true /\
         forall target, opTarget op = Some target ->
           exists releases r,
             listReleases C (pcNamespace c) (pcName c) = Ok releases /\
             r ∈ releases /\ riName r = target
     | None =>
         GetProjectCache C (opNamespace op) (opProject op) w = Err ErrNotFound /\
         opAllowsMissing op = true
     end ->
     send C (taskOf op) = Ok sig ->
     putFault C {| pcNamespace := opNamespace op; pcName := opProject op;
                   LatestTaskSignature := sig; LatestTaskTimeoutSec := 60 |} = None ->
     let entry := {| pcNamespace := opNamespace op; pcName := opProject op;
                     LatestTaskSignature := sig; LatestTaskTimeoutSec := 60 |} in
     caches (fst (runOp C op w)) = <[(opNamespace op, opProject op) := entry]> (caches w) /\
     cacheWrites (fst (runOp C op w)) = cacheWrites w ++ [entry] /\
     submitted (fst (runOp C op w)) = submitted w ++ [taskOf op]) /\
  (forall namespace project projectParams sig w,
     Releases projectParams <> [] ->
     GetProjectCache C namespace project w = Err ErrNotFound ->
     send C (CreateProjectTaskArgs project namespace projectParams) = Ok sig ->
     putFault C {| pcNamespace := namespace; pcName := project;
                   LatestTaskSignature := sig; LatestTaskTimeoutSec := 60 |} = None ->
     let entry := {| pcNamespace := namespace; pcName := project;
                     LatestTaskSignature := sig; LatestTaskTimeoutSec := 60 |} in
     CreateProject C namespace project projectParams true 0 w =
       ({| caches := <[(namespace, project) := entry]> (caches w);
           cacheWrites := cacheWrites w ++ [entry];
           submitted := submitted w ++ [CreateProjectTaskArgs project namespace projectParams];
           purged := purged w |}, Ok tt)).
Proof.
  split; [| split].
  - intros op w Ht.
    destruct op; simpl in Ht; subst timeoutSec; simpl;
      unfold CreateProject, DeleteProject, AddReleasesInProject,
        UpgradeReleaseInProject, RemoveReleaseInProject,
        bind, validate, fail, ret, SendTask, CreateOrUpdateProjectCache,
        PurgeTaskState, GetWithTimeout, defaultTimeoutSec;
      simpl; split_run; eauto.
  - intros op w prior sig Ht He Hprior Hs Hp entry.
    subst entry.
    assert (Hentry : entryOf op sig =
                     {| pcNamespace := opNamespace op; pcName := opProject op;
                        LatestTaskSignature := sig; LatestTaskTimeoutSec := 60 |}).
    { unfold entryOf, effectiveTimeout. rewrite Ht. reflexivity. }
    rewrite <- Hentry in Hp |- *.
    destruct (op_proceeds C op w prior sig He Hprior Hs Hp) as (H1 & H2 & H3 & _).
    auto.
  - intros namespace project projectParams sig w Hne Hg Hs Hp entry.
    destruct (validate_not_found C _ _ _ Hg) as [_ Hv].
    unfold CreateProject. rewrite (eqb_length_nonempty _ Hne).
    unfold bind, validate, SendTask, CreateOrUpdateProjectCache, ret,
      defaultTimeoutSec.
    rewrite Hv, Hs. simpl. rewrite Hp. reflexivity.
Qed.

Lemma zero_timeout_is_default_witness :
  let C := Scenario.quiet true [Scenario.live "a" "zk" None] Scenario.noSubs None in
  let entry := {| pcNamespace := "t1"; pcName := "p1";
                  LatestTaskSignature := Scenario.sig1; LatestTaskTimeoutSec := 60 |} in
  CreateProject C "t1" "p1" Scenario.paramsS1 true 0 Scenario.emptyWorld =
    ({| caches := <[("t1", "p1") := entry]> ∅;
        cacheWrites := [entry];
        submitted := [CreateProjectTaskArgs "p1" "t1" Scenario.paramsS1];
        purged := [] |}, Ok tt) /\
  cacheWrites (fst (runOp C (OpRemove "t1" "p1" "a" true 0 false) Scenario.worldP1))
    = [entry] /\
  cacheWrites (fst (runOp C (OpDelete "t1" "p1" true 0 false) Scenario.worldP1))
    = [entry].
Proof.
  intros C entry. split; [| split].
  - apply (proj2 (proj2 (zero_timeout_is_default C)) "t1" "p1" Scenario.paramsS1
             Scenario.sig1 Scenario.emptyWorld).
    + discriminate.
    + reflexivity.
    + reflexivity.
    + reflexivity.
  - apply (proj1 (proj2 (zero_timeout_is_default C))
             (OpRemove "t1" "p1" "a" true 0 false) Scenario.worldP1
             (Some Scenario.cacheP1) Scenario.sig1).
    + reflexivity.
    + reflexivity.
    + split; [vm_compute; reflexivity |]. split; [reflexivity |].
      intros target [= <-].
      exists [Scenario.live "a" "zk" None], (Scenario.live "a" "zk" None).
      split; [reflexivity |]. split; [left | reflexivity].
    + reflexivity.
    + reflexivity.
  - apply (proj1 (proj2 (zero_timeout_is_default C))
             (OpDelete "t1" "p1" true 0 false) Scenario.worldP1
             (Some Scenario.cacheP1) Scenario.sig1).
    + reflexivity.
    + reflexivity.
    + split; [vm_compute; reflexivity |]. split; [reflexivity |].
      intros target Ht. discriminate Ht.
    + reflexivity.
    + reflexivity.
Defined.
